(** * sqlingo code generator: identifier normalisation, type mapping, emission

    A shallow embedding of [generator/generator.go] (package [generator] of
    sqlingo) and the properties its specification states about it.

    Conventions of the embedding.
    - A Go [string] is represented by the sequence of runes that
      [for _, r := range s] yields over it (U+FFFD for a byte that is not
      UTF-8), a [rune] being its code point (an [int32], here a [Z]).
      Literals of the source are written [str "..."].
    - The tables of Go's [unicode] package and the fold relation behind
      [strings.EqualFold] belong to the Go standard library, not to this
      repository: they are a parameter [U : UnicodeTables] of every function
      that consults them.  [GoUnicode U] collects the facts about the real
      tables that the proofs rely on.  [excerpt] is a concrete table, exact on
      the runes listed at its definition, used to evaluate the functions on
      concrete inputs.
    - A run-time panic of a pure function is the result [None]. *)

From Stdlib Require Import ZArith List Bool Lia String Ascii DecimalString.
Import ListNotations.

Open Scope string_scope.
Open Scope list_scope.
Open Scope Z_scope.

(** ** Go strings and runes *)

Abbreviation rune := Z (only parsing).
Abbreviation gostring := (list Z) (only parsing).

Definition ch (a : ascii) : rune := Z.of_N (N_of_ascii a).

Definition str (s : string) : gostring := map ch (list_ascii_of_string s).

Definition rune_eqb (a b : rune) : bool := Z.eqb a b.

Fixpoint gostring_eqb (s t : gostring) : bool :=
  match s, t with
  | [], [] => true
  | a :: s', b :: t' => rune_eqb a b && gostring_eqb s' t'
  | _, _ => false
  end.

(** ** The Go standard library's Unicode tables *)

Record UnicodeTables : Type := {
  IsLetter : rune -> bool;      (* unicode.IsLetter: category L *)
  IsDigit : rune -> bool;       (* unicode.IsDigit: category Nd *)
  IsUpper : rune -> bool;       (* unicode.IsUpper: category Lu *)
  ToUpper : rune -> rune;       (* unicode.ToUpper *)
  ToLower : rune -> rune;       (* unicode.ToLower *)
  (* the second rune lies on the unicode.SimpleFold orbit of the first: the
     test strings.EqualFold makes on each pair of runes *)
  FoldEq : rune -> rune -> bool
}.

Definition isAlnum (U : UnicodeTables) (r : rune) : bool :=
  IsLetter U r || IsDigit U r.

(** strings.EqualFold: rune by rune, both strings exhausted together. *)
Fixpoint strings_EqualFold (U : UnicodeTables) (s t : gostring) : bool :=
  match s, t with
  | [], [] => true
  | sr :: s', tr :: t' => FoldEq U sr tr && strings_EqualFold U s' t'
  | _, _ => false
  end.

(** strings.ToLower *)
Definition strings_ToLower (U : UnicodeTables) (s : gostring) : gostring :=
  map (ToLower U) s.

(** strings.HasPrefix *)
Fixpoint strings_HasPrefix (s prefix : gostring) : bool :=
  match prefix, s with
  | [], _ => true
  | p :: prefix', c :: s' => rune_eqb c p && strings_HasPrefix s' prefix'
  | _ :: _, [] => false
  end.

(** *** The ASCII block, as Go's tables have it *)

Definition ascii_upper (r : rune) : bool := (65 <=? r) && (r <=? 90).
Definition ascii_lower (r : rune) : bool := (97 <=? r) && (r <=? 122).
Definition ascii_digit (r : rune) : bool := (48 <=? r) && (r <=? 57).
Definition ascii_letter (r : rune) : bool := ascii_upper r || ascii_lower r.
Definition ascii_toUpper (r : rune) : rune := if ascii_lower r then r - 32 else r.
Definition ascii_toLower (r : rune) : rune := if ascii_upper r then r + 32 else r.
Definition ascii_foldEq (a b : rune) : bool :=
  rune_eqb (ascii_toLower a) (ascii_toLower b).

Definition isASCII (r : rune) : Prop := 0 <= r < 128.

(** Facts about Go's real tables.  The first six say that the tables restrict
    to the ASCII definitions above, and the seventh that an ASCII character
    other than a letter has no case variant at all; the others are properties
    of the Unicode character database: an upper-case letter is a letter and
    is its own upper case, the upper case of a letter or digit is a letter or
    digit, and folding is reflexive. *)
Class GoUnicode (U : UnicodeTables) : Prop := {
  IsLetter_ascii : forall r, isASCII r -> IsLetter U r = ascii_letter r;
  IsDigit_ascii : forall r, isASCII r -> IsDigit U r = ascii_digit r;
  IsUpper_ascii : forall r, isASCII r -> IsUpper U r = ascii_upper r;
  ToUpper_ascii : forall r, isASCII r -> ToUpper U r = ascii_toUpper r;
  ToLower_ascii : forall r, isASCII r -> ToLower U r = ascii_toLower r;
  FoldEq_ascii : forall a b, isASCII a -> isASCII b ->
                             FoldEq U a b = ascii_foldEq a b;
  FoldEq_caseless : forall a b, isASCII b -> ascii_letter b = false ->
                                FoldEq U a b = rune_eqb a b;
  IsUpper_IsLetter : forall r, IsUpper U r = true -> IsLetter U r = true;
  ToUpper_IsUpper : forall r, IsUpper U r = true -> ToUpper U r = r;
  ToUpper_isAlnum : forall r, isAlnum U r = true -> isAlnum U (ToUpper U r) = true;
  FoldEq_refl : forall r, FoldEq U r r = true
}.

(** *** An excerpt of the tables

    Exact on the ASCII block and on six further runes: U+017F (long s) and
    U+212A (Kelvin sign), which fold to ASCII letters, and the fold orbit of
    the Greek iota, U+0345 (combining ypogegrammeni, category Mn), U+0399,
    U+03B9 and U+1FBE.  Every other rune is left unclassified and caseless, so
    the excerpt is only evaluated on strings made of the runes above. *)
Module Excerpt.

Definition isLetter (r : rune) : bool :=
  ascii_letter r || rune_eqb r 0x17F || rune_eqb r 0x212A
  || rune_eqb r 0x399 || rune_eqb r 0x3B9 || rune_eqb r 0x1FBE.

Definition isDigit (r : rune) : bool := ascii_digit r.

Definition isUpper (r : rune) : bool :=
  ascii_upper r || rune_eqb r 0x212A || rune_eqb r 0x399.

Definition toUpper (r : rune) : rune :=
  if ascii_lower r then r - 32
  else if rune_eqb r 0x17F then 83
  else if rune_eqb r 0x345 || rune_eqb r 0x3B9 || rune_eqb r 0x1FBE then 0x399
  else r.

Definition toLower (r : rune) : rune :=
  if ascii_upper r then r + 32
  else if rune_eqb r 0x212A then 107
  else if rune_eqb r 0x399 then 0x3B9
  else r.

(** The least rune of the SimpleFold orbit. *)
Definition orbit (r : rune) : rune :=
  if ascii_lower r then r - 32
  else if rune_eqb r 0x212A then 75
  else if rune_eqb r 0x17F then 83
  else if rune_eqb r 0x399 || rune_eqb r 0x3B9 || rune_eqb r 0x1FBE then 0x345
  else r.

Definition foldEq (a b : rune) : bool := rune_eqb (orbit a) (orbit b).

End Excerpt.

Definition excerpt : UnicodeTables := {|
  IsLetter := Excerpt.isLetter;
  IsDigit := Excerpt.isDigit;
  IsUpper := Excerpt.isUpper;
  ToUpper := Excerpt.toUpper;
  ToLower := Excerpt.toLower;
  FoldEq := Excerpt.foldEq
|}.

(** ** [convertToExportedIdentifier] *)

(** [words[len(words)-1] += piece]; indexing an empty slice panics. *)
Definition appendToLastWord (words : list gostring) (piece : gostring)
  : option (list gostring) :=
  match rev words with
  | [] => None
  | w :: front => Some (rev front ++ [w ++ piece])
  end.

(** One iteration of the first loop, on the state
    [(words, nextCharShouldBeUpperCase)]. *)
Definition scanRune (U : UnicodeTables) (st : list gostring * bool) (r : rune)
  : option (list gostring * bool) :=
  let '(words, nextCharShouldBeUpperCase) := st in
  if IsLetter U r || IsDigit U r then
    if nextCharShouldBeUpperCase then
      match appendToLastWord (words ++ [[]]) [ToUpper U r] with
      | Some words' => Some (words', false)
      | None => None
      end
    else
      match appendToLastWord words [r] with
      | Some words' => Some (words', false)
      | None => None
      end
  else Some (words, true).

Fixpoint scanRunes (U : UnicodeTables) (s : gostring) (st : list gostring * bool)
  : option (list gostring * bool) :=
  match s with
  | [] => Some st
  | r :: s' =>
      match scanRune U st r with
      | Some st' => scanRunes U s' st'
      | None => None
      end
  end.

(** The inner loop over [forceCases], with its [break]. *)
Fixpoint forceCase (U : UnicodeTables) (word : gostring) (forceCases : list gostring)
  : gostring :=
  match forceCases with
  | [] => word
  | caseWord :: rest =>
      if strings_EqualFold U word caseWord then caseWord
      else forceCase U word rest
  end.

(** The second loop: [result += word] for each word. *)
Definition joinWords (U : UnicodeTables) (words forceCases : list gostring)
  : gostring :=
  fold_left (fun result word => result ++ forceCase U word forceCases) words [].

(** The last statements: the first rune of [result] (zero when there is none)
    and the ["E"] prefix. *)
Definition exportPrefix (U : UnicodeTables) (result : gostring) : gostring :=
  let firstRune := match result with r :: _ => r | [] => 0 end in
  if gostring_eqb result [] || negb (IsUpper U firstRune)
  then str "E" ++ result
  else result.

Definition convertToExportedIdentifier (U : UnicodeTables) (s : gostring)
    (forceCases : list gostring) : option gostring :=
  match scanRunes U s ([], true) with
  | Some (words, _) => Some (exportPrefix U (joinWords U words forceCases))
  | None => None
  end.

(** ** [getType] *)

Record fieldDescriptor : Type := {
  Name : gostring;
  Type_ : gostring;
  Size : Z;
  Unsigned : bool;
  AllowNull : bool;
  Comment : gostring
}.

(** An [error] value, by its message. *)
Definition error := gostring.

(** A [case] with several values: the tag equals one of them. *)
Definition oneOf (tag : gostring) (values : list string) : bool :=
  existsb (fun v => gostring_eqb tag (str v)) values.

(** The [switch] of [getType]: [Some (goType, fieldClass)] for the case
    taken, [None] for [default]. *)
Definition typeFamily (U : UnicodeTables) (fieldDescriptor : fieldDescriptor)
  : option (gostring * gostring) :=
  let tag := strings_ToLower U (Type_ fieldDescriptor) in
  if oneOf tag ["tinyint"] then Some (str "int8", str "NumberField")
  else if oneOf tag ["smallint"] then Some (str "int16", str "NumberField")
  else if oneOf tag ["int"; "mediumint"] then Some (str "int32", str "NumberField")
  else if oneOf tag ["bigint"; "integer"] then Some (str "int64", str "NumberField")
  else if oneOf tag ["float"; "double"; "decimal"; "real"]
       then Some (str "float64", str "NumberField")
  else if oneOf tag ["char"; "varchar"; "text"; "tinytext"; "mediumtext";
                     "longtext"; "enum"; "datetime"; "date"; "time";
                     "timestamp"; "json"; "numeric"; "character varying"]
       then Some (str "string", str "StringField")
  else if oneOf tag ["binary"; "varbinary"; "blob"; "tinyblob"; "mediumblob";
                     "longblob"]
       then Some (str "string", str "StringField")
  else if oneOf tag ["geometry"; "point"; "linestring"; "polygon"; "multipoint";
                     "multilinestring"; "multipolygon"; "geometrycollection"]
       then Some (str "sqlingo.WellKnownBinary", str "WellKnownBinaryField")
  else if oneOf tag ["bit"] then
    if Size fieldDescriptor =? 1
    then Some (str "bool", str "BooleanField")
    else Some (str "string", str "StringField")
  else None.

(** The two [if]s after the [switch]. *)
Definition applyUnsigned (fieldDescriptor : fieldDescriptor) (goType : gostring)
  : gostring :=
  if Unsigned fieldDescriptor && strings_HasPrefix goType (str "int")
  then str "u" ++ goType else goType.

Definition applyAllowNull (fieldDescriptor : fieldDescriptor) (goType : gostring)
  : gostring :=
  if AllowNull fieldDescriptor then str "*" ++ goType else goType.

(** The named results [(goType, fieldClass, err)]; [default] returns with the
    first two still empty. *)
Definition getType (U : UnicodeTables) (fieldDescriptor : fieldDescriptor)
  : gostring * gostring * option error :=
  match typeFamily U fieldDescriptor with
  | None =>
      ([], [], Some (str "unknown field type " ++ Type_ fieldDescriptor))
  | Some (goType, fieldClass) =>
      (applyAllowNull fieldDescriptor (applyUnsigned fieldDescriptor goType),
       fieldClass, None)
  end.

(** ** Effects

    What a run does to the outside is a trace of events; how a call ends is
    an [outcome]: a result, a returned [error], [os.Exit] or a panic. *)

Inductive event : Type :=
| GetDatabaseNameCalled
| GetTableNamesCalled
| GetFieldDescriptorsCalled (tableName : gostring)
| StderrWritten (text : gostring)
| StdoutWritten (text : gostring)
| FileWritten (path content : gostring).

Inductive outcome (A : Type) : Type :=
| Ret (a : A)
| Fail (err : error)
| Exit (code : Z)
| Panic.

Arguments Ret {A} a.
Arguments Fail {A} err.
Arguments Exit {A} code.
Arguments Panic {A}.

Definition bindO {A B : Type} (o : outcome A) (k : A -> outcome B) : outcome B :=
  match o with
  | Ret a => k a
  | Fail err => Fail err
  | Exit code => Exit code
  | Panic => Panic
  end.

Definition liftOption {A : Type} (o : option A) : outcome A :=
  match o with
  | Some a => Ret a
  | None => Panic
  end.

Definition M (A : Type) : Type := list event * outcome A.

Definition ret {A : Type} (a : A) : M A := ([], Ret a).

Definition bind {A B : Type} (m : M A) (k : A -> M B) : M B :=
  match m with
  | (tr, Ret a) => let '(tr', o) := k a in (tr ++ tr', o)
  | (tr, Fail err) => (tr, Fail err)
  | (tr, Exit code) => (tr, Exit code)
  | (tr, Panic) => (tr, Panic)
  end.

Definition emit (e : event) : M unit := ([e], Ret tt).
Definition pure {A : Type} (o : outcome A) : M A := ([], o).

Declare Scope go_scope.
Delimit Scope go_scope with go.
Notation "x <- m ;; k" := (bind m (fun x => k))
  (at level 61, m at next level, right associativity) : go_scope.
Notation "m ;; k" := (bind m (fun _ => k))
  (at level 61, right associativity) : go_scope.
Notation "x <-! o ;; k" := (bindO o (fun x => k))
  (at level 61, o at next level, right associativity) : go_scope.
Open Scope go_scope.

(** ** Collaborators outside the package *)

(** The interface [schemaFetcher]; a method that returns [(value, err)] is a
    sum. *)
Record schemaFetcher : Type := {
  GetDatabaseName : gostring + error;
  GetTableNames : list gostring + error;
  GetFieldDescriptors : gostring -> list fieldDescriptor + error;
  QuoteIdentifier : gostring -> gostring
}.

Inductive statResult : Type :=
| StatOk
| StatNotExist
| StatError (err : error).

(** The standard library and the operating system, as far as the package
    uses them. *)
Record platform : Type := {
  strconv_Quote : gostring -> gostring;
  os_Args0 : gostring;
  os_Stat : gostring -> statResult;
  os_OpenFile : gostring -> option error;     (* [Some err]: the open failed *)
  fmt_Scanln : gostring                       (* the word read from stdin *)
}.

(** [database/sql] and the three fetcher constructors, which live in files of
    the package that hold the engine-specific catalog queries. *)
Record drivers (DB : Type) : Type := {
  sql_Open : gostring -> gostring -> DB + error;
  newMySQLSchemaFetcher : DB -> schemaFetcher;
  newSQLite3SchemaFetcher : DB -> schemaFetcher;
  newPostgresSchemaFetcher : DB -> schemaFetcher
}.

Arguments sql_Open {DB} d _ _.
Arguments newMySQLSchemaFetcher {DB} d _.
Arguments newSQLite3SchemaFetcher {DB} d _.
Arguments newPostgresSchemaFetcher {DB} d _.

(** The command-line flags, after [flag.Parse]. *)
Record flags : Type := {
  outputPath : gostring;
  databaseConnection : gostring;
  tables : gostring;
  forcecases : gostring
}.

Record options : Type := {
  dataSourceName : gostring;
  tableNames : list gostring;
  forceCases : list gostring
}.

Definition nl : gostring := [10].
Definition tab : gostring := [9].
Definition dquote : gostring := [34].

Definition isEmpty (s : gostring) : bool := gostring_eqb s [].

(** strings.Split(s, ",") *)
Fixpoint splitComma (s : gostring) : list gostring :=
  match s with
  | [] => [[]]
  | r :: s' =>
      if rune_eqb r (ch ",") then [] :: splitComma s'
      else match splitComma s' with
           | w :: ws => (r :: w) :: ws
           | [] => [[r]]
           end
  end.

(** strconv.Itoa *)
Definition strconv_Itoa (n : Z) : gostring :=
  str (DecimalString.NilZero.string_of_int (Z.to_int n)).

Definition sqlingoGeneratorVersion : Z := 2.

(** ** The emitter *)

(** [nonIdentifierRegexp] is [\W]: a rune outside [0-9A-Za-z_]. *)
Definition isWordRune (r : rune) : bool :=
  ascii_digit r || ascii_letter r || rune_eqb r (ch "_").

Definition ensureIdentifier (name : gostring) : gostring :=
  let result := map (fun r => if isWordRune r then r else ch "_") name in
  let startsWithDigit :=
    match result with
    | r :: _ => (ch "0" <=? r) && (r <=? ch "9")
    | [] => false
    end in
  if isEmpty result || startsWithDigit then str "_" ++ result else result.

Definition newBuffWithBaseHeader (packageName : gostring) : gostring :=
  List.concat [
    str "// This file is generated by sqlingo (https://github.com/lqs/sqlingo)" ++ nl;
    str "// DO NOT EDIT." ++ nl ++ nl;
    str "package " ++ ensureIdentifier packageName ++ str "_dsl" ++ nl;
    str "import " ++ dquote ++ str "github.com/lqs/sqlingo" ++ dquote ++ nl ++ nl
  ].

Definition printUsageAndExit {A : Type} (P : platform)
    (exampleDataSourceName : gostring) : M A :=
  let cmd := os_Args0 P in
  emit (StderrWritten (List.concat [
    str "Usage:" ++ nl;
    tab ++ cmd ++ str " -o outpath -d datasource [-t table1,table2,...] [-forcecases ID,IDs,HTML] dataSourceName" ++ nl;
    str "Example:" ++ nl;
    tab ++ cmd ++ str " " ++ dquote ++ (str "-o ./ -d " ++ exampleDataSourceName)
        ++ dquote ++ nl
  ]));;
  pure (Exit 1).

Definition getSchemaFetcherFactory {DB : Type} (D : drivers DB)
    (driverName : gostring) : M (DB -> schemaFetcher) :=
  if gostring_eqb driverName (str "mysql") then ret (newMySQLSchemaFetcher D)
  else if gostring_eqb driverName (str "sqlite3") then ret (newSQLite3SchemaFetcher D)
  else if gostring_eqb driverName (str "postgres") then ret (newPostgresSchemaFetcher D)
  else
    emit (StderrWritten (str "unsupported driver " ++ driverName ++ nl));;
    pure (Exit 2).

Definition PathExists (P : platform) (path : gostring) : bool * option error :=
  match os_Stat P path with
  | StatOk => (true, None)
  | StatNotExist => (false, None)
  | StatError err => (false, Some err)
  end.

Definition WriteToFile (P : platform) (buffer outputFile : gostring)
    (force : bool) : M unit :=
  let openAndWrite : M unit :=
    match os_OpenFile P outputFile with
    | Some err => pure (Fail err)
    | None => emit (FileWritten outputFile buffer)
    end in
  let '(exists_, _) := PathExists P outputFile in
  if exists_ && negb force then
    emit (StdoutWritten (str "file(" ++ outputFile ++ str ") already exists"
                         ++ [0xFF0C] ++ str "is overwritten(Y/N)? "));;
    let override := fmt_Scanln P in
    if negb (gostring_eqb override (str "Y")) && negb (gostring_eqb override (str "y"))
    then emit (StdoutWritten (str "skip" ++ outputFile ++ nl))
    else openAndWrite
  else openAndWrite.

(** The two loops of [generateGetTable], one line per table name. *)
Fixpoint getTableCases (U : UnicodeTables) (P : platform)
    (tableNames forceCases : list gostring) : outcome gostring :=
  match tableNames with
  | [] => Ret []
  | tableName :: rest =>
      id <-! liftOption (convertToExportedIdentifier U tableName forceCases);;
      more <-! getTableCases U P rest forceCases;;
      Ret (tab ++ str "case " ++ strconv_Quote P tableName ++ str ": return "
           ++ id ++ nl ++ more)
  end.

Fixpoint getTablesItems (U : UnicodeTables)
    (tableNames forceCases : list gostring) : outcome gostring :=
  match tableNames with
  | [] => Ret []
  | tableName :: rest =>
      id <-! liftOption (convertToExportedIdentifier U tableName forceCases);;
      more <-! getTablesItems U rest forceCases;;
      Ret (tab ++ id ++ str "," ++ nl ++ more)
  end.

(** [generateGetTable]: what it appends to [buf]. *)
Definition generateGetTable (U : UnicodeTables) (P : platform) (opts : options)
  : outcome gostring :=
  cases <-! getTableCases U P (tableNames opts) (forceCases opts);;
  items <-! getTablesItems U (tableNames opts) (forceCases opts);;
  Ret (List.concat [
    str "func GetTable(name string) sqlingo.Table {" ++ nl;
    tab ++ str "switch name {" ++ nl;
    cases;
    tab ++ str "default: return nil" ++ nl;
    tab ++ str "}" ++ nl;
    str "}" ++ nl ++ nl;
    str "func GetTables() []sqlingo.Table {" ++ nl;
    tab ++ str "return []sqlingo.Table{" ++ nl;
    items;
    tab ++ str "}";
    str "}" ++ nl ++ nl
  ]).

(** The version guard written by [Generate]. *)
Definition versionGuard : gostring :=
  let sqlingoGeneratorVersionString := strconv_Itoa sqlingoGeneratorVersion in
  List.concat [
    str "const _ = sqlingoRuntimeAndGeneratorVersionsShouldBeTheSame(sqlingo.SqlingoRuntimeVersion - "
      ++ sqlingoGeneratorVersionString ++ str ")" ++ nl;
    str "const _ = sqlingoRuntimeAndGeneratorVersionsShouldBeTheSame("
      ++ sqlingoGeneratorVersionString ++ str " - sqlingo.SqlingoRuntimeVersion)"
      ++ nl ++ nl
  ].

(** The part of the base unit that [Generate] writes before the tables are
    known. *)
Definition baseDeclarations (dbName : gostring) : gostring :=
  List.concat [
    newBuffWithBaseHeader dbName;
    str "type sqlingoRuntimeAndGeneratorVersionsShouldBeTheSame uint32" ++ nl ++ nl;
    versionGuard;
    str "type table interface {" ++ nl;
    tab ++ str "sqlingo.Table" ++ nl;
    str "}" ++ nl ++ nl;
    str "type numberField interface {" ++ nl;
    tab ++ str "sqlingo.NumberField" ++ nl;
    str "}" ++ nl ++ nl;
    str "type stringField interface {" ++ nl;
    tab ++ str "sqlingo.StringField" ++ nl;
    str "}" ++ nl ++ nl;
    str "type booleanField interface {" ++ nl;
    tab ++ str "sqlingo.BooleanField" ++ nl;
    str "}" ++ nl ++ nl
  ].

(** The nine buffers filled by the loop of [generateTable]. *)
Record tableBuffers : Type := {
  tableLines : gostring;
  modelLines : gostring;
  objectLines : gostring;
  fieldCaseLines : gostring;
  classLines : gostring;
  fields : gostring;
  fieldsSQL : gostring;
  fullFieldsSQL : gostring;
  values : gostring
}.

(** [string(fieldClass[0]+'a'-'A') + fieldClass[1:]]: byte arithmetic on the
    first byte, a panic on the empty string. *)
Definition privateName (fieldClass : gostring) : option gostring :=
  match fieldClass with
  | [] => None
  | c :: rest => Some (((c + ch "a" - ch "A") mod 256) :: rest)
  end.

(** strings.ReplaceAll(s, "\n", " ") *)
Definition replaceNewlines (s : gostring) : gostring :=
  map (fun r => if rune_eqb r 10 then ch " " else r) s.

Definition commentLineOf (fieldDescriptor : fieldDescriptor) : gostring :=
  if negb (isEmpty (Comment fieldDescriptor))
  then tab ++ str "// " ++ replaceNewlines (Comment fieldDescriptor) ++ nl
  else [].

(** [buf.WriteString(", ")] when [buf.Len() != 0], then the item. *)
Definition writeSeparated (buf item : gostring) : gostring :=
  (if negb (isEmpty buf) then buf ++ str ", " else buf) ++ item.

(** [fieldStructName], the name of a column's private wrapper type. *)
Definition fieldStructNameOf (U : UnicodeTables) (fieldDescriptor : fieldDescriptor)
    (className goName : gostring) : gostring :=
  strings_ToLower U (Type_ fieldDescriptor) ++ str "_" ++ className ++ str "_"
  ++ goName.

(** The body of the loop over [fieldDescriptors]. *)
Definition emitField (U : UnicodeTables) (P : platform)
    (schemaFetcher : schemaFetcher) (tableName className tableObjectName : gostring)
    (forceCases : list gostring) (b : tableBuffers)
    (fieldDescriptor : fieldDescriptor) : outcome tableBuffers :=
  goName <-! liftOption
    (convertToExportedIdentifier U (Name fieldDescriptor) forceCases);;
  let '(goType, fieldClass, err) := getType U fieldDescriptor in
  match err with
  | Some err => Fail err
  | None =>
      privateFieldClass <-! liftOption (privateName fieldClass);;
      let commentLine := commentLineOf fieldDescriptor in
      let fieldStructName := fieldStructNameOf U fieldDescriptor className goName in
      Ret {|
        tableLines := tableLines b ++ commentLine
          ++ (tab ++ goName ++ str " " ++ fieldStructName ++ nl);
        modelLines := modelLines b ++ commentLine
          ++ (tab ++ goName ++ str " " ++ goType ++ nl);
        objectLines := objectLines b ++ commentLine
          ++ (tab ++ goName ++ str ": " ++ fieldStructName ++ str "{")
          ++ (str "sqlingo.New" ++ fieldClass ++ str "(" ++ tableObjectName
              ++ str ", " ++ strconv_Quote P (Name fieldDescriptor) ++ str ")},"
              ++ nl);
        fieldCaseLines := fieldCaseLines b
          ++ (tab ++ str "case " ++ strconv_Quote P (Name fieldDescriptor)
              ++ str ": return t." ++ goName ++ nl);
        classLines := classLines b
          ++ (str "type " ++ fieldStructName ++ str " struct{ "
              ++ privateFieldClass ++ str " }" ++ nl);
        fields := fields b ++ (str "t." ++ goName ++ str ", ");
        fieldsSQL := writeSeparated (fieldsSQL b)
          (QuoteIdentifier schemaFetcher (Name fieldDescriptor));
        fullFieldsSQL := writeSeparated (fullFieldsSQL b)
          (QuoteIdentifier schemaFetcher tableName ++ str "."
           ++ QuoteIdentifier schemaFetcher (Name fieldDescriptor));
        values := values b ++ (str "m." ++ goName ++ str ", ")
      |}
  end.

Fixpoint emitFields (U : UnicodeTables) (P : platform)
    (schemaFetcher : schemaFetcher) (tableName className tableObjectName : gostring)
    (forceCases : list gostring) (fieldDescriptors : list fieldDescriptor)
    (b : tableBuffers) : outcome tableBuffers :=
  match fieldDescriptors with
  | [] => Ret b
  | fieldDescriptor :: rest =>
      b' <-! emitField U P schemaFetcher tableName className tableObjectName
               forceCases b fieldDescriptor;;
      emitFields U P schemaFetcher tableName className tableObjectName
        forceCases rest b'
  end.

(** The pieces written to [buf] after the loop, one per [WriteString]. *)
Definition tableUnitPieces (P : platform) (dbName tableName className : gostring)
    (b : tableBuffers) : list gostring :=
  let tableStructName := str "t" ++ className in
  let tableObjectName := str "o" ++ className in
  let modelClassName := className ++ str "Model" in
  [
    newBuffWithBaseHeader dbName;
    [];
    str "type " ++ tableStructName ++ str " struct {" ++ nl ++ tab ++ str "table"
      ++ nl ++ nl;
    tableLines b;
    str "}" ++ nl ++ nl;
    classLines b;
    str "var " ++ tableObjectName ++ str " = sqlingo.NewTable("
      ++ strconv_Quote P tableName ++ str ")" ++ nl;
    str "var " ++ className ++ str " = " ++ tableStructName ++ str "{" ++ nl;
    objectLines b;
    str "}" ++ nl ++ nl;
    str "func (t t" ++ className ++ str ") GetFields() []sqlingo.Field {" ++ nl;
    tab ++ str "return []sqlingo.Field{" ++ fields b ++ str "}" ++ nl;
    str "}" ++ nl ++ nl;
    str "func (t t" ++ className
      ++ str ") GetFieldByName(name string) sqlingo.Field {" ++ nl;
    tab ++ str "switch name {" ++ nl;
    fieldCaseLines b;
    tab ++ str "default: return nil" ++ nl;
    tab ++ str "}" ++ nl;
    str "}" ++ nl ++ nl;
    str "func (t t" ++ className ++ str ") GetFieldsSQL() string {" ++ nl;
    tab ++ str "return " ++ strconv_Quote P (fieldsSQL b) ++ nl;
    str "}" ++ nl ++ nl;
    str "func (t t" ++ className ++ str ") GetFullFieldsSQL() string {" ++ nl;
    tab ++ str "return " ++ strconv_Quote P (fullFieldsSQL b) ++ nl;
    str "}" ++ nl ++ nl;
    str "type " ++ modelClassName ++ str " struct {" ++ nl;
    modelLines b;
    str "}" ++ nl ++ nl;
    str "func (m " ++ modelClassName ++ str ") GetTable() sqlingo.Table {" ++ nl;
    tab ++ str "return " ++ className ++ nl;
    str "}" ++ nl ++ nl;
    str "func (m " ++ modelClassName ++ str ") GetValues() []interface{} {" ++ nl;
    tab ++ str "return []interface{}{" ++ values b ++ str "}" ++ nl;
    str "}" ++ nl ++ nl
  ].

(** The text of a table unit, from the filled buffers. *)
Definition tableUnit (P : platform) (dbName tableName className : gostring)
    (b : tableBuffers) : gostring :=
  List.concat (tableUnitPieces P dbName tableName className b).

Definition initialBuffers (tableObjectName : gostring) : tableBuffers := {|
  tableLines := [];
  modelLines := [];
  objectLines := tab ++ str "table: " ++ tableObjectName ++ str "," ++ nl ++ nl;
  fieldCaseLines := [];
  classLines := [];
  fields := [];
  fieldsSQL := [];
  fullFieldsSQL := [];
  values := []
|}.

Definition tableUnitPath (outputPath tableName : gostring) : gostring :=
  outputPath ++ str "/" ++ tableName ++ str ".go".

Definition generateTable (U : UnicodeTables) (P : platform) (F : flags)
    (schemaFetcher : schemaFetcher) (dbName tableName : gostring)
    (forceCases : list gostring) : M unit :=
  emit (GetFieldDescriptorsCalled tableName);;
  match GetFieldDescriptors schemaFetcher tableName with
  | inr err => pure (Fail err)
  | inl fieldDescriptors =>
      className <- pure (liftOption
        (convertToExportedIdentifier U tableName forceCases));;
      let tableObjectName := str "o" ++ className in
      b <- pure (emitFields U P schemaFetcher tableName className tableObjectName
                   forceCases fieldDescriptors (initialBuffers tableObjectName));;
      WriteToFile P (tableUnit P dbName tableName className b)
        (tableUnitPath (outputPath F) tableName) true
  end.

(** The loop of [Generate] over [options.tableNames]. *)
Fixpoint generateTables (U : UnicodeTables) (P : platform) (F : flags)
    (schemaFetcher : schemaFetcher) (dbName : gostring)
    (tableNames forceCases : list gostring) : M unit :=
  match tableNames with
  | [] => ret tt
  | tableName :: rest =>
      emit (StderrWritten (str "Generating " ++ tableName ++ nl));;
      generateTable U P F schemaFetcher dbName tableName forceCases;;
      generateTables U P F schemaFetcher dbName rest forceCases
  end.

Definition baseUnitPath (outputPath : gostring) : gostring :=
  outputPath ++ str "/base.dsl.go".

(** [Generate] from the point where the database name is known: the table
    names, the base unit, then one unit per table. *)
Definition generateUnits (U : UnicodeTables) (P : platform) (F : flags)
    (schemaFetcher : schemaFetcher) (dbName : gostring)
    (explicitTables forceCases : list gostring) : M unit :=
  tableNames <-
    (match explicitTables with
     | [] =>
         emit GetTableNamesCalled;;
         match GetTableNames schemaFetcher with
         | inr err => pure (Fail err)
         | inl names => ret names
         end
     | _ :: _ => ret explicitTables
     end);;
  let opts := {| dataSourceName := databaseConnection F;
                 tableNames := tableNames;
                 forceCases := forceCases |} in
  getTable <- pure (generateGetTable U P opts);;
  WriteToFile P (baseDeclarations dbName ++ getTable)
    (baseUnitPath (outputPath F)) true;;
  generateTables U P F schemaFetcher dbName tableNames forceCases.

(** [options.tableNames] and [options.forceCases] as the flags give them. *)
Definition explicitTablesOf (F : flags) : list gostring :=
  if negb (isEmpty (tables F)) then splitComma (tables F) else [].

Definition forceCasesOf (F : flags) : list gostring :=
  if negb (isEmpty (forcecases F)) then splitComma (forcecases F) else [].

(** [Generate] from its second line on: [F] holds the flags that
    [flag.Parse()], its first line, has parsed.  [GenerateCommand] below is
    the function from its first line. *)
Definition Generate {DB : Type} (U : UnicodeTables) (P : platform)
    (D : drivers DB) (F : flags) (driverName exampleDataSourceName : gostring)
  : M unit :=
  (if isEmpty (outputPath F) then printUsageAndExit P exampleDataSourceName
   else ret tt);;
  (if isEmpty (databaseConnection F) then printUsageAndExit P exampleDataSourceName
   else ret tt);;
  match sql_Open D driverName (databaseConnection F) with
  | inr err => pure (Fail err)
  | inl db =>
      schemaFetcherFactory <- getSchemaFetcherFactory D driverName;;
      let schemaFetcher := schemaFetcherFactory db in
      emit GetDatabaseNameCalled;;
      match GetDatabaseName schemaFetcher with
      | inr err => pure (Fail err)
      | inl dbName =>
          if isEmpty dbName then pure (Fail (str "no database selected"))
          else generateUnits U P F schemaFetcher dbName (explicitTablesOf F)
                 (forceCasesOf F)
      end
  end.

(** ** Reading a trace *)

Definition fetchedTables (tr : list event) : list gostring :=
  flat_map (fun e => match e with
                     | GetFieldDescriptorsCalled t => [t]
                     | _ => []
                     end) tr.

Definition writtenFiles (tr : list event) : list (gostring * gostring) :=
  flat_map (fun e => match e with
                     | FileWritten path content => [(path, content)]
                     | _ => []
                     end) tr.

Definition writtenPaths (tr : list event) : list gostring :=
  map fst (writtenFiles tr).

Definition tableNamesQueries (tr : list event) : list unit :=
  flat_map (fun e => match e with
                     | GetTableNamesCalled => [tt]
                     | _ => []
                     end) tr.

(** A trace without a written file and without a question about tables. *)
Definition quietTrace (tr : list event) : Prop :=
  writtenFiles tr = [] /\ fetchedTables tr = [] /\ tableNamesQueries tr = [].

(** The fetcher [Generate] works with, for a supported driver name. *)
Definition fetcherOf {DB : Type} (D : drivers DB) (driverName : gostring)
    (db : DB) : option schemaFetcher :=
  if gostring_eqb driverName (str "mysql") then Some (newMySQLSchemaFetcher D db)
  else if gostring_eqb driverName (str "sqlite3")
       then Some (newSQLite3SchemaFetcher D db)
  else if gostring_eqb driverName (str "postgres")
       then Some (newPostgresSchemaFetcher D db)
  else None.

(** ** The normalizer in the specification's words

    Split the input into the maximal runs of letters and digits, upper-case
    the first character of each run, replace a run that case-insensitively
    equals an entry of [forceCases] by that entry, concatenate, and prefix the
    sentinel letter when the result is empty or does not start with an
    upper-case letter. *)

Fixpoint alnumRuns (U : UnicodeTables) (s : gostring) : list gostring :=
  match s with
  | [] => []
  | r :: rest =>
      if isAlnum U r then
        match rest with
        | [] => [[r]]
        | r' :: _ =>
            if isAlnum U r' then
              match alnumRuns U rest with
              | w :: ws => (r :: w) :: ws
              | [] => [[r]]
              end
            else [r] :: alnumRuns U rest
        end
      else alnumRuns U rest
  end.

Definition upperFirst (U : UnicodeTables) (w : gostring) : gostring :=
  match w with
  | [] => []
  | c :: rest => ToUpper U c :: rest
  end.

Definition replaceForced (U : UnicodeTables) (forceCases : list gostring)
    (w : gostring) : gostring :=
  match find (fun caseWord => strings_EqualFold U w caseWord) forceCases with
  | Some caseWord => caseWord
  | None => w
  end.

Definition sentinel : rune := ch "E".

Definition withSentinel (U : UnicodeTables) (result : gostring) : gostring :=
  match result with
  | [] => [sentinel]
  | r :: _ => if IsUpper U r then result else sentinel :: result
  end.

Definition capitalizedWords (U : UnicodeTables) (s : gostring)
    (forceCases : list gostring) : list gostring :=
  map (fun w => replaceForced U forceCases (upperFirst U w)) (alnumRuns U s).

Definition normalize (U : UnicodeTables) (s : gostring)
    (forceCases : list gostring) : gostring :=
  withSentinel U (List.concat (capitalizedWords U s forceCases)).

(** A declarative reading of "maximal runs": the input is separators, then a
    non-empty run of letters and digits that is followed by a separator or by
    the end of the input, and so on. *)
Inductive splitsInto (U : UnicodeTables) : gostring -> list gostring -> Prop :=
| splits_end : forall seps,
    Forall (fun r => isAlnum U r = false) seps ->
    splitsInto U seps []
| splits_run : forall seps w rest ws,
    Forall (fun r => isAlnum U r = false) seps ->
    w <> [] ->
    Forall (fun r => isAlnum U r = true) w ->
    match rest with [] => True | r :: _ => isAlnum U r = false end ->
    splitsInto U rest ws ->
    splitsInto U (seps ++ w ++ rest) (w :: ws).

(** What the scan has built when it resumes inside the word [w]. *)
Definition extendWord (U : UnicodeTables) (w s : gostring) : list gostring :=
  match s with
  | [] => [w]
  | r :: rest =>
      if isAlnum U r then
        match alnumRuns U s with
        | r0 :: rs => (w ++ r0) :: map (upperFirst U) rs
        | [] => [w]
        end
      else w :: map (upperFirst U) (alnumRuns U rest)
  end.

(** ** Go identifiers

    What the Go language specification asks of the names in the generated
    text: an identifier is a letter followed by letters and digits, the
    underscore counting as a letter; it is exported when its first character
    is an upper-case letter. *)

Definition isIdentifierRune (U : UnicodeTables) (r : rune) : bool :=
  IsLetter U r || IsDigit U r || rune_eqb r (ch "_").

Definition isIdentifier (U : UnicodeTables) (s : gostring) : bool :=
  match s with
  | [] => false
  | r :: rest =>
      (IsLetter U r || rune_eqb r (ch "_")) && forallb (isIdentifierRune U) rest
  end.

Definition isExported (U : UnicodeTables) (s : gostring) : bool :=
  match s with
  | [] => false
  | r :: _ => IsUpper U r
  end.

(** No character of a [forceCases] entry that is neither a letter nor a digit
    folds to a letter or a digit.  In Unicode the one character excluded is
    U+0345, which folds to the Greek iota. *)
Definition forceCasesSafe (U : UnicodeTables) (forceCases : list gostring) : Prop :=
  forall caseWord r a,
    In caseWord forceCases -> In r caseWord ->
    isAlnum U r = false -> isAlnum U a = true -> FoldEq U a r = false.

(** ** The type families of the specification

    The raw type names behind the families of the specification's table
    (integers by width, floats, text, binary, spatial, bit), spelled out. *)

Definition recognizedTypes : list string :=
  ["tinyint"; "smallint"; "int"; "mediumint"; "bigint"; "integer";
   "float"; "double"; "decimal"; "real";
   "char"; "varchar"; "character varying"; "text"; "tinytext"; "mediumtext";
   "longtext"; "enum"; "datetime"; "date"; "time"; "timestamp"; "json";
   "numeric";
   "binary"; "varbinary"; "blob"; "tinyblob"; "mediumblob"; "longblob";
   "geometry"; "point"; "linestring"; "polygon"; "multipoint";
   "multilinestring"; "multipolygon"; "geometrycollection";
   "bit"].

Definition recognized (U : UnicodeTables) (fieldDescriptor : fieldDescriptor)
  : Prop :=
  In (strings_ToLower U (Type_ fieldDescriptor)) (map str recognizedTypes).

Definition fieldClasses : list string :=
  ["NumberField"; "StringField"; "BooleanField"; "WellKnownBinaryField"].

Definition integerTypes : list string := ["int8"; "int16"; "int32"; "int64"].

Definition otherTypes : list string :=
  ["float64"; "string"; "bool"; "sqlingo.WellKnownBinary"].

Definition isIntegerType (goType : gostring) : bool :=
  existsb (fun t => gostring_eqb goType (str t)) integerTypes.

Definition withFlags (fd : fieldDescriptor) (unsigned allowNull : bool)
  : fieldDescriptor := {|
  Name := Name fd;
  Type_ := Type_ fd;
  Size := Size fd;
  Unsigned := unsigned;
  AllowNull := allowNull;
  Comment := Comment fd
|}.

(** The wrapper-type name that [generateTable] derives for a column of a
    table: [className] from the table name, [goName] from the column name. *)
Definition wrapperTypeName (U : UnicodeTables) (forceCases : list gostring)
    (tableName : gostring) (fieldDescriptor : fieldDescriptor) : option gostring :=
  match convertToExportedIdentifier U tableName forceCases,
        convertToExportedIdentifier U (Name fieldDescriptor) forceCases with
  | Some className, Some goName =>
      Some (fieldStructNameOf U fieldDescriptor className goName)
  | _, _ => None
  end.

(** ** The model record and the value sequence, column by column *)

Definition modelFieldLine (U : UnicodeTables) (forceCases : list gostring)
    (fd : fieldDescriptor) : gostring :=
  commentLineOf fd
  ++ (tab ++ normalize U (Name fd) forceCases ++ str " "
      ++ fst (fst (getType U fd)) ++ nl).

Definition valueItem (U : UnicodeTables) (forceCases : list gostring)
    (fd : fieldDescriptor) : gostring :=
  str "m." ++ normalize U (Name fd) forceCases ++ str ", ".

(** ** The version guard in the consumer's build

    By the Go language specification the conversion [T(c)] of a constant [c]
    compiles only if [c] is representable in [T], here [uint32]. *)
Definition fitsUint32 (c : Z) : bool := (0 <=? c) && (c <? 2 ^ 32).

Definition guardCompiles (sqlingoRuntimeVersion : Z) : bool :=
  fitsUint32 (sqlingoRuntimeVersion - sqlingoGeneratorVersion)
  && fitsUint32 (sqlingoGeneratorVersion - sqlingoRuntimeVersion).

(** ** A run to evaluate

    A schema with the tables "orders" and "users", behind stand-ins for the
    collaborators: quoting that is exact on printable ASCII, an output
    directory in which every file can be created, a MySQL-style fetcher. *)
Module Example.

Definition quote (s : gostring) : gostring :=
  dquote
  ++ flat_map (fun r => if rune_eqb r 34 || rune_eqb r 92 then [92; r] else [r]) s
  ++ dquote.

Definition machine : platform := {|
  strconv_Quote := quote;
  os_Args0 := str "sqlingo-gen-mysql";
  os_Stat := fun _ => StatNotExist;
  os_OpenFile := fun _ => None;
  fmt_Scanln := []
|}.

Definition column (name type : string) (allowNull : bool) : fieldDescriptor := {|
  Name := str name;
  Type_ := str type;
  Size := 0;
  Unsigned := false;
  AllowNull := allowNull;
  Comment := []
|}.

Definition orders : list fieldDescriptor :=
  [column "id" "bigint" false; column "total" "decimal" false;
   column "note" "varchar" true].

Definition users : list fieldDescriptor :=
  [column "id" "bigint" false; column "name" "varchar" false].

Definition shop : schemaFetcher := {|
  GetDatabaseName := inl (str "shop");
  GetTableNames := inl [str "orders"; str "users"];
  GetFieldDescriptors := fun tableName =>
    if gostring_eqb tableName (str "orders") then inl orders
    else if gostring_eqb tableName (str "users") then inl users
    else inr (str "no such table");
  QuoteIdentifier := fun identifier => str "`" ++ identifier ++ str "`"
|}.

Definition registered : drivers unit := {|
  sql_Open := fun _ _ => inl tt;
  newMySQLSchemaFetcher := fun _ => shop;
  newSQLite3SchemaFetcher := fun _ => shop;
  newPostgresSchemaFetcher := fun _ => shop
|}.

Definition commandLine (tables : string) : flags := {|
  outputPath := str "out";
  databaseConnection := str "user:pw@/shop";
  tables := str tables;
  forcecases := []
|}.

Definition run (tables : string) : M unit :=
  Generate excerpt machine registered (commandLine tables) (str "mysql")
    (str "username:password@tcp(hostname:3306)/database").

End Example.

(** ** The rest of the package *)

(** A name that is already an identifier over [0-9A-Za-z_]. *)
Definition startsWithDigit (s : gostring) : bool :=
  match s with
  | r :: _ => ascii_digit r
  | [] => false
  end.

Definition isWordName (s : gostring) : bool :=
  negb (isEmpty s) && forallb isWordRune s && negb (startsWithDigit s).

(** strings.Join, to say what the comma-separated buffers hold. *)
Fixpoint strings_Join (elems : list gostring) (sep : gostring) : gostring :=
  match elems with
  | [] => []
  | [e] => e
  | e :: rest => e ++ sep ++ strings_Join rest sep
  end.

(** The columns of a table unit's other buffers. *)
Definition tableLine (U : UnicodeTables) (forceCases : list gostring)
    (className : gostring) (fd : fieldDescriptor) : gostring :=
  commentLineOf fd
  ++ (tab ++ normalize U (Name fd) forceCases ++ str " "
      ++ fieldStructNameOf U fd className (normalize U (Name fd) forceCases)
      ++ nl).

Definition objectLine (U : UnicodeTables) (P : platform)
    (forceCases : list gostring) (className : gostring) (fd : fieldDescriptor)
  : gostring :=
  commentLineOf fd
  ++ (tab ++ normalize U (Name fd) forceCases ++ str ": "
      ++ fieldStructNameOf U fd className (normalize U (Name fd) forceCases)
      ++ str "{")
  ++ (str "sqlingo.New" ++ snd (fst (getType U fd)) ++ str "("
      ++ (str "o" ++ className) ++ str ", " ++ strconv_Quote P (Name fd)
      ++ str ")}," ++ nl).

Definition fieldCaseLine (U : UnicodeTables) (P : platform)
    (forceCases : list gostring) (fd : fieldDescriptor) : gostring :=
  tab ++ str "case " ++ strconv_Quote P (Name fd) ++ str ": return t."
  ++ normalize U (Name fd) forceCases ++ nl.

Definition fieldItem (U : UnicodeTables) (forceCases : list gostring)
    (fd : fieldDescriptor) : gostring :=
  str "t." ++ normalize U (Name fd) forceCases ++ str ", ".

Definition classLine (U : UnicodeTables) (forceCases : list gostring)
    (className : gostring) (fd : fieldDescriptor) : gostring :=
  str "type "
  ++ fieldStructNameOf U fd className (normalize U (Name fd) forceCases)
  ++ str " struct{ "
  ++ match privateName (snd (fst (getType U fd))) with
     | Some privateFieldClass => privateFieldClass
     | None => []
     end
  ++ str " }" ++ nl.

(** The lines of the base unit's two dispatch functions, table by table. *)
Definition getTableCase (U : UnicodeTables) (P : platform)
    (forceCases : list gostring) (tableName : gostring) : gostring :=
  tab ++ str "case " ++ strconv_Quote P tableName ++ str ": return "
  ++ normalize U tableName forceCases ++ nl.

Definition getTablesItem (U : UnicodeTables) (forceCases : list gostring)
    (tableName : gostring) : gostring :=
  tab ++ normalize U tableName forceCases ++ str "," ++ nl.

(** Whether [WriteToFile] goes on to open the file: always with [force] or
    when the file is not known to exist, else when the answer is Y or y. *)
Definition mayWrite (P : platform) (outputFile : gostring) (force : bool) : bool :=
  force
  || negb (fst (PathExists P outputFile))
  || gostring_eqb (fmt_Scanln P) (str "Y")
  || gostring_eqb (fmt_Scanln P) (str "y").

(** A table whose unit can be generated: its columns can be fetched, each
    has a recognized type, and the unit's file can be opened. *)
Definition tableOk (U : UnicodeTables) (P : platform) (F : flags)
    (sf : schemaFetcher) (tableName : gostring) : Prop :=
  exists fds,
    GetFieldDescriptors sf tableName = inl fds
    /\ Forall (recognized U) fds
    /\ os_OpenFile P (tableUnitPath (outputPath F) tableName) = None.

(** The table names a run works with. *)
Definition discoveredTables (F : flags) (sf : schemaFetcher)
  : list gostring + error :=
  match explicitTablesOf F with
  | [] => GetTableNames sf
  | names => inl names
  end.

(** ** Keywords

    The shape letter (letter | digit)* of [isIdentifier] is the lexical one.
    Go's specification reserves twenty-five keywords that have this shape
    and may not be used as identifiers. *)
Definition keywords : list gostring :=
  map str
    ["break"; "default"; "func"; "interface"; "select";
     "case"; "defer"; "go"; "map"; "struct";
     "chan"; "else"; "goto"; "package"; "switch";
     "const"; "fallthrough"; "if"; "range"; "type";
     "continue"; "for"; "import"; "return"; "var"].

Definition isKeyword (s : gostring) : bool :=
  existsb (gostring_eqb s) keywords.

(** A name that a Go program can declare. *)
Definition isGoIdentifier (U : UnicodeTables) (s : gostring) : bool :=
  isIdentifier U s && negb (isKeyword s).

(** ** The command line

    [Generate] begins with [flag.Parse()] on the default flag set, whose
    error handling is [flag.ExitOnError]: either the flags are parsed, or the
    library writes a message to the standard error stream and ends the
    process itself (for a flag that is not defined, a flag without its
    argument, or -h and -help), with the status it chooses.  [Generate] above
    is the function from its second line on, given the parsed flags. *)
Inductive parsed : Type :=
| Parsed (F : flags)
| ParseExit (message : gostring) (code : Z).

Definition flag_Parse (commandLine : parsed) : M flags :=
  match commandLine with
  | Parsed F => ret F
  | ParseExit message code => emit (StderrWritten message);; pure (Exit code)
  end.

(** [Generate] from its first line. *)
Definition GenerateCommand {DB : Type} (U : UnicodeTables) (P : platform)
    (D : drivers DB) (commandLine : parsed)
    (driverName exampleDataSourceName : gostring) : M unit :=
  F <- flag_Parse commandLine;;
  Generate U P D F driverName exampleDataSourceName.

(** [main] of the commands: [panic(err)] when [Generate] returns an error. *)
Definition panicOnError (m : M unit) : M unit :=
  let '(tr, o) := m in
  (tr, match o with Fail _ => Panic | _ => o end).

(** sqlingo-gen-sqlite3/main.go *)
Definition main_sqlite3 {DB : Type} (U : UnicodeTables) (P : platform)
    (D : drivers DB) (commandLine : parsed) : M unit :=
  panicOnError
    (GenerateCommand U P D commandLine (str "mysql") (str "./testdb.sqlite3")).

(** [sql.Open] in a program that imports the SQLite3 driver only: a driver
    name that no imported package has registered is an error. *)
Definition sqlite3Only : drivers unit := {|
  sql_Open := fun driverName _ =>
    if gostring_eqb driverName (str "sqlite3") then inl tt
    else inr (str "sql: unknown driver " ++ dquote ++ driverName ++ dquote
              ++ str " (forgotten import?)");
  newMySQLSchemaFetcher := fun _ => Example.shop;
  newSQLite3SchemaFetcher := fun _ => Example.shop;
  newPostgresSchemaFetcher := fun _ => Example.shop
|}.

(** ** The units of a run *)

(** The files that [generateTable] writes for a table: its unit, or none. *)
Definition tableUnitFiles (U : UnicodeTables) (P : platform) (F : flags)
    (sf : schemaFetcher) (dbName : gostring) (forceCases : list gostring)
    (tableName : gostring) : list (gostring * gostring) :=
  writtenFiles (fst (generateTable U P F sf dbName tableName forceCases)).

(** A run over the table list [names]: the base unit, then the unit of each
    name in order, up to the first table whose unit cannot be generated. *)
Definition emitsUnitsOf (U : UnicodeTables) (P : platform) (F : flags)
    (sf : schemaFetcher) (dbName : gostring) (names : list gostring)
    (tr : list event) (o : outcome unit) : Prop :=
  exists done rest getTable,
    names = done ++ rest
    /\ generateGetTable U P {| dataSourceName := databaseConnection F;
                               tableNames := names;
                               forceCases := forceCasesOf F |} = Ret getTable
    /\ writtenFiles tr
       = (baseUnitPath (outputPath F), baseDeclarations dbName ++ getTable)
         :: flat_map (tableUnitFiles U P F sf dbName (forceCasesOf F)) done
    /\ Forall (fun t =>
                 tableOk U P F sf t
                 /\ exists content,
                      tableUnitFiles U P F sf dbName (forceCasesOf F) t
                      = [(tableUnitPath (outputPath F) t, content)]) done
    /\ match rest with
       | [] => o = Ret tt /\ fetchedTables tr = names
       | t :: _ =>
           ~ tableOk U P F sf t
           /\ o = snd (generateTable U P F sf dbName t (forceCasesOf F))
           /\ o <> Ret tt
           /\ fetchedTables tr = done ++ [t]
       end.

(** ** The mock driver of the runtime's cursor test *)

Module Mock.

(** The [driver.Value]s the mock produces. *)
Inductive driverValue : Type :=
| VString (s : gostring)
| VFloat32 (n : Z)   (* float32(n) *)
| VInt (n : Z)
| VNil.

Record mockStmt : Type := { stmtColumnCount : Z }.

Record mockRows : Type := {
  columnCount : Z;
  cursorPosition : Z
}.

Definition columnNames : list gostring :=
  [str "a"; str "b"; str "c"; str "d"; str "e"; str "f"; str "g"].

(** [Columns]: the slice expression [names[:columnCount]] panics unless
    [0 <= columnCount <= 7]. *)
Definition Columns (m : mockRows) : option (list gostring) :=
  if (0 <=? columnCount m) && (columnCount m <=? 7)
  then Some (firstn (Z.to_nat (columnCount m)) columnNames)
  else None.

Definition io_EOF : error := str "EOF".

(** [string(n)] of an integer: the code point, or U+FFFD when [n] is none. *)
Definition string_of_int (n : Z) : gostring :=
  if (0 <=? n) && (n <=? 0x10FFFF)
     && negb ((0xD800 <=? n) && (n <=? 0xDFFF))
  then [n] else [0xFFFD].

Fixpoint update (dest : list driverValue) (i : nat) (v : driverValue)
  : list driverValue :=
  match dest, i with
  | [], _ => []
  | _ :: rest, O => v :: rest
  | d :: rest, S i' => d :: update rest i' v
  end.

(** [dest[i] = v]; [None] is the index-out-of-range panic. *)
Definition store (dest : list driverValue) (i : Z) (v : driverValue)
  : option (list driverValue) :=
  if (0 <=? i) && (i <? Z.of_nat (List.length dest))
  then Some (update dest (Z.to_nat i) v)
  else None.

(** The [switch] of the loop body of [Next]. *)
Definition assign (i position : Z) (dest : list driverValue)
  : option (list driverValue) :=
  if i =? 0 then store dest i (VString (strconv_Itoa position))
  else if i =? 1 then store dest i (VFloat32 position)
  else if i =? 2 then store dest i (VInt position)
  else if i =? 3 then store dest i (VString (string_of_int (Z.rem position 2)))
  else if i =? 4 then store dest i (VString (strconv_Itoa (Z.rem position 2)))
  else if i =? 5 then
    match dest with
    | first :: _ => store dest i first
    | [] => None
    end
  else if i =? 6 then store dest i VNil
  else Some dest.

(** The loop [for i := 0; i < columnCount; i++], [n] iterations from [i];
    the flag tells whether it ended without a panic. *)
Fixpoint fill (n : nat) (i position : Z) (dest : list driverValue)
  : list driverValue * bool :=
  match n with
  | O => (dest, true)
  | S n' =>
      match assign i position dest with
      | Some dest' => fill n' (i + 1) position dest'
      | None => (dest, false)
      end
  end.

(** [Next]: the cursor and [dest] after the call, and how the call ended. *)
Definition Next (m : mockRows) (dest : list driverValue)
  : mockRows * list driverValue * outcome unit :=
  if 10 <=? cursorPosition m then (m, dest, Fail io_EOF)
  else
    let m' := {| columnCount := columnCount m;
                 cursorPosition := cursorPosition m + 1 |} in
    let '(dest', ok) :=
      fill (Z.to_nat (columnCount m')) 0 (cursorPosition m') dest in
    (m', dest', if ok then Ret tt else Panic).

(** [mockStmt.Query]: a cursor before the first row. *)
Definition Query (s : mockStmt) : mockRows :=
  {| columnCount := stmtColumnCount s; cursorPosition := 0 |}.

(** [n] calls of [Next] on the same [dest], stopping at a panic. *)
Fixpoint calls (n : nat) (m : mockRows) (dest : list driverValue)
  : mockRows * list driverValue * list (outcome unit) :=
  match n with
  | O => (m, dest, [])
  | S n' =>
      let '(m1, dest1, r) := Next m dest in
      match r with
      | Panic => (m1, dest1, [r])
      | _ => let '(m2, dest2, rs) := calls n' m1 dest1 in (m2, dest2, r :: rs)
      end
  end.

(** The row the cursor yields at a position, as the test expects it. *)
Definition row (position : Z) : list driverValue :=
  [VString (strconv_Itoa position); VFloat32 position; VInt position;
   VString (string_of_int (Z.rem position 2));
   VString (strconv_Itoa (Z.rem position 2));
   VString (strconv_Itoa position); VNil].

(** The number of cells [Next] writes. *)
Definition width (m : mockRows) : nat := Z.to_nat (Z.min (columnCount m) 7).

End Mock.

(** * Properties *)

(** ** The scan computes the capitalized runs *)

Lemma appendToLastWord_snoc (ws : list gostring) (w piece : gostring) :
  appendToLastWord (ws ++ [w]) piece = Some (ws ++ [w ++ piece]).
Proof.
  unfold appendToLastWord.
  rewrite rev_unit, rev_involutive.
  reflexivity.
Qed.

Lemma alnumRuns_cons_alnum (U : UnicodeTables) (r : rune) (rest : gostring) :
  isAlnum U r = true ->
  alnumRuns U (r :: rest) =
    match rest with
    | [] => [[r]]
    | r' :: _ =>
        if isAlnum U r' then
          match alnumRuns U rest with
          | w :: ws => (r :: w) :: ws
          | [] => [[r]]
          end
        else [r] :: alnumRuns U rest
    end.
Proof.
  intros Hr. cbn [alnumRuns]. rewrite Hr. reflexivity.
Qed.

Lemma alnumRuns_cons_sep (U : UnicodeTables) (r : rune) (rest : gostring) :
  isAlnum U r = false -> alnumRuns U (r :: rest) = alnumRuns U rest.
Proof.
  intros Hr. cbn [alnumRuns]. rewrite Hr. reflexivity.
Qed.

Lemma extendWord_step (U : UnicodeTables) (w : gostring) (r : rune)
    (rest : gostring) :
  isAlnum U r = true ->
  extendWord U (w ++ [r]) rest = extendWord U w (r :: rest).
Proof.
  intros Hr.
  cbn [extendWord]. rewrite Hr, (alnumRuns_cons_alnum U r rest Hr).
  destruct rest as [|r' rest'].
  - reflexivity.
  - cbn [extendWord].
    destruct (isAlnum U r') eqn:Hr'.
    + destruct (alnumRuns U (r' :: rest')) as [|r0 rs].
      * reflexivity.
      * rewrite <- app_assoc. reflexivity.
    + rewrite (alnumRuns_cons_sep U r' rest' Hr'). reflexivity.
Qed.

Lemma extendWord_fresh (U : UnicodeTables) (r : rune) (rest : gostring) :
  isAlnum U r = true ->
  extendWord U [ToUpper U r] rest = map (upperFirst U) (alnumRuns U (r :: rest)).
Proof.
  intros Hr.
  rewrite (alnumRuns_cons_alnum U r rest Hr).
  destruct rest as [|r' rest'].
  - reflexivity.
  - cbn [extendWord].
    destruct (isAlnum U r') eqn:Hr'.
    + destruct (alnumRuns U (r' :: rest')) as [|r0 rs]; reflexivity.
    + rewrite (alnumRuns_cons_sep U r' rest' Hr'). reflexivity.
Qed.

Lemma scanRunes_spec (U : UnicodeTables) (s : gostring) :
  (forall ws, exists b,
      scanRunes U s (ws, true)
      = Some (ws ++ map (upperFirst U) (alnumRuns U s), b))
  /\ (forall ws w, exists b,
      scanRunes U s (ws ++ [w], false) = Some (ws ++ extendWord U w s, b)).
Proof.
  induction s as [|r rest [IHclosed IHopen]].
  - split; intros.
    + exists true. cbn. rewrite app_nil_r. reflexivity.
    + exists false. reflexivity.
  - split; intros.
    + cbn [scanRunes scanRune]. fold (isAlnum U r).
      destruct (isAlnum U r) eqn:Hr.
      * rewrite appendToLastWord_snoc. cbn [app].
        destruct (IHopen ws [ToUpper U r]) as [b Hb].
        exists b. rewrite extendWord_fresh in Hb by exact Hr. exact Hb.
      * destruct (IHclosed ws) as [b Hb].
        exists b. rewrite alnumRuns_cons_sep by exact Hr. exact Hb.
    + cbn [scanRunes scanRune]. fold (isAlnum U r).
      destruct (isAlnum U r) eqn:Hr.
      * rewrite appendToLastWord_snoc.
        destruct (IHopen ws (w ++ [r])) as [b Hb].
        exists b. rewrite extendWord_step in Hb by exact Hr. exact Hb.
      * destruct (IHclosed (ws ++ [w])) as [b Hb].
        exists b. cbn [extendWord]. rewrite Hr.
        rewrite <- app_assoc in Hb. exact Hb.
Qed.

Lemma fold_left_join (f : gostring -> gostring) (ws : list gostring)
    (acc : gostring) :
  fold_left (fun result word => result ++ f word) ws acc
  = acc ++ List.concat (map f ws).
Proof.
  revert acc. induction ws as [|w ws IH]; intros acc; cbn.
  - rewrite app_nil_r. reflexivity.
  - rewrite IH, <- app_assoc. reflexivity.
Qed.

Lemma forceCase_replaceForced (U : UnicodeTables) (w : gostring)
    (forceCases : list gostring) :
  forceCase U w forceCases = replaceForced U forceCases w.
Proof.
  unfold replaceForced.
  induction forceCases as [|c rest IH]; cbn.
  - reflexivity.
  - destruct (strings_EqualFold U w c); [reflexivity | exact IH].
Qed.

Lemma joinWords_concat (U : UnicodeTables) (ws forceCases : list gostring) :
  joinWords U ws forceCases = List.concat (map (replaceForced U forceCases) ws).
Proof.
  unfold joinWords.
  rewrite (fold_left_join (fun w => forceCase U w forceCases)).
  cbn [app]. f_equal. apply map_ext. intros w. apply forceCase_replaceForced.
Qed.

Lemma exportPrefix_withSentinel (U : UnicodeTables) (result : gostring) :
  exportPrefix U result = withSentinel U result.
Proof.
  unfold exportPrefix, withSentinel.
  destruct result as [|r rest]; cbn.
  - reflexivity.
  - destruct (IsUpper U r); reflexivity.
Qed.

(** The code and the specification's wording agree, and the code never
    panics. *)
Lemma convertToExportedIdentifier_normalize (U : UnicodeTables) (s : gostring)
    (forceCases : list gostring) :
  convertToExportedIdentifier U s forceCases = Some (normalize U s forceCases).
Proof.
  unfold convertToExportedIdentifier, normalize, capitalizedWords.
  destruct (proj1 (scanRunes_spec U s) []) as [b Hb].
  rewrite Hb. cbn [app].
  rewrite joinWords_concat, exportPrefix_withSentinel, map_map.
  reflexivity.
Qed.

(** ** The runs are the maximal runs of letters and digits *)

Lemma splitsInto_sep_cons (U : UnicodeTables) (r : rune) (s : gostring)
    (ws : list gostring) :
  isAlnum U r = false -> splitsInto U s ws -> splitsInto U (r :: s) ws.
Proof.
  intros Hr H. destruct H as [seps Hseps | seps w rest ws Hseps Hw Hall Hnext Hrest].
  - apply splits_end. constructor; assumption.
  - change (r :: seps ++ w ++ rest) with ((r :: seps) ++ w ++ rest).
    apply splits_run; try assumption. constructor; assumption.
Qed.

Lemma splitsInto_alnum_head (U : UnicodeTables) (r : rune) (s : gostring)
    (ws : list gostring) :
  isAlnum U r = true -> splitsInto U (r :: s) ws ->
  exists w rest ws', ws = (r :: w) :: ws' /\ s = w ++ rest
    /\ Forall (fun c => isAlnum U c = true) w
    /\ match rest with [] => True | c :: _ => isAlnum U c = false end
    /\ splitsInto U rest ws'.
Proof.
  intros Hr H.
  inversion H as [seps Hseps Heq | seps w rest ws' Hseps Hw Hall Hnext Hrest Heq];
    subst.
  - inversion Hseps; congruence.
  - destruct seps as [|c seps'].
    + cbn [app] in Heq. destruct w as [|c w']; [congruence|].
      cbn [app] in Heq. injection Heq as Hc Hs. subst c s.
      exists w', rest, ws'. inversion Hall; subst. auto.
    + cbn [app] in Heq. injection Heq as Hc _. subst c.
      inversion Hseps; congruence.
Qed.

Lemma alnumRuns_splitsInto (U : UnicodeTables) (s : gostring) :
  splitsInto U s (alnumRuns U s).
Proof.
  induction s as [|r rest IH].
  - apply splits_end. constructor.
  - destruct (isAlnum U r) eqn:Hr.
    + rewrite alnumRuns_cons_alnum by exact Hr.
      destruct rest as [|r' rest'].
      * apply (splits_run U [] [r] [] []); auto; try discriminate.
        all: try (apply splits_end; constructor).
      * destruct (isAlnum U r') eqn:Hr'.
        -- destruct (splitsInto_alnum_head U r' rest' _ Hr' IH)
             as (w & tl & ws' & Hruns & Htl & Hall & Hnext & Hsplit).
           rewrite Hruns, Htl.
           apply (splits_run U [] (r :: r' :: w) tl ws'); auto; try discriminate.
        -- apply (splits_run U [] [r] (r' :: rest') _); auto; try discriminate.
    + rewrite alnumRuns_cons_sep by exact Hr.
      apply splitsInto_sep_cons; assumption.
Qed.

(** The declarative reading determines the runs. *)
Lemma splitsInto_unique (U : UnicodeTables) (s : gostring) (ws : list gostring) :
  splitsInto U s ws -> ws = alnumRuns U s.
Proof.
  intros H. induction H as [seps Hseps | seps w rest ws Hseps Hw Hall Hnext Hrest IH].
  - induction Hseps as [|c seps Hc _ IHs]; [reflexivity|].
    rewrite alnumRuns_cons_sep by exact Hc. exact IHs.
  - induction Hseps as [|c seps Hc _ IHs].
    + cbn [app]. subst ws. clear Hrest.
      induction Hall as [|c w' Hc Hall' IHw]; [congruence|].
      cbn [app]. rewrite alnumRuns_cons_alnum by exact Hc.
      destruct w' as [|c' w''].
      * cbn [app]. destruct rest as [|d rest']; [reflexivity|].
        rewrite Hnext. reflexivity.
      * cbn [app] in *. inversion Hall'; subst.
        match goal with H : isAlnum U c' = true |- _ => rewrite H end.
        rewrite <- IHw by discriminate. reflexivity.
    + cbn [app]. rewrite alnumRuns_cons_sep by exact Hc. exact IHs.
Qed.

(** ** The excerpt satisfies the facts assumed of Go's tables *)

Ltac zbool :=
  repeat (cbn [andb orb negb] in *;
          match goal with
          | |- context [Z.leb ?a ?b] => destruct (Z.leb_spec a b); try lia
          | |- context [Z.eqb ?a ?b] => destruct (Z.eqb_spec a b); try lia
          | H : context [Z.leb ?a ?b] |- _ => destruct (Z.leb_spec a b); try lia
          | H : context [Z.eqb ?a ?b] |- _ => destruct (Z.eqb_spec a b); try lia
          end);
  cbn [andb orb negb] in *;
  try first [reflexivity | discriminate | lia].

Ltac unfold_tables :=
  unfold isAlnum, isASCII, ascii_foldEq, ascii_toUpper, ascii_toLower,
    ascii_letter, ascii_upper, ascii_lower, ascii_digit, rune_eqb in *;
  cbn [excerpt IsLetter IsDigit IsUpper ToUpper ToLower FoldEq] in *;
  unfold Excerpt.foldEq, Excerpt.orbit, Excerpt.isLetter, Excerpt.isDigit,
    Excerpt.isUpper, Excerpt.toUpper, Excerpt.toLower, ascii_letter, ascii_upper,
    ascii_lower, ascii_digit, rune_eqb in *.

Lemma excerpt_GoUnicode : GoUnicode excerpt.
Proof.
  constructor.
  - intros r Hr. unfold_tables. zbool.
  - intros r Hr. reflexivity.
  - intros r Hr. unfold_tables. zbool.
  - intros r Hr. unfold_tables. zbool.
  - intros r Hr. unfold_tables. zbool.
  - intros a b Ha Hb. unfold_tables. zbool.
  - intros a b Hb Hcaseless. unfold_tables. zbool.
  - intros r Hr. unfold_tables. zbool.
  - intros r Hr. unfold_tables. zbool.
  - intros r Hr. unfold_tables. zbool.
  - intros r. unfold_tables. apply Z.eqb_refl.
Qed.

(** ** Evaluating on ASCII inputs with any tables that are Go's *)

Ltac eval_str :=
  repeat match goal with
         | |- context [str ?s] =>
             let v := eval vm_compute in (str s) in change (str s) with v
         | |- context [ch ?c] =>
             let v := eval vm_compute in (ch c) in change (ch c) with v
         end.

Ltac ascii_step U :=
  match goal with
  | |- context [IsLetter U ?r] =>
      rewrite (IsLetter_ascii r) by (unfold isASCII; lia)
  | |- context [IsDigit U ?r] =>
      rewrite (IsDigit_ascii r) by (unfold isASCII; lia)
  | |- context [IsUpper U ?r] =>
      rewrite (IsUpper_ascii r) by (unfold isASCII; lia)
  | |- context [ToUpper U ?r] =>
      rewrite (ToUpper_ascii r) by (unfold isASCII; lia)
  | |- context [ToLower U ?r] =>
      rewrite (ToLower_ascii r) by (unfold isASCII; lia)
  | |- context [FoldEq U ?a ?b] =>
      rewrite (FoldEq_ascii a b) by (unfold isASCII; lia)
  end.

Ltac ascii_eval U :=
  eval_str;
  repeat (cbn; unfold isAlnum; ascii_step U);
  cbn.

Lemma normalize_user_id (U : UnicodeTables) (HU : GoUnicode U) :
  normalize U (str "user_id") [] = str "UserId"
  /\ normalize U (str "user_id") [str "ID"] = str "UserID".
Proof.
  unfold normalize, capitalizedWords, replaceForced, withSentinel, sentinel.
  split; ascii_eval U; reflexivity.
Qed.

(** ** What the output of the normalizer is made of *)

Section Normalizer.

Variable U : UnicodeTables.
Hypothesis HU : GoUnicode U.

Let alnum (w : gostring) : Prop := Forall (fun r => isAlnum U r = true) w.

Lemma sentinel_upper : IsUpper U sentinel = true.
Proof.
  unfold sentinel. rewrite IsUpper_ascii by (unfold isASCII, ch; cbn; lia).
  reflexivity.
Qed.

Lemma sentinel_alnum : isAlnum U sentinel = true.
Proof.
  unfold isAlnum. rewrite (IsUpper_IsLetter _ sentinel_upper). reflexivity.
Qed.

Lemma underscore_not_alnum : isAlnum U (ch "_") = false.
Proof.
  unfold isAlnum.
  rewrite IsLetter_ascii, IsDigit_ascii by (unfold isASCII, ch; cbn; lia).
  reflexivity.
Qed.

Lemma splitsInto_runs (s : gostring) (ws : list gostring) :
  splitsInto U s ws -> Forall (fun w => w <> [] /\ alnum w) ws.
Proof.
  induction 1; constructor; auto.
Qed.

Lemma alnumRuns_alnum (s : gostring) :
  Forall (fun w => w <> [] /\ alnum w) (alnumRuns U s).
Proof.
  apply (splitsInto_runs s), alnumRuns_splitsInto.
Qed.

Lemma alnumRuns_single (w : gostring) :
  w <> [] -> alnum w -> alnumRuns U w = [w].
Proof.
  intros Hne Hw. symmetry.
  rewrite <- (app_nil_r w) at 2.
  apply (splitsInto_unique U ([] ++ w ++ []) [w]).
  apply splits_run; auto. apply splits_end. constructor.
Qed.

Lemma alnumRuns_no_alnum (s : gostring) :
  Forall (fun r => isAlnum U r = false) s -> alnumRuns U s = [].
Proof.
  intros Hs. symmetry. apply splitsInto_unique, splits_end, Hs.
Qed.

Lemma upperFirst_alnum (w : gostring) : alnum w -> alnum (upperFirst U w).
Proof.
  intros Hw. destruct Hw as [|c w Hc Hw]; cbn.
  - constructor.
  - constructor; [apply ToUpper_isAlnum; exact Hc | exact Hw].
Qed.

Lemma EqualFold_alnum (w c : gostring) :
  strings_EqualFold U w c = true ->
  alnum w ->
  (forall r a, In r c -> isAlnum U r = false -> isAlnum U a = true ->
               FoldEq U a r = false) ->
  alnum c.
Proof.
  revert c. induction w as [|a w IH]; intros [|r c] Heq Hw Hsafe;
    cbn in Heq; try discriminate.
  - constructor.
  - apply andb_true_iff in Heq as [Har Heq].
    inversion Hw as [|? ? Ha Hw']; subst.
    constructor.
    + destruct (isAlnum U r) eqn:Hr; [reflexivity|].
      rewrite (Hsafe r a (or_introl eq_refl) Hr Ha) in Har. discriminate.
    + apply IH; auto. intros r' a' Hin. apply Hsafe. right. exact Hin.
Qed.

Lemma EqualFold_length (w c : gostring) :
  strings_EqualFold U w c = true -> List.length w = List.length c.
Proof.
  revert c. induction w as [|a w IH]; intros [|r c] Heq; cbn in Heq;
    try discriminate; [reflexivity|].
  apply andb_true_iff in Heq as [_ Heq]. cbn. f_equal. apply IH, Heq.
Qed.

(** A replaced word is the word itself or a matching entry. *)
Lemma replaceForced_cases (forceCases : list gostring) (w : gostring) :
  replaceForced U forceCases w = w
  \/ (In (replaceForced U forceCases w) forceCases
      /\ strings_EqualFold U w (replaceForced U forceCases w) = true).
Proof.
  unfold replaceForced.
  destruct (find _ forceCases) as [c|] eqn:Hfind.
  - right. apply find_some in Hfind. exact Hfind.
  - left. reflexivity.
Qed.

Lemma replaceForced_alnum (forceCases : list gostring) (w : gostring) :
  forceCasesSafe U forceCases -> alnum w ->
  alnum (replaceForced U forceCases w).
Proof.
  intros Hsafe Hw.
  destruct (replaceForced_cases forceCases w) as [-> | [Hin Heq]].
  - exact Hw.
  - apply (EqualFold_alnum w _ Heq Hw).
    intros r a Hr. apply (Hsafe _ r a Hin Hr).
Qed.

Lemma capitalizedWords_alnum (s : gostring) (forceCases : list gostring) :
  forceCasesSafe U forceCases ->
  Forall alnum (capitalizedWords U s forceCases).
Proof.
  intros Hsafe. unfold capitalizedWords.
  apply Forall_map.
  eapply Forall_impl; [|apply alnumRuns_alnum].
  intros w [_ Hw]. cbn beta. apply replaceForced_alnum; auto.
  apply upperFirst_alnum, Hw.
Qed.

Lemma concat_alnum (ws : list gostring) :
  Forall alnum ws -> alnum (List.concat ws).
Proof.
  induction 1 as [|w ws Hw _ IH]; cbn.
  - constructor.
  - apply Forall_app. split; assumption.
Qed.

Lemma withSentinel_alnum (result : gostring) :
  alnum result -> alnum (withSentinel U result).
Proof.
  intros Hr. unfold withSentinel.
  destruct result as [|r rest].
  - constructor; [apply sentinel_alnum | constructor].
  - destruct (IsUpper U r); [exact Hr|].
    constructor; [apply sentinel_alnum | exact Hr].
Qed.

Lemma normalize_alnum (s : gostring) (forceCases : list gostring) :
  forceCasesSafe U forceCases -> alnum (normalize U s forceCases).
Proof.
  intros Hsafe. unfold normalize.
  apply withSentinel_alnum, concat_alnum, capitalizedWords_alnum, Hsafe.
Qed.

Lemma withSentinel_exported (result : gostring) :
  exists r rest, withSentinel U result = r :: rest /\ IsUpper U r = true.
Proof.
  unfold withSentinel.
  destruct result as [|r rest].
  - exists sentinel, []. split; [reflexivity | apply sentinel_upper].
  - destruct (IsUpper U r) eqn:Hr.
    + exists r, rest. auto.
    + exists sentinel, (r :: rest). split; [reflexivity | apply sentinel_upper].
Qed.

Lemma normalize_exported (s : gostring) (forceCases : list gostring) :
  exists r rest, normalize U s forceCases = r :: rest /\ IsUpper U r = true.
Proof.
  apply withSentinel_exported.
Qed.

(** Normalizing a word that already is an exported run of letters and
    digits only force-cases it. *)
Lemma normalize_exported_word (r : rune) (rest : gostring)
    (forceCases : list gostring) :
  IsUpper U r = true -> alnum (r :: rest) ->
  normalize U (r :: rest) forceCases
  = withSentinel U (replaceForced U forceCases (r :: rest)).
Proof.
  intros Hr Hw. unfold normalize, capitalizedWords.
  rewrite alnumRuns_single by (auto; discriminate).
  cbn [map upperFirst List.concat]. rewrite (ToUpper_IsUpper r Hr), app_nil_r.
  reflexivity.
Qed.

Lemma normalize_idempotent (s : gostring) (forceCases : list gostring) :
  forceCasesSafe U forceCases ->
  replaceForced U forceCases (normalize U s forceCases)
    = normalize U s forceCases ->
  normalize U (normalize U s forceCases) forceCases = normalize U s forceCases.
Proof.
  intros Hsafe Hfix.
  pose proof (normalize_alnum s forceCases Hsafe) as Hal.
  destruct (normalize_exported s forceCases) as (r & rest & Heq & Hr).
  rewrite Heq in *.
  rewrite normalize_exported_word, Hfix by assumption.
  cbn [withSentinel]. rewrite Hr. reflexivity.
Qed.

Lemma forceCasesSafe_nil : forceCasesSafe U [].
Proof.
  intros c r a [].
Qed.

Lemma isIdentifier_alnum (r : rune) (rest : gostring) :
  IsUpper U r = true -> alnum rest -> isIdentifier U (r :: rest) = true.
Proof.
  intros Hr Hrest. cbn [isIdentifier].
  rewrite (IsUpper_IsLetter r Hr). cbn [orb andb].
  apply forallb_forall. intros c Hc.
  unfold isIdentifierRune. fold (isAlnum U c).
  unfold alnum in Hrest. rewrite Forall_forall in Hrest.
  rewrite (Hrest c Hc). reflexivity.
Qed.

Lemma normalize_idempotent_iff (s : gostring) (forceCases : list gostring) :
  alnum (normalize U s forceCases) ->
  (normalize U (normalize U s forceCases) forceCases = normalize U s forceCases
   <-> replaceForced U forceCases (normalize U s forceCases)
       = normalize U s forceCases).
Proof.
  intros Hal.
  destruct (normalize_exported s forceCases) as (r & rest & Heq & Hr).
  rewrite Heq in *.
  rewrite normalize_exported_word by assumption.
  split.
  - intros Hsame.
    destruct (replaceForced_cases forceCases (r :: rest)) as [Hw | [_ Hfold]];
      [exact Hw|].
    apply EqualFold_length in Hfold.
    unfold withSentinel in Hsame.
    destruct (replaceForced U forceCases (r :: rest)) as [|c w]; [discriminate|].
    destruct (IsUpper U c); [exact Hsame|].
    apply (f_equal (@List.length Z)) in Hsame. cbn in Hsame, Hfold. lia.
  - intros ->. cbn [withSentinel]. rewrite Hr. reflexivity.
Qed.

(** Entries whose characters are letters, digits or ASCII are safe: an ASCII
    separator has no case variant. *)
Lemma forceCasesSafe_separators (forceCases : list gostring) :
  (forall caseWord r, In caseWord forceCases -> In r caseWord ->
                      isAlnum U r = true \/ isASCII r) ->
  forceCasesSafe U forceCases.
Proof.
  intros H caseWord r a Hc Hr Hsep Ha.
  destruct (H caseWord r Hc Hr) as [Hal | Hascii]; [congruence|].
  rewrite FoldEq_caseless; [| exact Hascii |].
  - unfold rune_eqb. destruct (Z.eqb_spec a r); [subst; congruence | reflexivity].
  - unfold isAlnum in Hsep. apply orb_false_iff in Hsep as [Hl _].
    rewrite IsLetter_ascii in Hl by exact Hascii. exact Hl.
Qed.

(** The underscore never enters the output: it is no letter or digit, and
    folds to nothing but itself. *)
Lemma EqualFold_no_underscore (w c : gostring) :
  strings_EqualFold U w c = true -> alnum w -> ~ In (ch "_") c.
Proof.
  revert c. induction w as [|a w IH]; intros [|r c] Heq Hw Hin;
    cbn in Heq; try discriminate; [destruct Hin|].
  apply andb_true_iff in Heq as [Har Heq].
  inversion Hw as [|? ? Ha Hw']; subst.
  destruct Hin as [-> | Hin].
  - rewrite FoldEq_caseless in Har
      by (unfold isASCII, ch; cbn; first [lia | reflexivity]).
    apply Z.eqb_eq in Har. subst a.
    rewrite underscore_not_alnum in Ha. discriminate.
  - exact (IH c Heq Hw' Hin).
Qed.

Lemma alnum_no_underscore (w : gostring) : alnum w -> ~ In (ch "_") w.
Proof.
  intros Hw Hin. unfold alnum in Hw. rewrite Forall_forall in Hw.
  specialize (Hw _ Hin). rewrite underscore_not_alnum in Hw. discriminate.
Qed.

Lemma normalize_no_underscore (s : gostring) (forceCases : list gostring) :
  ~ In (ch "_") (normalize U s forceCases).
Proof.
  assert (Hwords : forall w, In w (capitalizedWords U s forceCases) ->
                             ~ In (ch "_") w).
  { intros w Hw. unfold capitalizedWords in Hw.
    apply in_map_iff in Hw as (run & <- & Hrun).
    pose proof (alnumRuns_alnum s) as Hruns. rewrite Forall_forall in Hruns.
    destruct (Hruns run Hrun) as [_ Hal]. apply upperFirst_alnum in Hal.
    destruct (replaceForced_cases forceCases (upperFirst U run))
      as [-> | [_ Hfold]].
    - apply alnum_no_underscore, Hal.
    - apply (EqualFold_no_underscore _ _ Hfold Hal). }
  assert (Hcat : ~ In (ch "_") (List.concat (capitalizedWords U s forceCases))).
  { intros Hin. apply in_concat in Hin as (w & Hw & Hin).
    exact (Hwords w Hw Hin). }
  unfold normalize, withSentinel.
  destruct (List.concat (capitalizedWords U s forceCases)) as [|r rest].
  - intros [Hin | []]. discriminate Hin.
  - destruct (IsUpper U r); [exact Hcat|].
    intros [Hin | Hin]; [discriminate Hin | exact (Hcat Hin)].
Qed.

End Normalizer.

Ltac ascii_strings :=
  let c := fresh "c" in
  let r := fresh "r" in
  let Hc := fresh "Hc" in
  let Hr := fresh "Hr" in
  intros c r Hc Hr; right; cbn in Hc;
  repeat (destruct Hc as [Hc | Hc];
          [subst c; cbn in Hr;
           repeat (destruct Hr as [Hr | Hr];
                   [subst r; unfold isASCII; lia |]);
           contradiction |]);
  contradiction.

(** ** The normalizer: what the specification states *)

(** C1. For every raw name and every forceCases list,
    [convertToExportedIdentifier] returns what the specification's wording
    computes: the input is split into its maximal runs of letters and digits
    ([alnumRuns], which is the one splitting that [splitsInto] admits), the
    first character of each run is upper-cased and the rest kept, a run that
    case-insensitively equals a forceCases entry is replaced by the first such
    entry, and the runs are concatenated with nothing between them (the
    sentinel of C7 is put in front when that concatenation is empty or does
    not start with an upper-case letter; otherwise the concatenation is the
    result).  In particular "user_id" gives "UserId", and "UserID" with
    forceCases ["ID"]. *)
Theorem C1_normalize_words (U : UnicodeTables) (HU : GoUnicode U)
    (s : gostring) (forceCases : list gostring) :
  convertToExportedIdentifier U s forceCases
    = Some (withSentinel U
              (List.concat
                 (map (fun w => replaceForced U forceCases (upperFirst U w))
                      (alnumRuns U s))))
  /\ (forall ws, splitsInto U s ws <-> ws = alnumRuns U s)
  /\ (forall r rest,
        List.concat (capitalizedWords U s forceCases) = r :: rest ->
        IsUpper U r = true ->
        convertToExportedIdentifier U s forceCases = Some (r :: rest))
  /\ convertToExportedIdentifier U (str "user_id") [] = Some (str "UserId")
  /\ convertToExportedIdentifier U (str "user_id") [str "ID"]
     = Some (str "UserID").
Proof.
  repeat split.
  - apply convertToExportedIdentifier_normalize.
  - apply splitsInto_unique.
  - intros ->. apply alnumRuns_splitsInto.
  - intros r rest Hcat Hr.
    rewrite convertToExportedIdentifier_normalize. unfold normalize.
    rewrite Hcat. cbn [withSentinel]. rewrite Hr. reflexivity.
  - rewrite convertToExportedIdentifier_normalize.
    f_equal. apply (normalize_user_id U HU).
  - rewrite convertToExportedIdentifier_normalize.
    f_equal. apply (normalize_user_id U HU).
Qed.

Lemma C1_normalize_words_witness :
  GoUnicode excerpt
  /\ convertToExportedIdentifier excerpt (str "order-items 2") [str "ID"]
     = Some (str "OrderItems2").
Proof.
  split.
  - exact excerpt_GoUnicode.
  - exact (eq_trans
             (proj1 (C1_normalize_words excerpt excerpt_GoUnicode
                       (str "order-items 2") [str "ID"]))
             eq_refl).
Defined.

(** C7, as the code has it.  For the empty string and for every input without
    letters and digits the result is the sentinel letter "E" alone; whenever
    the concatenated words are empty or do not start with an upper-case
    letter the sentinel is put in front, and otherwise nothing is; the result
    is therefore never empty and always starts with an upper-case letter.  It
    is a syntactically valid identifier whenever no forceCases entry holds a
    character outside the letters and digits that folds to one. *)
Theorem C7_sentinel_prefix (U : UnicodeTables) (HU : GoUnicode U)
    (s : gostring) (forceCases : list gostring) :
  (Forall (fun r => isAlnum U r = false) s ->
   convertToExportedIdentifier U s forceCases = Some [sentinel])
  /\ (let result := List.concat (capitalizedWords U s forceCases) in
      convertToExportedIdentifier U s forceCases
      = Some (if isEmpty result || negb (isExported U result)
              then sentinel :: result else result))
  /\ (exists id, convertToExportedIdentifier U s forceCases = Some id
                 /\ isExported U id = true)
  /\ (forceCasesSafe U forceCases ->
      exists id, convertToExportedIdentifier U s forceCases = Some id
                 /\ isIdentifier U id = true).
Proof.
  rewrite convertToExportedIdentifier_normalize.
  repeat split.
  - intros Hs. unfold normalize, capitalizedWords.
    rewrite alnumRuns_no_alnum by exact Hs. reflexivity.
  - cbn zeta. unfold normalize, withSentinel.
    destruct (List.concat (capitalizedWords U s forceCases)) as [|r rest].
    + reflexivity.
    + cbn. destruct (IsUpper U r); reflexivity.
  - destruct (normalize_exported U HU s forceCases) as (r & rest & Heq & Hr).
    exists (normalize U s forceCases). split; [reflexivity|].
    rewrite Heq. exact Hr.
  - intros Hsafe.
    pose proof (normalize_alnum U HU s forceCases Hsafe) as Hal.
    destruct (normalize_exported U HU s forceCases) as (r & rest & Heq & Hr).
    exists (normalize U s forceCases). split; [reflexivity|].
    rewrite Heq in *. inversion Hal; subst.
    apply isIdentifier_alnum; assumption.
Qed.

Lemma C7_sentinel_prefix_witness :
  GoUnicode excerpt
  /\ Forall (fun r => isAlnum excerpt r = false) (str "-_ ")
  /\ convertToExportedIdentifier excerpt (str "-_ ") [str "ID"] = Some (str "E")
  /\ forceCasesSafe excerpt [str "ID"]
  /\ exists id, convertToExportedIdentifier excerpt (str "-_ ") [str "ID"] = Some id
                /\ isIdentifier excerpt id = true.
Proof.
  assert (Hsep : Forall (fun r => isAlnum excerpt r = false) (str "-_ "))
    by (repeat constructor).
  assert (Hsafe : forceCasesSafe excerpt [str "ID"])
    by (apply (forceCasesSafe_separators excerpt excerpt_GoUnicode);
        ascii_strings).
  pose (H := C7_sentinel_prefix excerpt excerpt_GoUnicode (str "-_ ") [str "ID"]).
  split; [exact excerpt_GoUnicode|].
  split; [exact Hsep|].
  split; [exact (proj1 H Hsep)|].
  split; [exact Hsafe|].
  exact (proj2 (proj2 (proj2 H)) Hsafe).
Defined.

(** C7 as stated fails: with the forceCases entry U+0345 (a combining mark
    that folds to the Greek iota) the name "ι" becomes "E" followed by U+0345,
    which is not an identifier. *)
Lemma C7_counterexample :
  convertToExportedIdentifier excerpt [0x3B9] [[0x345]] = Some [ch "E"; 0x345]
  /\ isIdentifier excerpt [ch "E"; 0x345] = false.
Proof.
  split; reflexivity.
Qed.

(** C8, as the code has it.  When the output of the normalizer consists of
    letters and digits, normalizing it again gives the same output exactly
    when force-casing leaves that output, taken as one word, unchanged; so
    the normalizer is idempotent for every input when forceCases is empty,
    and re-normalizing "UserId" yields "UserId". *)
Theorem C8_idempotent_unless_forced (U : UnicodeTables) (HU : GoUnicode U)
    (s : gostring) (forceCases : list gostring) (id : gostring)
    (Hid : convertToExportedIdentifier U s forceCases = Some id)
    (Halnum : Forall (fun r => isAlnum U r = true) id) :
  (convertToExportedIdentifier U id forceCases = Some id
   <-> replaceForced U forceCases id = id)
  /\ (exists id0, convertToExportedIdentifier U s [] = Some id0
                  /\ convertToExportedIdentifier U id0 [] = Some id0)
  /\ convertToExportedIdentifier U (str "UserId") [] = Some (str "UserId").
Proof.
  rewrite convertToExportedIdentifier_normalize in Hid.
  injection Hid as <-.
  repeat split.
  - rewrite convertToExportedIdentifier_normalize.
    intros Hsame. injection Hsame as Hsame.
    apply (normalize_idempotent_iff U HU); assumption.
  - intros Hfix. rewrite convertToExportedIdentifier_normalize. f_equal.
    apply (normalize_idempotent_iff U HU); assumption.
  - exists (normalize U s []).
    rewrite !convertToExportedIdentifier_normalize.
    split; [reflexivity|]. f_equal.
    apply normalize_idempotent; [assumption | apply forceCasesSafe_nil | reflexivity].
  - rewrite convertToExportedIdentifier_normalize. f_equal.
    unfold normalize, capitalizedWords, replaceForced, withSentinel, sentinel.
    ascii_eval U. reflexivity.
Qed.

Lemma C8_idempotent_unless_forced_witness :
  GoUnicode excerpt
  /\ convertToExportedIdentifier excerpt (str "user_id") [str "ID"]
     = Some (str "UserID")
  /\ Forall (fun r => isAlnum excerpt r = true) (str "UserID")
  /\ replaceForced excerpt [str "ID"] (str "UserID") = str "UserID"
  /\ convertToExportedIdentifier excerpt (str "UserID") [str "ID"]
     = Some (str "UserID").
Proof.
  assert (Hal : Forall (fun r => isAlnum excerpt r = true) (str "UserID"))
    by (repeat constructor).
  split; [exact excerpt_GoUnicode|].
  split; [reflexivity|].
  split; [exact Hal|].
  split; [reflexivity|].
  exact (proj2 (proj1 (C8_idempotent_unless_forced excerpt excerpt_GoUnicode
                         (str "user_id") [str "ID"] (str "UserID")
                         eq_refl Hal))
               eq_refl).
Defined.

(** C8 as stated fails: with forceCases ["USERID"], "user_id" normalizes to
    "UserId" (neither word matches the entry), and "UserId" normalizes to
    "USERID" (the one word matches it). *)
Lemma C8_counterexample :
  convertToExportedIdentifier excerpt (str "user_id") [str "USERID"]
    = Some (str "UserId")
  /\ convertToExportedIdentifier excerpt (str "UserId") [str "USERID"]
     = Some (str "USERID")
  /\ str "USERID" <> str "UserId".
Proof.
  repeat split; try reflexivity. discriminate.
Qed.

(** C10, as the code has it.  For every input string and every forceCases
    list in which no character outside the letters and digits folds to a
    letter or a digit, the output consists solely of letters and digits.
    This covers every list whose characters are letters, digits or ASCII
    characters, so entries may hold separators such as "-" or "_". *)
Theorem C10_output_alphanumeric (U : UnicodeTables) (HU : GoUnicode U)
    (s : gostring) (forceCases : list gostring)
    (Hsafe : forceCasesSafe U forceCases) :
  (exists id, convertToExportedIdentifier U s forceCases = Some id
              /\ Forall (fun r => isAlnum U r = true) id)
  /\ (forall entries,
        (forall caseWord r, In caseWord entries -> In r caseWord ->
                            isAlnum U r = true \/ isASCII r) ->
        exists id, convertToExportedIdentifier U s entries = Some id
                   /\ Forall (fun r => isAlnum U r = true) id).
Proof.
  split.
  - exists (normalize U s forceCases).
    split; [apply convertToExportedIdentifier_normalize|].
    apply normalize_alnum; assumption.
  - intros entries Hentries.
    exists (normalize U s entries).
    split; [apply convertToExportedIdentifier_normalize|].
    apply normalize_alnum; [assumption|].
    apply forceCasesSafe_separators; assumption.
Qed.

Lemma C10_output_alphanumeric_witness :
  GoUnicode excerpt
  /\ forceCasesSafe excerpt [str "user-name"; str "ID"; str "_"]
  /\ exists id,
       convertToExportedIdentifier excerpt (str "user-name_id")
         [str "user-name"; str "ID"; str "_"] = Some id
       /\ Forall (fun r => isAlnum excerpt r = true) id.
Proof.
  assert (Hsafe : forceCasesSafe excerpt [str "user-name"; str "ID"; str "_"])
    by (apply (forceCasesSafe_separators excerpt excerpt_GoUnicode);
        ascii_strings).
  split; [exact excerpt_GoUnicode|].
  split; [exact Hsafe|].
  exact (proj1 (C10_output_alphanumeric excerpt excerpt_GoUnicode
                  (str "user-name_id")
                  [str "user-name"; str "ID"; str "_"] Hsafe)).
Defined.

(** C10 as stated fails: the forceCases entry U+0345 is not a letter, yet it
    case-insensitively equals the word U+0399 made from "ι", and is copied
    into the output. *)
Lemma C10_counterexample :
  isAlnum excerpt 0x345 = false
  /\ strings_EqualFold excerpt [0x399] [0x345] = true
  /\ convertToExportedIdentifier excerpt [0x3B9] [[0x345]] = Some [ch "E"; 0x345]
  /\ forallb (isAlnum excerpt) [ch "E"; 0x345] = false.
Proof.
  repeat split; reflexivity.
Qed.

(** ** The type mapper *)

Lemma gostring_eqb_eq (s t : gostring) : gostring_eqb s t = true <-> s = t.
Proof.
  revert t. induction s as [|a s IH]; intros [|b t]; cbn; split;
    try congruence; try discriminate.
  - intros H. apply andb_true_iff in H as [Hab Hst].
    apply Z.eqb_eq in Hab. apply IH in Hst. congruence.
  - intros H. injection H as -> ->.
    apply andb_true_iff. split; [apply Z.eqb_refl | apply IH; reflexivity].
Qed.

Lemma oneOf_In (tag : gostring) (vs : list string) :
  oneOf tag vs = true <-> In tag (map str vs).
Proof.
  unfold oneOf. rewrite existsb_exists, in_map_iff.
  split; intros (v & H1 & H2).
  - apply gostring_eqb_eq in H2. eauto.
  - exists v. split; [exact H2 | apply gostring_eqb_eq; congruence].
Qed.

Ltac split_family H :=
  unfold typeFamily in H;
  repeat match type of H with
         | context [oneOf ?t ?vs] => destruct (oneOf t vs) eqn:?
         | context [Z.eqb ?a ?b] => destruct (Z.eqb a b) eqn:?
         end.

Lemma typeFamily_None (U : UnicodeTables) (fd : fieldDescriptor) :
  typeFamily U fd = None <-> ~ recognized U fd.
Proof.
  unfold recognized. split.
  - intros H Hin. split_family H; try discriminate.
    unfold recognizedTypes in Hin. cbn [map In] in Hin.
    repeat (destruct Hin as [Hin | Hin];
            [rewrite <- Hin in *;
             repeat match goal with
                    | E : oneOf _ _ = false |- _ =>
                        vm_compute in E; try discriminate E; clear E
                    end |]).
    exact Hin.
  - intros Hnot.
    destruct (typeFamily U fd) as [p|] eqn:H; [|reflexivity].
    exfalso. apply Hnot.
    split_family H; try discriminate;
      match goal with
      | E : oneOf _ _ = true |- _ =>
          apply oneOf_In in E; apply in_map_iff in E as (v & <- & Hv);
          apply in_map; cbn in Hv; unfold recognizedTypes; cbn;
          repeat destruct Hv as [<- | Hv]; tauto
      end.
Qed.

Lemma typeFamily_range (U : UnicodeTables) (fd : fieldDescriptor)
    (goType fieldClass : gostring) :
  typeFamily U fd = Some (goType, fieldClass) ->
  In goType (map str (integerTypes ++ otherTypes))
  /\ In fieldClass (map str fieldClasses)
  /\ (isIntegerType goType = true -> fieldClass = str "NumberField").
Proof.
  intros H. split_family H; try discriminate;
    injection H as <- <-;
    (split; [vm_compute; tauto | split; [vm_compute; tauto |]]);
    first [reflexivity | intros E; vm_compute in E; discriminate E].
Qed.

Lemma typeFamily_flags (U : UnicodeTables) (fd : fieldDescriptor)
    (unsigned allowNull : bool) :
  typeFamily U (withFlags fd unsigned allowNull) = typeFamily U fd.
Proof.
  reflexivity.
Qed.

Lemma HasPrefix_int (goType : gostring) :
  In goType (map str (integerTypes ++ otherTypes)) ->
  strings_HasPrefix goType (str "int") = isIntegerType goType.
Proof.
  cbn [integerTypes otherTypes app map In].
  intros H. repeat destruct H as [<- | H]; try reflexivity. contradiction.
Qed.

(** C2. [getType] is a function, defined on every column descriptor.  When
    the lower-cased raw type belongs to one of the recognized families it
    returns, without error, a non-empty scalar type and one of the four field
    categories; when it belongs to none it returns the error "unknown field
    type ..." with the scalar type and the category left empty, and never a
    partial or default type.  An error is returned in no other case. *)
Theorem C2_getType_total_or_error (U : UnicodeTables) (fd : fieldDescriptor) :
  (recognized U fd ->
   exists goType fieldClass,
     getType U fd = (goType, fieldClass, None)
     /\ goType <> []
     /\ In fieldClass (map str fieldClasses))
  /\ (~ recognized U fd ->
      getType U fd = ([], [], Some (str "unknown field type " ++ Type_ fd)))
  /\ (forall goType fieldClass,
        getType U fd = (goType, fieldClass, None) -> recognized U fd).
Proof.
  unfold getType.
  destruct (typeFamily U fd) as [[base cls]|] eqn:H.
  - assert (Hrec : recognized U fd).
    { destruct (typeFamily_None U fd) as [_ Hn].
      assert (Hdec : ~ ~ recognized U fd) by (intros Hnot; rewrite Hn in H; [discriminate | exact Hnot]).
      unfold recognized in *.
      destruct (in_dec (list_eq_dec Z.eq_dec)
                  (strings_ToLower U (Type_ fd)) (map str recognizedTypes));
        [assumption | contradiction]. }
    destruct (typeFamily_range U fd base cls H) as (Hbase & Hcls & _).
    repeat split.
    + intros _. eexists _, cls. repeat split; [|exact Hcls].
      unfold applyAllowNull, applyUnsigned.
      destruct (AllowNull fd); [discriminate|].
      destruct (Unsigned fd && _); [discriminate|].
      cbn [integerTypes otherTypes app map In] in Hbase.
      repeat destruct Hbase as [<- | Hbase]; try discriminate. contradiction.
    + intros Hnot. contradiction.
    + intros _ _ _. exact Hrec.
  - apply typeFamily_None in H.
    repeat split.
    + intros Hrec. contradiction.
    + discriminate.
Qed.

Lemma C2_getType_total_or_error_witness :
  (recognized excerpt
     {| Name := str "id"; Type_ := str "BigInt"; Size := 20; Unsigned := true;
        AllowNull := false; Comment := [] |}
   /\ exists goType fieldClass,
        getType excerpt
          {| Name := str "id"; Type_ := str "BigInt"; Size := 20;
             Unsigned := true; AllowNull := false; Comment := [] |}
        = (goType, fieldClass, None)
        /\ goType <> []
        /\ In fieldClass (map str fieldClasses))
  /\ (~ recognized excerpt
        {| Name := str "id"; Type_ := str "uuid"; Size := 16; Unsigned := false;
           AllowNull := true; Comment := [] |}
      /\ getType excerpt
           {| Name := str "id"; Type_ := str "uuid"; Size := 16;
              Unsigned := false; AllowNull := true; Comment := [] |}
         = ([], [], Some (str "unknown field type uuid"))).
Proof.
  assert (Hyes : recognized excerpt
     {| Name := str "id"; Type_ := str "BigInt"; Size := 20; Unsigned := true;
        AllowNull := false; Comment := [] |})
    by (vm_compute; tauto).
  assert (Hno : ~ recognized excerpt
     {| Name := str "id"; Type_ := str "uuid"; Size := 16; Unsigned := false;
        AllowNull := true; Comment := [] |})
    by (vm_compute; intros H; repeat destruct H as [H | H]; discriminate || exact H).
  split.
  - split; [exact Hyes|].
    exact (proj1 (C2_getType_total_or_error excerpt _) Hyes).
  - split; [exact Hno|].
    exact (proj1 (proj2 (C2_getType_total_or_error excerpt _)) Hno).
Defined.

(** C3. Whenever [getType] succeeds, the scalar type is the family's type
    ([typeFamily], which does not look at the two flags) transformed
    afterwards: with [Unsigned] set and an integer family type (int8, int16,
    int32, int64) the type gets the prefix "u", the unsigned type of the same
    width; with [Unsigned] set and any other family type (float64, string,
    bool, sqlingo.WellKnownBinary) it is unchanged; then, with [AllowNull]
    set, it gets the pointer prefix "*", whatever the category is. *)
Theorem C3_unsigned_then_nullable (U : UnicodeTables) (fd : fieldDescriptor)
    (goType fieldClass : gostring)
    (Hok : getType U fd = (goType, fieldClass, None)) :
  exists base,
    typeFamily U fd = Some (base, fieldClass)
    /\ (forall unsigned allowNull,
          typeFamily U (withFlags fd unsigned allowNull) = Some (base, fieldClass))
    /\ In base (map str (integerTypes ++ otherTypes))
    /\ (isIntegerType base = true <-> In base (map str integerTypes))
    /\ goType
       = (if AllowNull fd then str "*" else [])
         ++ (if Unsigned fd && isIntegerType base then str "u" ++ base else base).
Proof.
  unfold getType in Hok.
  destruct (typeFamily U fd) as [[base cls]|] eqn:H; [|discriminate].
  injection Hok as <- <-.
  destruct (typeFamily_range U fd base cls H) as (Hbase & _ & _).
  exists base. repeat split.
  - intros. rewrite typeFamily_flags. exact H.
  - exact Hbase.
  - intros Hint. apply existsb_exists in Hint as (t & Ht & Heq).
    apply gostring_eqb_eq in Heq. subst base. apply in_map, Ht.
  - intros Hin. apply in_map_iff in Hin as (t & <- & Ht).
    apply existsb_exists. exists t. split; [exact Ht|].
    apply gostring_eqb_eq. reflexivity.
  - unfold applyAllowNull, applyUnsigned.
    rewrite (HasPrefix_int base Hbase).
    destruct (AllowNull fd); reflexivity.
Qed.

Lemma C3_unsigned_then_nullable_witness :
  getType excerpt
    {| Name := str "qty"; Type_ := str "INT"; Size := 10; Unsigned := true;
       AllowNull := true; Comment := [] |}
  = (str "*uint32", str "NumberField", None)
  /\ exists base,
       typeFamily excerpt
         {| Name := str "qty"; Type_ := str "INT"; Size := 10; Unsigned := true;
            AllowNull := true; Comment := [] |}
       = Some (base, str "NumberField")
       /\ str "*uint32" = str "*" ++ str "u" ++ base.
Proof.
  split; [reflexivity|].
  destruct (C3_unsigned_then_nullable excerpt
              {| Name := str "qty"; Type_ := str "INT"; Size := 10;
                 Unsigned := true; AllowNull := true; Comment := [] |}
              (str "*uint32") (str "NumberField") eq_refl)
    as (base & Hfam & _ & _ & _ & Heq).
  exists base. split; [exact Hfam|].
  injection Hfam as <-. reflexivity.
Defined.

(** ** Wrapper-type names *)

Lemma first_occurrence (x : Z) (a1 b1 a2 b2 : list Z) :
  ~ In x a1 -> ~ In x a2 -> a1 ++ x :: b1 = a2 ++ x :: b2 ->
  a1 = a2 /\ b1 = b2.
Proof.
  revert a2. induction a1 as [|c a1 IH]; intros [|d a2] H1 H2 Heq;
    cbn [app] in Heq.
  - split; congruence.
  - exfalso. apply H2. left. congruence.
  - exfalso. apply H1. left. congruence.
  - assert (Hcd : c = d) by congruence.
    assert (Htl : a1 ++ x :: b1 = a2 ++ x :: b2) by congruence.
    destruct (IH a2) as [Ha Hb]; auto.
    + intros Hin. apply H1. right. exact Hin.
    + intros Hin. apply H2. right. exact Hin.
    + split; congruence.
Qed.

Lemma last_occurrence (x : Z) (a1 b1 a2 b2 : list Z) :
  ~ In x b1 -> ~ In x b2 -> a1 ++ x :: b1 = a2 ++ x :: b2 ->
  a1 = a2 /\ b1 = b2.
Proof.
  intros H1 H2 Heq.
  apply (f_equal (@rev Z)) in Heq.
  rewrite !rev_app_distr in Heq. cbn [rev] in Heq.
  rewrite <- !app_assoc in Heq. cbn [app] in Heq.
  apply first_occurrence in Heq as [Hb Ha].
  - apply (f_equal (@rev Z)) in Ha, Hb.
    rewrite !rev_involutive in Ha, Hb. auto.
  - rewrite <- in_rev. exact H1.
  - rewrite <- in_rev. exact H2.
Qed.

Lemma wrapper_assoc (x : Z) (t c g : list Z) :
  t ++ [x] ++ c ++ [x] ++ g = (t ++ x :: c) ++ x :: g.
Proof.
  rewrite <- app_assoc. reflexivity.
Qed.

(** The wrapper-type name determines the class name and the field name it
    was built from, as neither holds an underscore. *)
Lemma fieldStructNameOf_inj (U : UnicodeTables)
    (fd1 fd2 : fieldDescriptor) (c1 g1 c2 g2 : gostring) :
  ~ In (ch "_") c1 -> ~ In (ch "_") g1 ->
  ~ In (ch "_") c2 -> ~ In (ch "_") g2 ->
  fieldStructNameOf U fd1 c1 g1 = fieldStructNameOf U fd2 c2 g2 ->
  strings_ToLower U (Type_ fd1) = strings_ToLower U (Type_ fd2)
  /\ c1 = c2 /\ g1 = g2.
Proof.
  intros Hc1 Hg1 Hc2 Hg2 Heq. unfold fieldStructNameOf in Heq.
  change (str "_") with [ch "_"] in Heq.
  rewrite !(wrapper_assoc (ch "_")) in Heq.
  apply last_occurrence in Heq as [Heq Hg]; try assumption.
  apply last_occurrence in Heq as [Ht Hc]; try assumption.
  auto.
Qed.

(** C9, as the code has it.  For two tables whose normalized identifiers
    differ, the wrapper-type names of any two columns, one from each table,
    are distinct: the normalized identifier of the table can be read off the
    name, between its last two underscores. *)
Theorem C9_wrapper_names_distinct (U : UnicodeTables) (HU : GoUnicode U)
    (forceCases : list gostring) (table1 table2 : gostring)
    (fd1 fd2 : fieldDescriptor)
    (Hclass : convertToExportedIdentifier U table1 forceCases
              <> convertToExportedIdentifier U table2 forceCases) :
  exists name1 name2,
    wrapperTypeName U forceCases table1 fd1 = Some name1
    /\ wrapperTypeName U forceCases table2 fd2 = Some name2
    /\ name1 <> name2.
Proof.
  unfold wrapperTypeName.
  rewrite !convertToExportedIdentifier_normalize in *.
  eexists _, _. repeat split. intros Heq.
  apply fieldStructNameOf_inj in Heq as (_ & Hc & _);
    try (apply normalize_no_underscore; assumption).
  apply Hclass. f_equal. exact Hc.
Qed.

Lemma C9_wrapper_names_distinct_witness :
  GoUnicode excerpt
  /\ convertToExportedIdentifier excerpt (str "orders") [str "ID"]
     <> convertToExportedIdentifier excerpt (str "users") [str "ID"]
  /\ exists name1 name2,
       wrapperTypeName excerpt [str "ID"] (str "orders")
         {| Name := str "id"; Type_ := str "bigint"; Size := 20;
            Unsigned := false; AllowNull := false; Comment := [] |} = Some name1
       /\ wrapperTypeName excerpt [str "ID"] (str "users")
            {| Name := str "id"; Type_ := str "bigint"; Size := 20;
               Unsigned := false; AllowNull := false; Comment := [] |} = Some name2
       /\ name1 <> name2.
Proof.
  assert (Hclass : convertToExportedIdentifier excerpt (str "orders") [str "ID"]
                   <> convertToExportedIdentifier excerpt (str "users") [str "ID"])
    by (vm_compute; discriminate).
  split; [exact excerpt_GoUnicode|].
  split; [exact Hclass|].
  exact (C9_wrapper_names_distinct excerpt excerpt_GoUnicode [str "ID"]
           (str "orders") (str "users") _ _ Hclass).
Defined.

(** C9 as stated fails: the distinct tables "user_info" and "userInfo" both
    normalize to "UserInfo", so their columns "id" of type int get the same
    wrapper-type name, "int_UserInfo_Id". *)
Lemma C9_counterexample :
  str "user_info" <> str "userInfo"
  /\ wrapperTypeName excerpt [] (str "user_info")
       {| Name := str "id"; Type_ := str "int"; Size := 11; Unsigned := false;
          AllowNull := false; Comment := [] |}
     = Some (str "int_UserInfo_Id")
  /\ wrapperTypeName excerpt [] (str "userInfo")
       {| Name := str "id"; Type_ := str "int"; Size := 11; Unsigned := false;
          AllowNull := false; Comment := [] |}
     = Some (str "int_UserInfo_Id").
Proof.
  repeat split; try reflexivity. discriminate.
Qed.


(** ** The table emitter *)

Section Emitter.

Variable U : UnicodeTables.
Variable P : platform.
Variable F : flags.
Variable sf : schemaFetcher.
Variable dbName : gostring.
Variable forceCases : list gostring.

Lemma emitField_model (tableName className tableObjectName : gostring)
    (b b' : tableBuffers) (fd : fieldDescriptor) :
  emitField U P sf tableName className tableObjectName forceCases b fd = Ret b' ->
  modelLines b' = modelLines b ++ modelFieldLine U forceCases fd
  /\ values b' = values b ++ valueItem U forceCases fd.
Proof.
  unfold emitField, modelFieldLine, valueItem.
  rewrite convertToExportedIdentifier_normalize. cbn [liftOption bindO].
  destruct (getType U fd) as [[goType fieldClass] [err|]]; [discriminate|].
  destruct (privateName fieldClass); cbn [liftOption bindO]; [|discriminate].
  intros H. injection H as <-. cbn [modelLines values fst].
  split; reflexivity.
Qed.

Lemma emitFields_model (tableName className tableObjectName : gostring)
    (fds : list fieldDescriptor) (b b' : tableBuffers) :
  emitFields U P sf tableName className tableObjectName forceCases fds b = Ret b' ->
  modelLines b'
    = modelLines b ++ List.concat (map (modelFieldLine U forceCases) fds)
  /\ values b' = values b ++ List.concat (map (valueItem U forceCases) fds).
Proof.
  revert b. induction fds as [|fd fds IH]; intros b H; cbn in H.
  - injection H as <-. cbn. rewrite !app_nil_r. auto.
  - destruct (emitField U P sf tableName className tableObjectName forceCases b fd)
      as [b1| | |] eqn:Hfd; cbn in H; try discriminate.
    apply emitField_model in Hfd as [Hm Hv].
    apply IH in H as [Hm' Hv'].
    rewrite Hm', Hv', Hm, Hv. cbn [map List.concat].
    rewrite <- !app_assoc. auto.
Qed.

(** With [force] set, [WriteToFile] writes the file or fails to open it. *)
Lemma WriteToFile_force (buffer outputFile : gostring) :
  WriteToFile P buffer outputFile true
  = match os_OpenFile P outputFile with
    | Some err => ([], Fail err)
    | None => ([FileWritten outputFile buffer], Ret tt)
    end.
Proof.
  unfold WriteToFile, PathExists.
  destruct (os_Stat P outputFile); cbn; reflexivity.
Qed.

(** A call of [generateTable] asks for the columns of its table and, when
    it returns nil, has written the table's unit, and nothing else. *)
Lemma generateTable_cases (tableName : gostring) :
  (exists o, generateTable U P F sf dbName tableName forceCases
             = ([GetFieldDescriptorsCalled tableName], o)
             /\ o <> Ret tt)
  \/ (exists fds b,
        GetFieldDescriptors sf tableName = inl fds
        /\ emitFields U P sf tableName (normalize U tableName forceCases)
             (str "o" ++ normalize U tableName forceCases) forceCases fds
             (initialBuffers (str "o" ++ normalize U tableName forceCases))
           = Ret b
        /\ generateTable U P F sf dbName tableName forceCases
           = ([GetFieldDescriptorsCalled tableName;
               FileWritten (tableUnitPath (outputPath F) tableName)
                 (tableUnit P dbName tableName
                    (normalize U tableName forceCases) b)],
              Ret tt)).
Proof.
  unfold generateTable.
  destruct (GetFieldDescriptors sf tableName) as [fds|err] eqn:Hfds.
  - rewrite convertToExportedIdentifier_normalize. cbn [liftOption].
    unfold pure, emit. cbn [bind app].
    destruct (emitFields _ _ _ _ _ _ _ fds _) as [b| | |] eqn:Hb; cbn [bind app].
    + rewrite WriteToFile_force.
      destruct (os_OpenFile P _); cbn.
      * left. eexists. split; [reflexivity | discriminate].
      * right. exists fds, b. auto.
    + left. eexists. split; [reflexivity | discriminate].
    + left. eexists. split; [reflexivity | discriminate].
    + left. eexists. split; [reflexivity | discriminate].
  - left. eexists. split; [reflexivity | discriminate].
Qed.

(** The loop over the table names: either every table was fetched and
    written, in order, or the run stopped at a table whose unit was not
    written, after writing the units of the tables before it. *)
Lemma generateTables_trace (names : list gostring) (tr : list event)
    (o : outcome unit) :
  generateTables U P F sf dbName names forceCases = (tr, o) ->
  tableNamesQueries tr = []
  /\ ((o = Ret tt /\ fetchedTables tr = names
       /\ writtenPaths tr = map (tableUnitPath (outputPath F)) names)
      \/ (o <> Ret tt
          /\ exists done t rest,
               names = done ++ t :: rest
               /\ fetchedTables tr = done ++ [t]
               /\ writtenPaths tr = map (tableUnitPath (outputPath F)) done)).
Proof.
  revert tr o. induction names as [|t names IH]; intros tr o H.
  - injection H as <- <-. cbn. auto.
  - cbn [generateTables] in H. unfold emit in H. cbn [bind] in H.
    destruct (generateTable_cases t) as [(o1 & Ht & Ho1) | (fds & b & _ & _ & Ht)];
      rewrite Ht in H.
    + destruct o1 as [[]| | |]; [congruence| | |];
        cbn in H; injection H as <- <-; (split; [reflexivity|]);
        right; (split; [discriminate|]); exists [], t, names; auto.
    + cbn [bind] in H.
      destruct (generateTables U P F sf dbName names forceCases)
        as [tr' o'] eqn:Hrest.
      injection H as <- <-.
      destruct (IH tr' o' eq_refl) as [Hq Hcases].
      unfold fetchedTables, writtenPaths, writtenFiles, tableNamesQueries in *.
      split; [exact Hq|].
      destruct Hcases as [(-> & Hf & Hw) | (Hne & done & t' & rest & -> & Hf & Hw)].
      * left. cbn. rewrite Hf, Hw. auto.
      * right. split; [exact Hne|].
        exists (t :: done), t', rest. cbn. rewrite Hf, Hw. auto.
Qed.

End Emitter.

(** ** The orchestrator *)

Lemma generateUnits_cases (U : UnicodeTables) (P : platform) (F : flags)
    (sf : schemaFetcher) (dbName : gostring)
    (explicitTables forceCases : list gostring) (tr : list event)
    (o : outcome unit) :
  generateUnits U P F sf dbName explicitTables forceCases = (tr, o) ->
  let queries :=
    match explicitTables with [] => [GetTableNamesCalled] | _ :: _ => [] end in
  (tr = queries /\ o <> Ret tt)
  \/ (exists names getTable tr',
        match explicitTables with
        | [] => GetTableNames sf = inl names
        | _ :: _ => names = explicitTables
        end
        /\ tr = queries
                ++ FileWritten (baseUnitPath (outputPath F))
                     (baseDeclarations dbName ++ getTable) :: tr'
        /\ generateTables U P F sf dbName names forceCases = (tr', o)).
Proof.
  intros H queries. unfold generateUnits in H.
  assert (Hwrite : forall names pre,
    bind (pre, Ret names)
      (fun tableNames =>
         getTable <- pure (generateGetTable U P
                       {| dataSourceName := databaseConnection F;
                          tableNames := tableNames;
                          forceCases := forceCases |});;
         WriteToFile P (baseDeclarations dbName ++ getTable)
           (baseUnitPath (outputPath F)) true;;
         generateTables U P F sf dbName tableNames forceCases) = (tr, o) ->
    (tr = pre /\ o <> Ret tt)
    \/ (exists getTable tr',
          tr = pre ++ FileWritten (baseUnitPath (outputPath F))
                        (baseDeclarations dbName ++ getTable) :: tr'
          /\ generateTables U P F sf dbName names forceCases = (tr', o))).
  { intros names pre Hb. cbn [bind] in Hb. unfold pure in Hb.
    destruct (generateGetTable U P _) as [getTable| | |]; cbn [bind] in Hb.
    - rewrite WriteToFile_force in Hb.
      destruct (os_OpenFile P _); cbn [bind] in Hb.
      + injection Hb as <- <-. left. rewrite app_nil_r. split; [auto | discriminate].
      + destruct (generateTables U P F sf dbName names forceCases) as [tr' o'].
        injection Hb as <- <-. right. exists getTable, tr'. auto.
    - injection Hb as <- <-. left. rewrite app_nil_r. split; [auto | discriminate].
    - injection Hb as <- <-. left. rewrite app_nil_r. split; [auto | discriminate].
    - injection Hb as <- <-. left. rewrite app_nil_r. split; [auto | discriminate]. }
  destruct explicitTables as [|t ts].
  - unfold emit, ret, pure in H.
    destruct (GetTableNames sf) as [names|err] eqn:Hnames.
    + change (bind ([GetTableNamesCalled], Ret tt) (fun _ => ([], Ret names)))
        with ([GetTableNamesCalled], Ret names) in H.
      apply Hwrite in H as [H | (getTable & tr' & Htr & Hrest)].
      * left. exact H.
      * right. exists names, getTable, tr'. auto.
    + cbn in H. injection H as <- <-. left. split; [reflexivity | discriminate].
  - unfold ret in H.
    apply Hwrite in H as [H | (getTable & tr' & Htr & Hrest)].
    + left. exact H.
    + right. exists (t :: ts), getTable, tr'. auto.
Qed.

Ltac quiet_run :=
  left; unfold quietTrace; cbn; repeat split; try reflexivity; discriminate.

Lemma Generate_cases {DB : Type} (U : UnicodeTables) (P : platform)
    (D : drivers DB) (F : flags) (driverName exampleDataSourceName : gostring)
    (tr : list event) (o : outcome unit) :
  Generate U P D F driverName exampleDataSourceName = (tr, o) ->
  (quietTrace tr /\ o <> Ret tt)
  \/ (exists db sf dbName tr',
        sql_Open D driverName (databaseConnection F) = inl db
        /\ fetcherOf D driverName db = Some sf
        /\ GetDatabaseName sf = inl dbName
        /\ tr = GetDatabaseNameCalled :: tr'
        /\ generateUnits U P F sf dbName (explicitTablesOf F) (forceCasesOf F)
           = (tr', o)).
Proof.
  unfold Generate, printUsageAndExit, getSchemaFetcherFactory, fetcherOf.
  intros H. unfold emit, pure, ret in H.
  destruct (isEmpty (outputPath F));
    [cbn in H; injection H as <- <-; quiet_run|].
  destruct (isEmpty (databaseConnection F));
    [cbn in H; injection H as <- <-; quiet_run|].
  cbn [bind app] in H.
  destruct (sql_Open D driverName (databaseConnection F)) as [db|err];
    [|injection H as <- <-; quiet_run].
  destruct (gostring_eqb driverName (str "mysql"));
    [|destruct (gostring_eqb driverName (str "sqlite3"));
      [|destruct (gostring_eqb driverName (str "postgres"))]].
  4: { cbn in H. injection H as <- <-. quiet_run. }
  all: cbn [bind app] in H;
    match type of H with
    | context [GetDatabaseName ?sf] =>
        destruct (GetDatabaseName sf) as [dbName|err] eqn:Hdb;
        [ destruct (isEmpty dbName);
          [ cbn in H; injection H as <- <-; quiet_run
          | destruct (generateUnits U P F sf dbName (explicitTablesOf F)
                        (forceCasesOf F)) as [tr' o'] eqn:Hgen;
            cbn in H; injection H as <- <-;
            right; exists db, sf, dbName, tr'; auto ]
        | cbn in H; injection H as <- <-; quiet_run ]
    end.
Qed.

Lemma concat_split (pieces : list (list Z)) (n : nat) :
  List.concat pieces
  = List.concat (firstn n pieces) ++ List.concat (skipn n pieces).
Proof.
  rewrite <- concat_app, firstn_skipn. reflexivity.
Qed.

(** Where the model record and the value sequence stand in a table unit. *)
Lemma tableUnit_layout (P : platform) (dbName tableName className : gostring)
    (b : tableBuffers) :
  exists pre mid post,
    tableUnit P dbName tableName className b
    = pre
      ++ (str "type " ++ (className ++ str "Model") ++ str " struct {" ++ nl)
      ++ modelLines b
      ++ (str "}" ++ nl ++ nl)
      ++ mid
      ++ (str "func (m " ++ (className ++ str "Model")
          ++ str ") GetValues() []interface{} {" ++ nl)
      ++ (tab ++ str "return []interface{}{" ++ values b ++ str "}" ++ nl)
      ++ post.
Proof.
  unfold tableUnit.
  set (pieces := tableUnitPieces P dbName tableName className b).
  exists (List.concat (firstn 25 pieces)),
         (List.concat (firstn 3 (skipn 28 pieces))),
         (List.concat (skipn 33 pieces)).
  rewrite (concat_split pieces 25).
  f_equal.
  subst pieces. unfold tableUnitPieces.
  cbn [firstn skipn List.concat].
  rewrite !app_nil_r, <- !app_assoc. reflexivity.
Qed.

(** C4. Every table unit that [generateTable] emits is built from the column
    descriptors the fetcher returned for the table: the body of the model
    record is the concatenation, in the descriptors' order, of one field
    declaration per column, and the list inside GetValues is the
    concatenation, in the same order, of one value per column, so that the
    i-th declaration and the i-th value both belong to the i-th column. *)
Theorem C4_column_order (U : UnicodeTables) (P : platform) (F : flags)
    (sf : schemaFetcher) (dbName tableName : gostring)
    (forceCases : list gostring) (tr : list event) (o : outcome unit)
    (path content : gostring)
    (Hrun : generateTable U P F sf dbName tableName forceCases = (tr, o))
    (Hunit : In (FileWritten path content) tr) :
  exists fds b pre mid post,
    GetFieldDescriptors sf tableName = inl fds
    /\ path = tableUnitPath (outputPath F) tableName
    /\ content
       = pre
         ++ (str "type " ++ (normalize U tableName forceCases ++ str "Model")
             ++ str " struct {" ++ nl)
         ++ modelLines b
         ++ (str "}" ++ nl ++ nl)
         ++ mid
         ++ (str "func (m " ++ (normalize U tableName forceCases ++ str "Model")
             ++ str ") GetValues() []interface{} {" ++ nl)
         ++ (tab ++ str "return []interface{}{" ++ values b ++ str "}" ++ nl)
         ++ post
    /\ modelLines b = List.concat (map (modelFieldLine U forceCases) fds)
    /\ values b = List.concat (map (valueItem U forceCases) fds)
    /\ (forall i fd, nth_error fds i = Some fd ->
          nth_error (map (modelFieldLine U forceCases) fds) i
            = Some (modelFieldLine U forceCases fd)
          /\ nth_error (map (valueItem U forceCases) fds) i
             = Some (valueItem U forceCases fd)).
Proof.
  destruct (generateTable_cases U P F sf dbName forceCases tableName)
    as [(o1 & Ht & _) | (fds & b & Hfds & Hb & Ht)];
    rewrite Ht in Hrun; injection Hrun as <- <-.
  - destruct Hunit as [Hev | []]. discriminate Hev.
  - destruct Hunit as [Hev | [Hev | []]]; [discriminate Hev|].
    injection Hev as <- <-.
    apply emitFields_model in Hb as [Hm Hv]. cbn [initialBuffers modelLines values app] in Hm, Hv.
    destruct (tableUnit_layout P dbName tableName
                (normalize U tableName forceCases) b) as (pre & mid & post & Hlay).
    exists fds, b, pre, mid, post.
    repeat split; auto.
    + apply map_nth_error. assumption.
    + apply map_nth_error. assumption.
Qed.

Lemma C4_column_order_witness :
  exists content fds b pre mid post,
    In (FileWritten (str "out/orders.go") content)
       (fst (generateTable excerpt Example.machine (Example.commandLine "")
               Example.shop (str "shop") (str "orders") []))
    /\ GetFieldDescriptors Example.shop (str "orders") = inl fds
    /\ content
       = pre ++ (str "type OrdersModel struct {" ++ nl) ++ modelLines b
         ++ (str "}" ++ nl ++ nl) ++ mid
         ++ (str "func (m OrdersModel) GetValues() []interface{} {" ++ nl)
         ++ (tab ++ str "return []interface{}{" ++ values b ++ str "}" ++ nl)
         ++ post
    /\ modelLines b
       = tab ++ str "Id int64" ++ nl ++ tab ++ str "Total float64" ++ nl
         ++ tab ++ str "Note *string" ++ nl
    /\ values b = str "m.Id, m.Total, m.Note, ".
Proof.
  pose (run := generateTable excerpt Example.machine (Example.commandLine "")
                 Example.shop (str "shop") (str "orders") []).
  pose (content := match fst run with
                   | [_; FileWritten _ c] => c
                   | _ => []
                   end).
  assert (Hin : In (FileWritten (str "out/orders.go") content) (fst run))
    by (right; left; vm_compute; reflexivity).
  destruct (C4_column_order excerpt Example.machine (Example.commandLine "")
              Example.shop (str "shop") (str "orders") [] (fst run) (snd run)
              (str "out/orders.go") content
              (surjective_pairing run) Hin)
    as (fds & b & pre & mid & post & Hfds & _ & Hc & Hm & Hv & _).
  exists content, fds, b, pre, mid, post.
  split; [exact Hin|].
  split; [exact Hfds|].
  split; [exact Hc|].
  injection Hfds as <-.
  split; [rewrite Hm | rewrite Hv]; vm_compute; reflexivity.
Defined.

Lemma splitComma_nonempty (s : gostring) : splitComma s <> [].
Proof.
  destruct s as [|r s]; cbn [splitComma]; [discriminate|].
  destruct (rune_eqb r (ch ",")); [discriminate|].
  destruct (splitComma s); discriminate.
Qed.

Lemma isEmpty_false (s : gostring) : s <> [] -> isEmpty s = false.
Proof.
  destruct s; [congruence | reflexivity].
Qed.

Lemma guardCompiles_iff (v : Z) :
  guardCompiles v = true <-> v = sqlingoGeneratorVersion.
Proof.
  unfold guardCompiles, fitsUint32, sqlingoGeneratorVersion.
  rewrite !andb_true_iff, !Z.leb_le, !Z.ltb_lt. lia.
Qed.

Lemma baseDeclarations_guard (dbName getTable : gostring) :
  exists more,
    baseDeclarations dbName ++ getTable
    = newBuffWithBaseHeader dbName
      ++ (str "type sqlingoRuntimeAndGeneratorVersionsShouldBeTheSame uint32"
          ++ nl ++ nl)
      ++ versionGuard ++ more.
Proof.
  unfold baseDeclarations. cbn [List.concat].
  rewrite <- !app_assoc. eexists. reflexivity.
Qed.

(** C6. The first unit a run of [Generate] emits is the base unit, no other
    unit is emitted without it, and its text holds, after the header and the
    declaration of the guard type, the version-guard pair: the two constants
    [T(sqlingo.SqlingoRuntimeVersion - 2)] and
    [T(2 - sqlingo.SqlingoRuntimeVersion)], 2 being [sqlingoGeneratorVersion]
    and [T] an unsigned type.  Both constants are representable, so the
    consumer's build passes, exactly when the runtime version is 2. *)
Theorem C6_version_guard {DB : Type} (U : UnicodeTables) (P : platform)
    (D : drivers DB) (F : flags) (driverName exampleDataSourceName : gostring)
    (tr : list event) (o : outcome unit) (path content : gostring)
    (rest : list (gostring * gostring))
    (Hrun : Generate U P D F driverName exampleDataSourceName = (tr, o))
    (Hfirst : writtenFiles tr = (path, content) :: rest) :
  path = baseUnitPath (outputPath F)
  /\ (exists dbName more,
        content
        = newBuffWithBaseHeader dbName
          ++ (str "type sqlingoRuntimeAndGeneratorVersionsShouldBeTheSame uint32"
              ++ nl ++ nl)
          ++ versionGuard ++ more)
  /\ versionGuard
     = str "const _ = sqlingoRuntimeAndGeneratorVersionsShouldBeTheSame(sqlingo.SqlingoRuntimeVersion - 2)"
       ++ nl
       ++ str "const _ = sqlingoRuntimeAndGeneratorVersionsShouldBeTheSame(2 - sqlingo.SqlingoRuntimeVersion)"
       ++ nl ++ nl
  /\ sqlingoGeneratorVersion = 2
  /\ (forall sqlingoRuntimeVersion,
        guardCompiles sqlingoRuntimeVersion = true
        <-> sqlingoRuntimeVersion = sqlingoGeneratorVersion).
Proof.
  assert (Hunit : path = baseUnitPath (outputPath F)
                  /\ exists dbName getTable,
                       content = baseDeclarations dbName ++ getTable).
  { apply Generate_cases in Hrun
      as [[(Hw & _) _] | (db & sf & dbName & tr' & _ & _ & _ & -> & Hgen)];
      [rewrite Hw in Hfirst; discriminate|].
    apply generateUnits_cases in Hgen.
    destruct (explicitTablesOf F) as [|t ts]; cbn zeta iota in Hgen;
      destruct Hgen as [[-> _] | (names & getTable & tr2 & _ & -> & _)];
      unfold writtenFiles in Hfirst; cbn [flat_map app] in Hfirst;
      try discriminate;
      injection Hfirst as <- <- _;
      (split; [reflexivity | exists dbName, getTable; reflexivity]). }
  destruct Hunit as (Hpath & dbName & getTable & ->).
  split; [exact Hpath|].
  split; [exists dbName; apply baseDeclarations_guard|].
  split; [vm_compute; reflexivity|].
  split; [reflexivity|].
  apply guardCompiles_iff.
Qed.

Lemma C6_version_guard_witness :
  exists content rest dbName more,
    writtenFiles (fst (Example.run "orders"))
    = (str "out/base.dsl.go", content) :: rest
    /\ content
       = newBuffWithBaseHeader dbName
         ++ (str "type sqlingoRuntimeAndGeneratorVersionsShouldBeTheSame uint32"
             ++ nl ++ nl)
         ++ versionGuard ++ more.
Proof.
  pose (files := writtenFiles (fst (Example.run "orders"))).
  pose (content := match files with (_, c) :: _ => c | [] => [] end).
  assert (Hfirst : files = (str "out/base.dsl.go", content) :: tl files)
    by (vm_compute; reflexivity).
  destruct (C6_version_guard excerpt Example.machine Example.registered
              (Example.commandLine "orders") (str "mysql")
              (str "username:password@tcp(hostname:3306)/database")
              (fst (Example.run "orders")) (snd (Example.run "orders"))
              (str "out/base.dsl.go") content (tl files)
              (surjective_pairing (Example.run "orders")) Hfirst)
    as (_ & (dbName & more & Hc) & _).
  exists content, (tl files), dbName, more.
  split; [exact Hfirst | exact Hc].
Defined.

(** * Further properties of the package *)

(** ** [ensureIdentifier] *)

Lemma isWordRune_ascii (r : rune) : isWordRune r = true -> isASCII r.
Proof.
  unfold isWordRune, ascii_digit, ascii_letter, ascii_upper, ascii_lower,
    rune_eqb, isASCII, ch. cbn. intros H. zbool.
Qed.

Lemma isWordRune_cases (r : rune) :
  isWordRune r = true ->
  ascii_digit r = true \/ ascii_letter r = true \/ r = ch "_".
Proof.
  unfold isWordRune, rune_eqb. intros H.
  apply orb_true_iff in H as [H | H]; [apply orb_true_iff in H as [H | H]|]; auto.
  apply Z.eqb_eq in H. auto.
Qed.

Lemma replaced_word (name : gostring) :
  forallb isWordRune
    (map (fun r => if isWordRune r then r else ch "_") name) = true.
Proof.
  apply forallb_forall. intros r Hr.
  apply in_map_iff in Hr as (c & <- & _).
  destruct (isWordRune c) eqn:Hc; [exact Hc | reflexivity].
Qed.

Lemma replaced_fixed (name : gostring) :
  forallb isWordRune name = true ->
  map (fun r => if isWordRune r then r else ch "_") name = name.
Proof.
  induction name as [|r name IH]; cbn [forallb map]; [reflexivity|].
  intros H. apply andb_true_iff in H as [Hr Hname].
  rewrite Hr, IH by exact Hname. reflexivity.
Qed.

Lemma ensureIdentifier_isWordName (name : gostring) :
  isWordName (ensureIdentifier name) = true.
Proof.
  unfold ensureIdentifier, isWordName.
  pose proof (replaced_word name) as Hword.
  destruct (map _ name) as [|r result] eqn:Hmap.
  - reflexivity.
  - cbn [isEmpty gostring_eqb orb].
    change ((ch "0" <=? r) && (r <=? ch "9")) with (ascii_digit r).
    destruct (ascii_digit r) eqn:Hd.
    + set (l := r :: result) in *.
      change (str "_" ++ l) with (ch "_" :: l).
      change (forallb isWordRune (ch "_" :: l))
        with (isWordRune (ch "_") && forallb isWordRune l).
      rewrite Hword. reflexivity.
    + cbn [gostring_eqb negb andb startsWithDigit].
      rewrite Hword, Hd. reflexivity.
Qed.

Lemma isWordName_fixed (name : gostring) :
  isWordName name = true -> ensureIdentifier name = name.
Proof.
  unfold isWordName, ensureIdentifier. intros H.
  apply andb_true_iff in H as [H Hdigit].
  apply andb_true_iff in H as [Hne Hword].
  rewrite (replaced_fixed name Hword).
  destruct name as [|r name]; [discriminate|].
  cbn [isEmpty gostring_eqb orb].
  change ((ch "0" <=? r) && (r <=? ch "9")) with (ascii_digit r).
  cbn [startsWithDigit] in Hdigit.
  destruct (ascii_digit r); [discriminate | reflexivity].
Qed.

Lemma isWordName_isIdentifier (U : UnicodeTables) (HU : GoUnicode U)
    (s : gostring) :
  isWordName s = true -> isIdentifier U s = true.
Proof.
  intros Hname. unfold isWordName in Hname.
  apply andb_true_iff in Hname as [H Hdigit].
  apply andb_true_iff in H as [Hne Hword].
  destruct s as [|r rest]; [discriminate|].
  cbn [forallb] in Hword. apply andb_true_iff in Hword as [Hr Hrest].
  cbn [startsWithDigit] in Hdigit. cbn [isIdentifier].
  apply andb_true_iff. split.
  - pose proof (isWordRune_ascii r Hr) as Hascii.
    rewrite IsLetter_ascii by exact Hascii.
    destruct (isWordRune_cases r Hr) as [Hd | [Hl | ->]].
    + rewrite Hd in Hdigit. discriminate.
    + rewrite Hl. reflexivity.
    + unfold rune_eqb. rewrite Z.eqb_refl. apply orb_true_r.
  - apply forallb_forall. intros c Hc.
    rewrite forallb_forall in Hrest. specialize (Hrest c Hc).
    pose proof (isWordRune_ascii c Hrest) as Hascii.
    unfold isIdentifierRune.
    rewrite IsLetter_ascii, IsDigit_ascii by exact Hascii.
    destruct (isWordRune_cases c Hrest) as [Hd | [Hl | ->]].
    + rewrite Hd. apply orb_true_iff. left. apply orb_true_r.
    + rewrite Hl. reflexivity.
    + unfold rune_eqb. rewrite Z.eqb_refl. apply orb_true_r.
Qed.

(** A keyword is a word of lower-case letters. *)
Lemma keyword_word (s : gostring) :
  isKeyword s = true -> isWordName s = true /\ ~ In (ch "_") s.
Proof.
  unfold isKeyword. intros H.
  apply existsb_exists in H as (k & Hin & Heq).
  apply gostring_eqb_eq in Heq. subst k.
  unfold keywords in Hin. cbn [map In] in Hin.
  repeat (destruct Hin as [<- | Hin];
          [split; [vm_compute; reflexivity
                  | vm_compute; intros H;
                    repeat (destruct H as [H | H]; [discriminate H|]); exact H]|]).
  contradiction.
Qed.

(** A name that [ensureIdentifier] changes gets an underscore. *)
Lemma ensureIdentifier_underscore (name : gostring) :
  isWordName name = false -> In (ch "_") (ensureIdentifier name).
Proof.
  intros Hname. unfold ensureIdentifier.
  destruct (forallb isWordRune name) eqn:Hword.
  - rewrite (replaced_fixed name Hword).
    unfold isWordName in Hname. rewrite Hword in Hname.
    destruct name as [|r name]; [left; reflexivity|].
    cbn [isEmpty gostring_eqb negb andb startsWithDigit orb] in *.
    change ((ch "0" <=? r) && (r <=? ch "9")) with (ascii_digit r).
    destruct (ascii_digit r); [left; reflexivity | discriminate].
  - assert (Hin : In (ch "_")
                    (map (fun r => if isWordRune r then r else ch "_") name)).
    { clear Hname. induction name as [|r name IH]; [discriminate|].
      cbn [forallb map] in *.
      destruct (isWordRune r); [right; apply IH; exact Hword | left; reflexivity]. }
    destruct (isEmpty _ || _); [right; exact Hin | exact Hin].
Qed.

Lemma ensureIdentifier_keyword (name : gostring) :
  isKeyword (ensureIdentifier name) = isKeyword name.
Proof.
  destruct (isWordName name) eqn:Hname.
  - rewrite (isWordName_fixed name Hname). reflexivity.
  - destruct (isKeyword name) eqn:Hk.
    + apply keyword_word in Hk as [Hw _]. congruence.
    + destruct (isKeyword (ensureIdentifier name)) eqn:Hk'; [|reflexivity].
      apply keyword_word in Hk' as [_ Hno].
      exfalso. apply Hno, ensureIdentifier_underscore, Hname.
Qed.

(** X1. Whatever the name, [ensureIdentifier] returns a non-empty string over
    [0-9A-Za-z_] that does not start with a digit.  It does not protect a
    keyword: the result is a keyword of Go exactly when the name is one
    (which it then returns unchanged), so the result is a name that a Go
    program can declare exactly when the name is no keyword. *)
Theorem X1_ensureIdentifier_identifier (U : UnicodeTables) (HU : GoUnicode U)
    (name : gostring) :
  isWordName (ensureIdentifier name) = true
  /\ isKeyword (ensureIdentifier name) = isKeyword name
  /\ (isKeyword name = true -> ensureIdentifier name = name)
  /\ isGoIdentifier U (ensureIdentifier name) = negb (isKeyword name).
Proof.
  split; [apply ensureIdentifier_isWordName|].
  split; [apply ensureIdentifier_keyword|].
  split.
  - intros Hk. apply isWordName_fixed. apply keyword_word. exact Hk.
  - unfold isGoIdentifier.
    rewrite (isWordName_isIdentifier U HU _ (ensureIdentifier_isWordName name)).
    rewrite ensureIdentifier_keyword. reflexivity.
Qed.

Lemma X1_ensureIdentifier_identifier_witness :
  GoUnicode excerpt
  /\ ensureIdentifier (str "2nd-shop db") = str "_2nd_shop_db"
  /\ isGoIdentifier excerpt (ensureIdentifier (str "2nd-shop db")) = true
  /\ ensureIdentifier (str "func") = str "func"
  /\ isGoIdentifier excerpt (ensureIdentifier (str "func")) = false.
Proof.
  split; [exact excerpt_GoUnicode|].
  split; [reflexivity|].
  destruct (X1_ensureIdentifier_identifier excerpt excerpt_GoUnicode
              (str "2nd-shop db")) as (_ & _ & _ & Hshop).
  destruct (X1_ensureIdentifier_identifier excerpt excerpt_GoUnicode
              (str "func")) as (_ & _ & Hfixed & Hfunc).
  split; [rewrite Hshop; reflexivity|].
  split; [apply Hfixed; reflexivity|].
  rewrite Hfunc. reflexivity.
Defined.

(** X2. [ensureIdentifier] leaves a name unchanged exactly when the name is
    already non-empty, over [0-9A-Za-z_] and not starting with a digit;
    applying it twice is the same as applying it once; and it keeps the
    length of the name or adds one character. *)
Theorem X2_ensureIdentifier_fixed_points (name : gostring) :
  (ensureIdentifier name = name <-> isWordName name = true)
  /\ ensureIdentifier (ensureIdentifier name) = ensureIdentifier name
  /\ (List.length (ensureIdentifier name) = List.length name
      \/ List.length (ensureIdentifier name) = S (List.length name)).
Proof.
  repeat split.
  - intros Hfix. rewrite <- Hfix. apply ensureIdentifier_isWordName.
  - apply isWordName_fixed.
  - apply isWordName_fixed, ensureIdentifier_isWordName.
  - unfold ensureIdentifier.
    destruct (isEmpty _ || _).
    + right. cbn. rewrite length_map. reflexivity.
    + left. apply length_map.
Qed.

(** ** The header of a unit *)

Lemma isWordName_app (a b : gostring) :
  isWordName a = true -> forallb isWordRune b = true ->
  isWordName (a ++ b) = true.
Proof.
  unfold isWordName. intros Ha Hb.
  apply andb_true_iff in Ha as [Ha Hdigit].
  apply andb_true_iff in Ha as [Hne Hword].
  destruct a as [|r a]; [discriminate|].
  cbn [app isEmpty gostring_eqb negb andb startsWithDigit] in *.
  rewrite Hdigit, andb_true_r.
  change (r :: a ++ b) with ((r :: a) ++ b).
  rewrite forallb_app, Hword, Hb. reflexivity.
Qed.

(** X3. The header of every unit is the two provenance comments, a package
    clause and the import of the runtime; the package name is the sanitized
    name followed by "_dsl", an identifier over [0-9A-Za-z_] whatever the
    database is called. *)
Theorem X3_header_package (U : UnicodeTables) (HU : GoUnicode U)
    (packageName : gostring) :
  exists package,
    newBuffWithBaseHeader packageName
    = str "// This file is generated by sqlingo (https://github.com/lqs/sqlingo)"
      ++ nl ++ str "// DO NOT EDIT." ++ nl ++ nl
      ++ str "package " ++ package ++ nl
      ++ str "import " ++ dquote ++ str "github.com/lqs/sqlingo" ++ dquote
      ++ nl ++ nl
    /\ package = ensureIdentifier packageName ++ str "_dsl"
    /\ isWordName package = true
    /\ isIdentifier U package = true.
Proof.
  exists (ensureIdentifier packageName ++ str "_dsl").
  assert (Hname : isWordName (ensureIdentifier packageName ++ str "_dsl") = true)
    by (apply isWordName_app; [apply ensureIdentifier_isWordName | reflexivity]).
  repeat split.
  - unfold newBuffWithBaseHeader. cbn [List.concat].
    rewrite app_nil_r, <- !app_assoc. reflexivity.
  - exact Hname.
  - apply (isWordName_isIdentifier U HU), Hname.
Qed.

Lemma X3_header_package_witness :
  GoUnicode excerpt
  /\ exists package,
       package = str "my_shop_dsl"
       /\ isIdentifier excerpt package = true.
Proof.
  split; [exact excerpt_GoUnicode|].
  destruct (X3_header_package excerpt excerpt_GoUnicode (str "my-shop"))
    as (package & _ & Hp & _ & Hid).
  exists package. split; [rewrite Hp; reflexivity | exact Hid].
Defined.

(** Every file written by the loop over the tables starts with the header
    for [dbName]. *)
Lemma generateTables_headers (U : UnicodeTables) (P : platform) (F : flags)
    (sf : schemaFetcher) (dbName : gostring) (forceCases names : list gostring)
    (tr : list event) (o : outcome unit) :
  generateTables U P F sf dbName names forceCases = (tr, o) ->
  Forall (fun file => exists rest,
            snd file = newBuffWithBaseHeader dbName ++ rest)
         (writtenFiles tr).
Proof.
  revert tr o. induction names as [|t names IH]; intros tr o H.
  - injection H as <- <-. constructor.
  - cbn [generateTables] in H. unfold emit in H. cbn [bind] in H.
    destruct (generateTable_cases U P F sf dbName forceCases t)
      as [(o1 & Ht & Ho1) | (fds & b & _ & _ & Ht)]; rewrite Ht in H.
    + destruct o1 as [[]| | |]; [congruence| | |];
        cbn in H; injection H as <- <-; constructor.
    + cbn [bind] in H.
      destruct (generateTables U P F sf dbName names forceCases)
        as [tr' o'] eqn:Hrest.
      injection H as <- <-.
      unfold writtenFiles in *. cbn [flat_map app].
      constructor; [|exact (IH tr' o' eq_refl)].
      cbn [snd]. unfold tableUnit, tableUnitPieces. cbn [List.concat].
      eexists. reflexivity.
Qed.

(** X4. All the units of a run are in one package: every file that
    [Generate] writes starts with the header made from the database name
    that GetDatabaseName returned, which is not empty. *)
Theorem X4_units_share_header {DB : Type} (U : UnicodeTables) (P : platform)
    (D : drivers DB) (F : flags) (driverName exampleDataSourceName : gostring)
    (tr : list event) (o : outcome unit) (path content : gostring)
    (Hrun : Generate U P D F driverName exampleDataSourceName = (tr, o))
    (Hfile : In (path, content) (writtenFiles tr)) :
  exists db sf dbName,
    sql_Open D driverName (databaseConnection F) = inl db
    /\ fetcherOf D driverName db = Some sf
    /\ GetDatabaseName sf = inl dbName
    /\ dbName <> []
    /\ forall p c, In (p, c) (writtenFiles tr) ->
                   exists rest, c = newBuffWithBaseHeader dbName ++ rest.
Proof.
  pose proof Hrun as Hrun0.
  apply Generate_cases in Hrun
    as [[(Hw & _) _] | (db & sf & dbName & tr' & Hdb & Hsf & Hname & -> & Hgen)];
    [rewrite Hw in Hfile; destruct Hfile|].
  exists db, sf, dbName.
  assert (Hne : dbName <> []).
  { intros ->. unfold Generate, printUsageAndExit, getSchemaFetcherFactory,
      fetcherOf in *.
    unfold emit, pure, ret in Hrun0.
    destruct (isEmpty (outputPath F)); [cbn in Hrun0; discriminate|].
    destruct (isEmpty (databaseConnection F)); [cbn in Hrun0; discriminate|].
    cbn [bind app] in Hrun0. rewrite Hdb in Hrun0.
    destruct (gostring_eqb driverName (str "mysql"));
      [|destruct (gostring_eqb driverName (str "sqlite3"));
        [|destruct (gostring_eqb driverName (str "postgres"))]];
      try discriminate;
      injection Hsf as <-; cbn [bind app] in Hrun0; rewrite Hname in Hrun0;
      cbn in Hrun0; injection Hrun0 as Htr _; rewrite <- Htr in Hfile;
      destruct Hfile. }
  repeat split; auto.
  intros p c Hin.
  apply generateUnits_cases in Hgen.
  destruct Hgen as [[-> _] | (names & getTable & tr2 & _ & -> & Htabs)].
  - destruct (explicitTablesOf F); destruct Hin.
  - apply generateTables_headers in Htabs.
    unfold writtenFiles in *.
    assert (Hin' : In (p, c)
              ((baseUnitPath (outputPath F), baseDeclarations dbName ++ getTable)
               :: flat_map (fun e => match e with
                                     | FileWritten path content => [(path, content)]
                                     | _ => []
                                     end) tr2)).
    { destruct (explicitTablesOf F); exact Hin. }
    destruct Hin' as [Heq | Hin'].
    + injection Heq as <- <-. unfold baseDeclarations. cbn [List.concat].
      rewrite <- app_assoc. eexists. reflexivity.
    + rewrite Forall_forall in Htabs. exact (Htabs (p, c) Hin').
Qed.

Lemma X4_units_share_header_witness :
  exists dbName,
    dbName = str "shop"
    /\ forall p c, In (p, c) (writtenFiles (fst (Example.run ""))) ->
                   exists rest, c = newBuffWithBaseHeader dbName ++ rest.
Proof.
  pose (files := writtenFiles (fst (Example.run ""))).
  assert (Hfile : In (hd ([], []) files) files) by (left; reflexivity).
  destruct (X4_units_share_header excerpt Example.machine Example.registered
              (Example.commandLine "") (str "mysql")
              (str "username:password@tcp(hostname:3306)/database")
              (fst (Example.run "")) (snd (Example.run ""))
              (fst (hd ([], []) files)) (snd (hd ([], []) files))
              (surjective_pairing (Example.run ""))
              (eq_ind _ (fun f => In f files) Hfile _
                 (surjective_pairing (hd ([], []) files))))
    as (db & sf & dbName & _ & Hsf & Hname & _ & Hall).
  exists dbName. split; [|exact Hall].
  injection Hsf as <-. injection Hname as <-. reflexivity.
Defined.

(** ** [Generate] before the first unit *)

Lemma isEmpty_true (s : gostring) : isEmpty s = true <-> s = [].
Proof.
  destruct s; split; try reflexivity; try discriminate.
Qed.

(** [Generate] once the driver is open and the fetcher chosen. *)
Lemma Generate_after_open {DB : Type} (U : UnicodeTables) (P : platform)
    (D : drivers DB) (F : flags) (driverName exampleDataSourceName : gostring)
    (db : DB) (sf : schemaFetcher) :
  outputPath F <> [] -> databaseConnection F <> [] ->
  sql_Open D driverName (databaseConnection F) = inl db ->
  fetcherOf D driverName db = Some sf ->
  Generate U P D F driverName exampleDataSourceName
  = bind (emit GetDatabaseNameCalled) (fun _ =>
      match GetDatabaseName sf with
      | inr err => pure (Fail err)
      | inl dbName =>
          if isEmpty dbName then pure (Fail (str "no database selected"))
          else generateUnits U P F sf dbName (explicitTablesOf F) (forceCasesOf F)
      end).
Proof.
  intros Ho Hd Hopen Hsf.
  unfold Generate, getSchemaFetcherFactory, fetcherOf in *.
  rewrite (isEmpty_false _ Ho), (isEmpty_false _ Hd), Hopen.
  unfold ret, emit, pure. cbn [bind app].
  destruct (gostring_eqb driverName (str "mysql"));
    [|destruct (gostring_eqb driverName (str "sqlite3"));
      [|destruct (gostring_eqb driverName (str "postgres"))]];
    try discriminate; injection Hsf as <-; cbn [bind app];
    destruct (GetDatabaseName _) as [dbName|err]; try reflexivity;
    destruct (isEmpty dbName); try reflexivity;
    destruct (generateUnits _ _ _ _ _ _ _) as [tr' o']; reflexivity.
Qed.

(** X5. Without an output path or without a database connection, [Generate]
    prints the usage text to the standard error stream and exits with
    status 1: the driver is not opened, no fetcher is asked, no file is
    written, whatever the driver name is. *)
Theorem X5_usage_exit {DB : Type} (U : UnicodeTables) (P : platform)
    (D : drivers DB) (F : flags) (driverName exampleDataSourceName : gostring)
    (Hmissing : outputPath F = [] \/ databaseConnection F = []) :
  exists usage,
    Generate U P D F driverName exampleDataSourceName
    = ([StderrWritten usage], Exit 1)
    /\ usage
       = str "Usage:" ++ nl ++ tab ++ os_Args0 P
         ++ str " -o outpath -d datasource [-t table1,table2,...] [-forcecases ID,IDs,HTML] dataSourceName"
         ++ nl ++ str "Example:" ++ nl ++ tab ++ os_Args0 P ++ str " " ++ dquote
         ++ str "-o ./ -d " ++ exampleDataSourceName ++ dquote ++ nl.
Proof.
  eexists. split.
  - unfold Generate, printUsageAndExit, emit, pure, ret.
    destruct (isEmpty (outputPath F)) eqn:Ho; [reflexivity|].
    destruct Hmissing as [H | H]; [rewrite H in Ho; discriminate|].
    rewrite H. reflexivity.
  - cbn [List.concat]. rewrite app_nil_r, <- !app_assoc. reflexivity.
Qed.

Lemma X5_usage_exit_witness :
  outputPath {| outputPath := []; databaseConnection := str "user:pw@/shop";
                tables := []; forcecases := [] |} = []
  /\ exists usage,
       Generate excerpt Example.machine Example.registered
         {| outputPath := []; databaseConnection := str "user:pw@/shop";
            tables := []; forcecases := [] |}
         (str "oracle") (str "dsn")
       = ([StderrWritten usage], Exit 1).
Proof.
  split; [reflexivity|].
  destruct (X5_usage_exit excerpt Example.machine Example.registered
              {| outputPath := []; databaseConnection := str "user:pw@/shop";
                 tables := []; forcecases := [] |}
              (str "oracle") (str "dsn") (or_introl eq_refl))
    as (usage & Hrun & _).
  exists usage. exact Hrun.
Defined.

(** X6. With both flags given, [Generate] opens the driver before it looks
    at the driver name: an error of sql.Open is returned as it is, also for
    a name the package does not support; when the open succeeds and the name
    is none of "mysql", "sqlite3" and "postgres" (compared exactly), the run
    prints "unsupported driver" with the name and exits with status 2.  In
    both cases no fetcher is asked and no file is written. *)
Theorem X6_driver_errors {DB : Type} (U : UnicodeTables) (P : platform)
    (D : drivers DB) (F : flags) (driverName exampleDataSourceName : gostring)
    (Hout : outputPath F <> []) (Hdbc : databaseConnection F <> []) :
  (forall err,
     sql_Open D driverName (databaseConnection F) = inr err ->
     Generate U P D F driverName exampleDataSourceName = ([], Fail err))
  /\ (forall db,
        sql_Open D driverName (databaseConnection F) = inl db ->
        ~ In driverName [str "mysql"; str "sqlite3"; str "postgres"] ->
        Generate U P D F driverName exampleDataSourceName
        = ([StderrWritten (str "unsupported driver " ++ driverName ++ nl)],
           Exit 2)).
Proof.
  unfold Generate, getSchemaFetcherFactory.
  rewrite (isEmpty_false _ Hout), (isEmpty_false _ Hdbc).
  unfold ret, emit, pure. cbn [bind app].
  split.
  - intros err ->. reflexivity.
  - intros db -> Hnot.
    assert (Hneq : forall name, In name [str "mysql"; str "sqlite3"; str "postgres"] ->
                                gostring_eqb driverName name = false).
    { intros name Hin. destruct (gostring_eqb driverName name) eqn:Heq; [|reflexivity].
      apply gostring_eqb_eq in Heq. subst name. contradiction. }
    rewrite !Hneq by (cbn; auto). reflexivity.
Qed.

Lemma X6_driver_errors_witness :
  outputPath (Example.commandLine "") <> []
  /\ databaseConnection (Example.commandLine "") <> []
  /\ ~ In (str "MySQL") [str "mysql"; str "sqlite3"; str "postgres"]
  /\ Generate excerpt Example.machine Example.registered (Example.commandLine "")
       (str "MySQL") (str "dsn")
     = ([StderrWritten (str "unsupported driver MySQL" ++ nl)], Exit 2).
Proof.
  assert (Hout : outputPath (Example.commandLine "") <> []) by discriminate.
  assert (Hdbc : databaseConnection (Example.commandLine "") <> []) by discriminate.
  assert (Hnot : ~ In (str "MySQL") [str "mysql"; str "sqlite3"; str "postgres"])
    by (intros H; repeat destruct H as [H | H]; discriminate || exact H).
  split; [exact Hout|]. split; [exact Hdbc|]. split; [exact Hnot|].
  exact (proj2 (X6_driver_errors excerpt Example.machine Example.registered
                  (Example.commandLine "") (str "MySQL") (str "dsn") Hout Hdbc)
               tt eq_refl Hnot).
Defined.

(** X7. When the database cannot be named or the tables cannot be listed,
    the run returns the error and writes nothing: an error of
    GetDatabaseName or, with no -t list, of GetTableNames is returned as it
    is, and an empty database name gives "no database selected" without
    GetTableNames being called. *)
Theorem X7_discovery_errors {DB : Type} (U : UnicodeTables) (P : platform)
    (D : drivers DB) (F : flags) (driverName exampleDataSourceName : gostring)
    (db : DB) (sf : schemaFetcher)
    (Hout : outputPath F <> []) (Hdbc : databaseConnection F <> [])
    (Hopen : sql_Open D driverName (databaseConnection F) = inl db)
    (Hsf : fetcherOf D driverName db = Some sf) :
  (forall err,
     GetDatabaseName sf = inr err ->
     Generate U P D F driverName exampleDataSourceName
     = ([GetDatabaseNameCalled], Fail err))
  /\ (GetDatabaseName sf = inl [] ->
      Generate U P D F driverName exampleDataSourceName
      = ([GetDatabaseNameCalled], Fail (str "no database selected")))
  /\ (forall dbName err,
        GetDatabaseName sf = inl dbName -> dbName <> [] ->
        tables F = [] -> GetTableNames sf = inr err ->
        Generate U P D F driverName exampleDataSourceName
        = ([GetDatabaseNameCalled; GetTableNamesCalled], Fail err)).
Proof.
  rewrite (Generate_after_open U P D F driverName exampleDataSourceName db sf)
    by assumption.
  unfold emit, pure.
  repeat split.
  - intros err ->. reflexivity.
  - intros ->. reflexivity.
  - intros dbName err -> Hne Htables Hnames.
    rewrite (isEmpty_false _ Hne).
    unfold generateUnits, explicitTablesOf. rewrite Htables, Hnames. reflexivity.
Qed.

Lemma X7_discovery_errors_witness :
  Generate excerpt Example.machine
    {| sql_Open := fun _ _ => inl tt;
       newMySQLSchemaFetcher := fun _ =>
         {| GetDatabaseName := inl [];
            GetTableNames := inl [];
            GetFieldDescriptors := fun _ => inl [];
            QuoteIdentifier := fun s => s |};
       newSQLite3SchemaFetcher := fun _ => Example.shop;
       newPostgresSchemaFetcher := fun _ => Example.shop |}
    (Example.commandLine "") (str "mysql") (str "dsn")
  = ([GetDatabaseNameCalled], Fail (str "no database selected")).
Proof.
  pose (nameless := {| GetDatabaseName := inl [];
                       GetTableNames := inl [];
                       GetFieldDescriptors := fun _ => inl [];
                       QuoteIdentifier := fun s => s |}).
  pose (D := {| sql_Open := fun _ _ => inl tt;
                newMySQLSchemaFetcher := fun _ : unit => nameless;
                newSQLite3SchemaFetcher := fun _ => Example.shop;
                newPostgresSchemaFetcher := fun _ => Example.shop |}).
  assert (Hout : outputPath (Example.commandLine "") <> []) by discriminate.
  assert (Hdbc : databaseConnection (Example.commandLine "") <> []) by discriminate.
  exact (proj1 (proj2 (X7_discovery_errors excerpt Example.machine D
                         (Example.commandLine "") (str "mysql") (str "dsn")
                         tt nameless Hout Hdbc eq_refl eq_refl))
               eq_refl).
Defined.

(** ** How a table ends *)

Lemma recognized_dec (U : UnicodeTables) (fd : fieldDescriptor) :
  {recognized U fd} + {~ recognized U fd}.
Proof.
  unfold recognized. apply in_dec, list_eq_dec, Z.eq_dec.
Qed.

Lemma first_unrecognized (U : UnicodeTables) (fds : list fieldDescriptor) :
  Forall (recognized U) fds
  \/ exists good bad rest,
       fds = good ++ bad :: rest
       /\ Forall (recognized U) good /\ ~ recognized U bad.
Proof.
  induction fds as [|fd fds IH].
  - left. constructor.
  - destruct (recognized_dec U fd) as [Hfd | Hfd].
    + destruct IH as [Hall | (good & bad & rest & -> & Hgood & Hbad)].
      * left. constructor; assumption.
      * right. exists (fd :: good), bad, rest. repeat split; auto.
    + right. exists [], fd, fds. repeat split; auto.
Qed.

Lemma privateName_fieldClass (fieldClass : gostring) :
  In fieldClass (map str fieldClasses) ->
  exists p, privateName fieldClass = Some p
            /\ In p (map str ["numberField"; "stringField"; "booleanField";
                              "wellKnownBinaryField"]).
Proof.
  cbn [fieldClasses map In]. intros H.
  repeat destruct H as [<- | H]; try contradiction;
    eexists; (split; [reflexivity | vm_compute; tauto]).
Qed.

Section TableOutcome.

Variable U : UnicodeTables.
Variable P : platform.
Variable F : flags.
Variable sf : schemaFetcher.
Variable dbName : gostring.
Variable forceCases : list gostring.

Lemma emitField_recognized (tableName className tableObjectName : gostring)
    (b : tableBuffers) (fd : fieldDescriptor) :
  recognized U fd ->
  exists b', emitField U P sf tableName className tableObjectName forceCases b fd
             = Ret b'.
Proof.
  intros Hfd. unfold emitField, getType.
  rewrite convertToExportedIdentifier_normalize. cbn [liftOption bindO].
  destruct (typeFamily U fd) as [[base cls]|] eqn:Hfam.
  - destruct (typeFamily_range U fd base cls Hfam) as (_ & Hcls & _).
    destruct (privateName_fieldClass cls Hcls) as (p & -> & _).
    cbn [liftOption bindO]. eexists. reflexivity.
  - apply typeFamily_None in Hfam. contradiction.
Qed.

Lemma emitField_unrecognized (tableName className tableObjectName : gostring)
    (b : tableBuffers) (fd : fieldDescriptor) :
  ~ recognized U fd ->
  emitField U P sf tableName className tableObjectName forceCases b fd
  = Fail (str "unknown field type " ++ Type_ fd).
Proof.
  intros Hfd. unfold emitField, getType.
  rewrite convertToExportedIdentifier_normalize. cbn [liftOption bindO].
  apply typeFamily_None in Hfd. rewrite Hfd. reflexivity.
Qed.

Lemma emitFields_recognized (tableName className tableObjectName : gostring)
    (fds : list fieldDescriptor) (b : tableBuffers) :
  Forall (recognized U) fds ->
  exists b', emitFields U P sf tableName className tableObjectName forceCases
               fds b = Ret b'.
Proof.
  intros Hall. revert b. induction Hall as [|fd fds Hfd _ IH]; intros b.
  - exists b. reflexivity.
  - cbn [emitFields].
    destruct (emitField_recognized tableName className tableObjectName b fd Hfd)
      as [b1 ->].
    cbn [bindO]. apply IH.
Qed.

Lemma emitFields_unrecognized (tableName className tableObjectName : gostring)
    (good : list fieldDescriptor) (bad : fieldDescriptor)
    (rest : list fieldDescriptor) (b : tableBuffers) :
  Forall (recognized U) good -> ~ recognized U bad ->
  emitFields U P sf tableName className tableObjectName forceCases
    (good ++ bad :: rest) b
  = Fail (str "unknown field type " ++ Type_ bad).
Proof.
  intros Hgood Hbad. revert b. induction Hgood as [|fd good Hfd _ IH]; intros b.
  - cbn [app emitFields]. rewrite emitField_unrecognized by exact Hbad. reflexivity.
  - cbn [app emitFields].
    destruct (emitField_recognized tableName className tableObjectName b fd Hfd)
      as [b1 ->].
    cbn [bindO]. apply IH.
Qed.

(** The four ways in which [generateTable] ends. *)
Lemma generateTable_outcomes (tableName : gostring) :
  let run := generateTable U P F sf dbName tableName forceCases in
  let path := tableUnitPath (outputPath F) tableName in
  (forall err, GetFieldDescriptors sf tableName = inr err ->
               run = ([GetFieldDescriptorsCalled tableName], Fail err))
  /\ (forall good bad rest,
        GetFieldDescriptors sf tableName = inl (good ++ bad :: rest) ->
        Forall (recognized U) good -> ~ recognized U bad ->
        run = ([GetFieldDescriptorsCalled tableName],
               Fail (str "unknown field type " ++ Type_ bad)))
  /\ (forall fds err,
        GetFieldDescriptors sf tableName = inl fds ->
        Forall (recognized U) fds -> os_OpenFile P path = Some err ->
        run = ([GetFieldDescriptorsCalled tableName], Fail err))
  /\ (forall fds,
        GetFieldDescriptors sf tableName = inl fds ->
        Forall (recognized U) fds -> os_OpenFile P path = None ->
        exists content,
          run = ([GetFieldDescriptorsCalled tableName; FileWritten path content],
                 Ret tt)).
Proof.
  cbn zeta. unfold generateTable, emit, pure.
  repeat split.
  - intros err ->. reflexivity.
  - intros good bad rest -> Hgood Hbad.
    rewrite convertToExportedIdentifier_normalize. cbn [liftOption bind app].
    rewrite emitFields_unrecognized by assumption. reflexivity.
  - intros fds err -> Hall Hopen.
    rewrite convertToExportedIdentifier_normalize. cbn [liftOption bind app].
    destruct (emitFields_recognized tableName (normalize U tableName forceCases)
                (str "o" ++ normalize U tableName forceCases) fds
                (initialBuffers (str "o" ++ normalize U tableName forceCases)) Hall)
      as [b ->].
    rewrite WriteToFile_force, Hopen. reflexivity.
  - intros fds -> Hall Hopen.
    rewrite convertToExportedIdentifier_normalize. cbn [liftOption bind app].
    destruct (emitFields_recognized tableName (normalize U tableName forceCases)
                (str "o" ++ normalize U tableName forceCases) fds
                (initialBuffers (str "o" ++ normalize U tableName forceCases)) Hall)
      as [b ->].
    rewrite WriteToFile_force, Hopen. eexists. reflexivity.
Qed.

Lemma generateTable_returns (tableName : gostring) :
  snd (generateTable U P F sf dbName tableName forceCases) = Ret tt
  \/ exists err,
       snd (generateTable U P F sf dbName tableName forceCases) = Fail err.
Proof.
  destruct (GetFieldDescriptors sf tableName) as [fds|err] eqn:Hfds.
  - destruct (first_unrecognized U fds)
      as [Hall | (good & bad & rest & Hsplit & Hgood & Hnot)].
    + destruct (os_OpenFile P (tableUnitPath (outputPath F) tableName))
        as [err|] eqn:Ho.
      * right. exists err.
        destruct (generateTable_outcomes tableName) as (_ & _ & Hopen & _).
        rewrite (Hopen fds err Hfds Hall Ho). reflexivity.
      * left.
        destruct (generateTable_outcomes tableName) as (_ & _ & _ & Hok).
        destruct (Hok fds Hfds Hall Ho) as [content ->]. reflexivity.
    + right. eexists.
      destruct (generateTable_outcomes tableName) as (_ & Hbad & _).
      rewrite Hsplit in Hfds.
      rewrite (Hbad good bad rest Hfds Hgood Hnot). reflexivity.
  - right. exists err.
    destruct (generateTable_outcomes tableName) as (Herr & _).
    rewrite (Herr err Hfds). reflexivity.
Qed.

Lemma generateTables_returns (names : list gostring) :
  snd (generateTables U P F sf dbName names forceCases) = Ret tt
  \/ exists err,
       snd (generateTables U P F sf dbName names forceCases) = Fail err.
Proof.
  induction names as [|t names IH].
  - left. reflexivity.
  - cbn [generateTables]. unfold emit. cbn [bind].
    destruct (generateTable U P F sf dbName t forceCases) as [tr1 o1] eqn:Ht.
    pose proof (generateTable_returns t) as Hret. rewrite Ht in Hret.
    cbn [snd] in Hret.
    destruct Hret as [-> | [err ->]].
    + cbn [bind].
      destruct (generateTables U P F sf dbName names forceCases) as [tr2 o2].
      cbn [snd] in *. exact IH.
    + right. exists err. reflexivity.
Qed.

End TableOutcome.

Lemma generateTable_ends (U : UnicodeTables) (P : platform) (F : flags)
    (sf : schemaFetcher) (dbName tableName : gostring)
    (forceCases : list gostring) :
  let run := generateTable U P F sf dbName tableName forceCases in
  let path := tableUnitPath (outputPath F) tableName in
  (exists err, GetFieldDescriptors sf tableName = inr err
               /\ run = ([GetFieldDescriptorsCalled tableName], Fail err))
  \/ (exists good bad rest,
        GetFieldDescriptors sf tableName = inl (good ++ bad :: rest)
        /\ Forall (recognized U) good /\ ~ recognized U bad
        /\ run = ([GetFieldDescriptorsCalled tableName],
                  Fail (str "unknown field type " ++ Type_ bad)))
  \/ (exists fds err,
        GetFieldDescriptors sf tableName = inl fds
        /\ Forall (recognized U) fds /\ os_OpenFile P path = Some err
        /\ run = ([GetFieldDescriptorsCalled tableName], Fail err))
  \/ (exists fds content,
        GetFieldDescriptors sf tableName = inl fds
        /\ Forall (recognized U) fds /\ os_OpenFile P path = None
        /\ run = ([GetFieldDescriptorsCalled tableName; FileWritten path content],
                  Ret tt)).
Proof.
  cbn zeta.
  destruct (generateTable_outcomes U P F sf dbName forceCases tableName)
    as (Herr & Hbad & Hopen & Hok).
  destruct (GetFieldDescriptors sf tableName) as [fds|err].
  - destruct (first_unrecognized U fds)
      as [Hall | (good & bad & rest & -> & Hgood & Hnot)].
    + destruct (os_OpenFile P (tableUnitPath (outputPath F) tableName))
        as [err|].
      * right. right. left. exists fds, err.
        repeat split; auto. exact (Hopen fds err eq_refl Hall eq_refl).
      * right. right. right. destruct (Hok fds eq_refl Hall eq_refl) as [content Hc].
        exists fds, content. repeat split; auto.
    + right. left. exists good, bad, rest.
      repeat split; auto. exact (Hbad good bad rest eq_refl Hgood Hnot).
  - left. exists err. split; [reflexivity | exact (Herr err eq_refl)].
Qed.

(** X8. [generateTable] writes the table's unit and returns nil exactly when
    the fetcher returns the columns, every column has a recognized type and
    the file can be opened.  In every other case it writes no file, not even
    a partial one, and returns an error: with an unrecognized type among the
    columns, the "unknown field type" error of the first such column. *)
Theorem X8_table_all_or_nothing (U : UnicodeTables) (P : platform) (F : flags)
    (sf : schemaFetcher) (dbName tableName : gostring)
    (forceCases : list gostring) (tr : list event) (o : outcome unit)
    (Hrun : generateTable U P F sf dbName tableName forceCases = (tr, o)) :
  (o = Ret tt
   <-> exists fds,
         GetFieldDescriptors sf tableName = inl fds
         /\ Forall (recognized U) fds
         /\ os_OpenFile P (tableUnitPath (outputPath F) tableName) = None)
  /\ (o = Ret tt ->
      exists content,
        tr = [GetFieldDescriptorsCalled tableName;
              FileWritten (tableUnitPath (outputPath F) tableName) content])
  /\ (o <> Ret tt ->
      tr = [GetFieldDescriptorsCalled tableName] /\ exists err, o = Fail err)
  /\ (forall good bad rest,
        GetFieldDescriptors sf tableName = inl (good ++ bad :: rest) ->
        Forall (recognized U) good -> ~ recognized U bad ->
        o = Fail (str "unknown field type " ++ Type_ bad)).
Proof.
  destruct (generateTable_outcomes U P F sf dbName forceCases tableName)
    as (_ & Hbad & _ & _).
  cbn zeta in Hbad.
  assert (Hunknown : forall good bad rest,
            GetFieldDescriptors sf tableName = inl (good ++ bad :: rest) ->
            Forall (recognized U) good -> ~ recognized U bad ->
            o = Fail (str "unknown field type " ++ Type_ bad)).
  { intros good bad rest Hfd Hgood Hnot.
    rewrite (Hbad good bad rest Hfd Hgood Hnot) in Hrun. congruence. }
  destruct (generateTable_ends U P F sf dbName tableName forceCases)
    as [(err & Hfd & Heq) | [(good & bad & rest & Hfd & Hgood & Hnot & Heq)
        | [(fds & err & Hfd & Hall & Hopen & Heq)
           | (fds & content & Hfd & Hall & Hopen & Heq)]]];
    cbn zeta in Heq; rewrite Heq in Hrun; injection Hrun as Htr Ho;
    subst tr o.
  - repeat split; try discriminate; eauto.
    intros (fds & Hfd' & _). congruence.
  - repeat split; try discriminate; eauto.
    intros (fds & Hfd' & Hall & _). exfalso.
    rewrite Hfd in Hfd'. injection Hfd' as <-.
    apply Hnot. rewrite Forall_forall in Hall. apply Hall.
    apply in_or_app. right. left. reflexivity.
  - repeat split; try discriminate; eauto.
    intros (fds' & Hfd' & _ & Hopen'). congruence.
  - repeat split; eauto; try contradiction.
Qed.

Lemma X8_table_all_or_nothing_witness :
  generateTable excerpt Example.machine (Example.commandLine "")
    {| GetDatabaseName := inl (str "shop");
       GetTableNames := inl [str "t"];
       GetFieldDescriptors := fun _ =>
         inl ([Example.column "id" "bigint" false]
              ++ Example.column "key" "uuid" false
              :: [Example.column "at" "timestamptz" false]);
       QuoteIdentifier := fun s => s |}
    (str "shop") (str "t") []
  = ([GetFieldDescriptorsCalled (str "t")],
     Fail (str "unknown field type uuid")).
Proof.
  pose (sf := {| GetDatabaseName := inl (str "shop");
                 GetTableNames := inl [str "t"];
                 GetFieldDescriptors := fun _ =>
                   inl ([Example.column "id" "bigint" false]
                        ++ Example.column "key" "uuid" false
                        :: [Example.column "at" "timestamptz" false]);
                 QuoteIdentifier := fun s => s |}).
  pose (run := generateTable excerpt Example.machine (Example.commandLine "")
                 sf (str "shop") (str "t") []).
  assert (Hgood : Forall (recognized excerpt) [Example.column "id" "bigint" false])
    by (repeat constructor; vm_compute; tauto).
  assert (Hbad : ~ recognized excerpt (Example.column "key" "uuid" false))
    by (vm_compute; intros H; repeat destruct H as [H | H]; discriminate || exact H).
  pose proof (proj2 (proj2 (proj2
    (X8_table_all_or_nothing excerpt Example.machine (Example.commandLine "")
       sf (str "shop") (str "t") [] (fst run) (snd run)
       (surjective_pairing run))))
    _ _ _ eq_refl Hgood Hbad) as Ho.
  change (run = ([GetFieldDescriptorsCalled (str "t")],
                 Fail (str "unknown field type uuid"))).
  rewrite (surjective_pairing run), Ho. reflexivity.
Defined.

(** ** No panic *)

Lemma getTableCases_Ret (U : UnicodeTables) (P : platform)
    (names forceCases : list gostring) :
  getTableCases U P names forceCases
  = Ret (List.concat (map (getTableCase U P forceCases) names)).
Proof.
  induction names as [|t names IH]; [reflexivity|].
  cbn [getTableCases]. rewrite convertToExportedIdentifier_normalize, IH.
  cbn [liftOption bindO map List.concat]. unfold getTableCase.
  rewrite <- !app_assoc. reflexivity.
Qed.

Lemma getTablesItems_Ret (U : UnicodeTables) (names forceCases : list gostring) :
  getTablesItems U names forceCases
  = Ret (List.concat (map (getTablesItem U forceCases) names)).
Proof.
  induction names as [|t names IH]; [reflexivity|].
  cbn [getTablesItems]. rewrite convertToExportedIdentifier_normalize, IH.
  cbn [liftOption bindO map List.concat]. unfold getTablesItem.
  rewrite <- !app_assoc. reflexivity.
Qed.

Lemma generateGetTable_Ret (U : UnicodeTables) (P : platform) (opts : options) :
  exists text, generateGetTable U P opts = Ret text.
Proof.
  unfold generateGetTable.
  rewrite getTableCases_Ret, getTablesItems_Ret. cbn [bindO].
  eexists. reflexivity.
Qed.

Lemma generateUnits_returns (U : UnicodeTables) (P : platform) (F : flags)
    (sf : schemaFetcher) (dbName : gostring)
    (explicitTables forceCases : list gostring) :
  snd (generateUnits U P F sf dbName explicitTables forceCases) = Ret tt
  \/ exists err,
       snd (generateUnits U P F sf dbName explicitTables forceCases) = Fail err.
Proof.
  assert (Hrest : forall names pre,
    let m := bind (pre, Ret names) (fun tableNames =>
         getTable <- pure (generateGetTable U P
                       {| dataSourceName := databaseConnection F;
                          tableNames := tableNames;
                          forceCases := forceCases |});;
         WriteToFile P (baseDeclarations dbName ++ getTable)
           (baseUnitPath (outputPath F)) true;;
         generateTables U P F sf dbName tableNames forceCases) in
    snd m = Ret tt \/ exists err, snd m = Fail err).
  { intros names pre. cbn zeta. cbn [bind]. unfold pure.
    destruct (generateGetTable_Ret U P
                {| dataSourceName := databaseConnection F;
                   tableNames := names; forceCases := forceCases |}) as [text ->].
    cbn [bind]. rewrite WriteToFile_force.
    destruct (os_OpenFile P _) as [err|]; cbn [bind].
    - right. exists err. reflexivity.
    - pose proof (generateTables_returns U P F sf dbName forceCases names) as H.
      destruct (generateTables U P F sf dbName names forceCases) as [tr o].
      exact H. }
  unfold generateUnits.
  destruct explicitTables as [|t ts].
  - unfold emit, ret, pure.
    destruct (GetTableNames sf) as [names|err].
    + exact (Hrest names [GetTableNamesCalled]).
    + right. exists err. reflexivity.
  - exact (Hrest (t :: ts) []).
Qed.

(** How a run of [Generate] can end. *)
Lemma Generate_ends {DB : Type} (U : UnicodeTables) (P : platform)
    (D : drivers DB) (F : flags) (driverName exampleDataSourceName : gostring) :
  let '(tr, o) := Generate U P D F driverName exampleDataSourceName in
  o <> Panic
  /\ (forall code, o = Exit code ->
        (code = 1 \/ code = 2)
        /\ tr = filter (fun e => match e with StderrWritten _ => true | _ => false end)
                  tr).
Proof.
  unfold Generate, printUsageAndExit, getSchemaFetcherFactory.
  unfold emit, pure, ret.
  destruct (isEmpty (outputPath F));
    [cbn; split; [discriminate | intros code [= <-]; auto]|].
  destruct (isEmpty (databaseConnection F));
    [cbn; split; [discriminate | intros code [= <-]; auto]|].
  cbn [bind app].
  destruct (sql_Open D driverName (databaseConnection F)) as [db|err];
    [|split; [discriminate | intros code [=]]].
  destruct (gostring_eqb driverName (str "mysql"));
    [|destruct (gostring_eqb driverName (str "sqlite3"));
      [|destruct (gostring_eqb driverName (str "postgres"))]].
  4: { cbn. split; [discriminate | intros code [= <-]; auto]. }
  all: cbn [bind app];
    match goal with
    | |- context [GetDatabaseName ?sf] =>
        destruct (GetDatabaseName sf) as [dbName|err];
        [ destruct (isEmpty dbName);
          [ cbn; split; [discriminate | intros code [=]]
          | pose proof (generateUnits_returns U P F sf dbName (explicitTablesOf F)
                          (forceCasesOf F)) as Hret;
            destruct (generateUnits U P F sf dbName (explicitTablesOf F)
                        (forceCasesOf F)) as [tr' o'];
            cbn [snd] in Hret; cbn;
            destruct Hret as [-> | [err ->]];
            (split; [discriminate | intros code [=]]) ]
        | cbn; split; [discriminate | intros code [=]] ]
    end.
Qed.

(** X9. No run of [Generate] panics: neither the index into the words of a
    name nor the first byte of the field class is ever out of range.  A run
    ends the process in three places only: inside [flag.Parse], with the
    library's message and status and nothing else done; with status 1 after
    the usage text; with status 2 for an unsupported driver.  In each case
    the run has written to the standard error stream only.  Every other run
    returns nil or an error.  With the statuses of Go's flag library (0 for
    -h and -help, 2 for a flag it rejects) the status is 0, 1 or 2. *)
Theorem X9_no_panic {DB : Type} (U : UnicodeTables) (P : platform)
    (D : drivers DB) (commandLine : parsed)
    (driverName exampleDataSourceName : gostring) :
  let '(tr, o) :=
    GenerateCommand U P D commandLine driverName exampleDataSourceName in
  o <> Panic
  /\ (forall code, o = Exit code ->
        ((exists message,
            commandLine = ParseExit message code
            /\ tr = [StderrWritten message])
         \/ (exists F, commandLine = Parsed F /\ (code = 1 \/ code = 2)))
        /\ tr = filter (fun e => match e with StderrWritten _ => true | _ => false end)
                  tr
        /\ ((forall message code',
               commandLine = ParseExit message code' -> code' = 0 \/ code' = 2) ->
            code = 0 \/ code = 1 \/ code = 2))
  /\ (forall F, commandLine = Parsed F ->
        (tr, o) = Generate U P D F driverName exampleDataSourceName).
Proof.
  unfold GenerateCommand, flag_Parse.
  destruct commandLine as [F | message code0].
  - unfold ret. cbn [bind].
    pose proof (Generate_ends U P D F driverName exampleDataSourceName) as H.
    destruct (Generate U P D F driverName exampleDataSourceName) as [tr o]
      eqn:Hgen.
    cbn [app]. destruct H as [Hnp Hexit].
    split; [exact Hnp|]. split.
    + intros code Ho. destruct (Hexit code Ho) as [Hcode Htr].
      split; [right; exists F; split; [reflexivity | exact Hcode]|].
      split; [exact Htr|]. intros _. tauto.
    + intros F' [= <-]. symmetry. exact Hgen.
  - unfold emit, pure. cbn [bind app].
    split; [discriminate|]. split.
    + intros code [= <-].
      split; [left; exists message; split; reflexivity|].
      split; [reflexivity|].
      intros Hlib. destruct (Hlib message code0 eq_refl) as [-> | ->]; tauto.
    + intros F [=].
Qed.

(** ** The other buffers of a table unit *)

Lemma generateTable_written (U : UnicodeTables) (P : platform) (F : flags)
    (sf : schemaFetcher) (dbName tableName : gostring)
    (forceCases : list gostring) (tr : list event) (o : outcome unit)
    (path content : gostring) :
  generateTable U P F sf dbName tableName forceCases = (tr, o) ->
  In (FileWritten path content) tr ->
  exists fds b,
    GetFieldDescriptors sf tableName = inl fds
    /\ emitFields U P sf tableName (normalize U tableName forceCases)
         (str "o" ++ normalize U tableName forceCases) forceCases fds
         (initialBuffers (str "o" ++ normalize U tableName forceCases))
       = Ret b
    /\ content = tableUnit P dbName tableName (normalize U tableName forceCases) b.
Proof.
  intros Hrun Hunit.
  destruct (generateTable_cases U P F sf dbName forceCases tableName)
    as [(o1 & Ht & _) | (fds & b & Hfds & Hb & Ht)];
    rewrite Ht in Hrun; injection Hrun as Htr Ho; subst tr o.
  - destruct Hunit as [Hev | []]. discriminate Hev.
  - destruct Hunit as [Hev | [Hev | []]]; [discriminate Hev|].
    injection Hev as _ Hc. exists fds, b. auto.
Qed.

Section Buffers.

Variable U : UnicodeTables.
Variable P : platform.
Variable sf : schemaFetcher.
Variable forceCases : list gostring.
Variable tableName className : gostring.

Let step := emitField U P sf tableName className (str "o" ++ className) forceCases.
Let steps := emitFields U P sf tableName className (str "o" ++ className) forceCases.

Lemma emitField_buffers (b b' : tableBuffers) (fd : fieldDescriptor) :
  step b fd = Ret b' ->
  tableLines b' = tableLines b ++ tableLine U forceCases className fd
  /\ classLines b' = classLines b ++ classLine U forceCases className fd
  /\ objectLines b' = objectLines b ++ objectLine U P forceCases className fd
  /\ fieldCaseLines b' = fieldCaseLines b ++ fieldCaseLine U P forceCases fd
  /\ fields b' = fields b ++ fieldItem U forceCases fd
  /\ fieldsSQL b'
     = writeSeparated (fieldsSQL b) (QuoteIdentifier sf (Name fd))
  /\ fullFieldsSQL b'
     = writeSeparated (fullFieldsSQL b)
         (QuoteIdentifier sf tableName ++ str "."
          ++ QuoteIdentifier sf (Name fd)).
Proof.
  unfold step, emitField, tableLine, classLine, objectLine, fieldCaseLine, fieldItem.
  rewrite convertToExportedIdentifier_normalize. cbn [liftOption bindO].
  destruct (getType U fd) as [[goType fieldClass] [err|]]; [discriminate|].
  cbn [fst snd].
  destruct (privateName fieldClass); cbn [liftOption bindO]; [|discriminate].
  intros H. injection H as <-.
  cbn [tableLines classLines objectLines fieldCaseLines fields fieldsSQL
       fullFieldsSQL].
  repeat split; rewrite <- ?app_assoc; reflexivity.
Qed.

Lemma emitFields_buffers (fds : list fieldDescriptor) (b b' : tableBuffers) :
  steps fds b = Ret b' ->
  tableLines b'
    = tableLines b ++ List.concat (map (tableLine U forceCases className) fds)
  /\ classLines b'
     = classLines b ++ List.concat (map (classLine U forceCases className) fds)
  /\ objectLines b'
     = objectLines b
       ++ List.concat (map (objectLine U P forceCases className) fds)
  /\ fieldCaseLines b'
     = fieldCaseLines b ++ List.concat (map (fieldCaseLine U P forceCases) fds)
  /\ fields b' = fields b ++ List.concat (map (fieldItem U forceCases) fds)
  /\ fieldsSQL b'
     = fold_left writeSeparated
         (map (fun fd => QuoteIdentifier sf (Name fd)) fds) (fieldsSQL b)
  /\ fullFieldsSQL b'
     = fold_left writeSeparated
         (map (fun fd => QuoteIdentifier sf tableName ++ str "."
                         ++ QuoteIdentifier sf (Name fd)) fds)
         (fullFieldsSQL b).
Proof.
  unfold steps. revert b.
  induction fds as [|fd fds IH]; intros b H; cbn [emitFields] in H.
  - injection H as <-. cbn. rewrite !app_nil_r. repeat split; reflexivity.
  - destruct (emitField U P sf tableName className (str "o" ++ className)
                forceCases b fd) as [b1| | |] eqn:Hfd;
      cbn [bindO] in H; try discriminate.
    apply emitField_buffers in Hfd as (H1 & H2 & H3 & H4 & H5 & H6 & H7).
    apply IH in H as (I1 & I2 & I3 & I4 & I5 & I6 & I7).
    rewrite I1, I2, I3, I4, I5, I6, I7, H1, H2, H3, H4, H5, H6, H7.
    cbn [map List.concat fold_left].
    rewrite <- !app_assoc. repeat split; reflexivity.
Qed.

End Buffers.

Lemma strings_Join_cons (e : gostring) (rest : list gostring) (sep : gostring) :
  strings_Join (e :: rest) sep = e ++ List.concat (map (app sep) rest).
Proof.
  revert e. induction rest as [|e' rest IH]; intros e.
  - cbn. rewrite app_nil_r. reflexivity.
  - change (strings_Join (e :: e' :: rest) sep)
      with (e ++ sep ++ strings_Join (e' :: rest) sep).
    rewrite IH. cbn [map List.concat]. rewrite <- app_assoc. reflexivity.
Qed.

Lemma writeSeparated_fold_nonempty (items : list gostring) (buf : gostring) :
  buf <> [] ->
  fold_left writeSeparated items buf
  = buf ++ List.concat (map (app (str ", ")) items).
Proof.
  revert buf. induction items as [|item items IH]; intros buf Hbuf.
  - cbn. rewrite app_nil_r. reflexivity.
  - cbn [fold_left map List.concat]. unfold writeSeparated at 2.
    rewrite (isEmpty_false _ Hbuf). cbn [negb].
    rewrite IH.
    + rewrite <- !app_assoc. reflexivity.
    + destruct buf; [congruence | discriminate].
Qed.

Lemma writeSeparated_fold (items : list gostring) :
  Forall (fun item => item <> []) items ->
  fold_left writeSeparated items [] = strings_Join items (str ", ").
Proof.
  intros Hall. destruct Hall as [|item items Hitem _]; [reflexivity|].
  cbn [fold_left]. unfold writeSeparated at 2. cbn [isEmpty gostring_eqb negb app].
  rewrite writeSeparated_fold_nonempty by exact Hitem.
  symmetry. apply strings_Join_cons.
Qed.

(** X10. In every table unit that [generateTable] writes, the accessor
    record, the wrapper types, the initializers of the table object, the
    cases of GetFieldByName and the list of GetFields each hold one entry
    per column, in the order of the fetcher's column descriptors (the
    initializers after the line that sets the table). *)
Theorem X10_accessors_in_column_order (U : UnicodeTables) (P : platform)
    (F : flags) (sf : schemaFetcher) (dbName tableName : gostring)
    (forceCases : list gostring) (tr : list event) (o : outcome unit)
    (path content : gostring)
    (Hrun : generateTable U P F sf dbName tableName forceCases = (tr, o))
    (Hunit : In (FileWritten path content) tr) :
  let className := normalize U tableName forceCases in
  exists fds b,
    GetFieldDescriptors sf tableName = inl fds
    /\ content = tableUnit P dbName tableName className b
    /\ tableLines b
       = List.concat (map (tableLine U forceCases className) fds)
    /\ classLines b
       = List.concat (map (classLine U forceCases className) fds)
    /\ objectLines b
       = (tab ++ str "table: " ++ (str "o" ++ className) ++ str "," ++ nl ++ nl)
         ++ List.concat (map (objectLine U P forceCases className) fds)
    /\ fieldCaseLines b
       = List.concat (map (fieldCaseLine U P forceCases) fds)
    /\ fields b = List.concat (map (fieldItem U forceCases) fds).
Proof.
  cbn zeta.
  destruct (generateTable_written U P F sf dbName tableName forceCases tr o
              path content Hrun Hunit) as (fds & b & Hfds & Hb & Hc).
  apply emitFields_buffers in Hb as (H1 & H2 & H3 & H4 & H5 & _ & _).
  exists fds, b. cbn [initialBuffers tableLines classLines objectLines
                      fieldCaseLines fields app] in *.
  repeat split; assumption.
Qed.

Lemma X10_accessors_in_column_order_witness :
  exists content b,
    In (FileWritten (str "out/orders.go") content)
       (fst (generateTable excerpt Example.machine (Example.commandLine "")
               Example.shop (str "shop") (str "orders") []))
    /\ content = tableUnit Example.machine (str "shop") (str "orders")
                   (str "Orders") b
    /\ fields b = str "t.Id, t.Total, t.Note, "
    /\ classLines b
       = str "type bigint_Orders_Id struct{ numberField }" ++ nl
         ++ str "type decimal_Orders_Total struct{ numberField }" ++ nl
         ++ str "type varchar_Orders_Note struct{ stringField }" ++ nl.
Proof.
  pose (run := generateTable excerpt Example.machine (Example.commandLine "")
                 Example.shop (str "shop") (str "orders") []).
  pose (content := match fst run with
                   | [_; FileWritten _ c] => c
                   | _ => []
                   end).
  assert (Hin : In (FileWritten (str "out/orders.go") content) (fst run))
    by (right; left; vm_compute; reflexivity).
  destruct (X10_accessors_in_column_order excerpt Example.machine
              (Example.commandLine "") Example.shop (str "shop") (str "orders")
              [] (fst run) (snd run) (str "out/orders.go") content
              (surjective_pairing run) Hin)
    as (fds & b & Hfds & Hc & _ & Hcl & _ & _ & Hf).
  exists content, b.
  split; [exact Hin|].
  split; [exact Hc|].
  injection Hfds as <-.
  split; [rewrite Hf | rewrite Hcl]; vm_compute; reflexivity.
Defined.

(** X11. In every table unit that [generateTable] writes, the text of
    GetFullFieldsSQL is the quoted "table.column" pairs of the columns, in
    column order, joined by ", "; the text of GetFieldsSQL is the quoted
    column names joined by ", " provided the fetcher never quotes a column
    name to the empty string (the separator is written only when the
    buffer is not empty). *)
Theorem X11_fields_sql_joined (U : UnicodeTables) (P : platform)
    (F : flags) (sf : schemaFetcher) (dbName tableName : gostring)
    (forceCases : list gostring) (tr : list event) (o : outcome unit)
    (path content : gostring)
    (Hrun : generateTable U P F sf dbName tableName forceCases = (tr, o))
    (Hunit : In (FileWritten path content) tr) :
  exists fds b,
    GetFieldDescriptors sf tableName = inl fds
    /\ content = tableUnit P dbName tableName (normalize U tableName forceCases) b
    /\ fullFieldsSQL b
       = strings_Join
           (map (fun fd => QuoteIdentifier sf tableName ++ str "."
                           ++ QuoteIdentifier sf (Name fd)) fds)
           (str ", ")
    /\ ((forall fd, In fd fds -> QuoteIdentifier sf (Name fd) <> []) ->
        fieldsSQL b
        = strings_Join (map (fun fd => QuoteIdentifier sf (Name fd)) fds)
            (str ", ")).
Proof.
  destruct (generateTable_written U P F sf dbName tableName forceCases tr o
              path content Hrun Hunit) as (fds & b & Hfds & Hb & Hc).
  apply emitFields_buffers in Hb as (_ & _ & _ & _ & _ & Hsql & Hfull).
  exists fds, b. cbn [initialBuffers fieldsSQL fullFieldsSQL] in *.
  repeat split; try assumption.
  - rewrite Hfull. apply writeSeparated_fold.
    apply Forall_map, Forall_forall. intros fd _ Hempty.
    apply (f_equal (@List.length Z)) in Hempty.
    rewrite !length_app in Hempty. cbn in Hempty. lia.
  - intros Hquote. rewrite Hsql. apply writeSeparated_fold.
    apply Forall_map, Forall_forall. exact Hquote.
Qed.

Lemma X11_fields_sql_joined_witness :
  exists content b,
    In (FileWritten (str "out/orders.go") content)
       (fst (generateTable excerpt Example.machine (Example.commandLine "")
               Example.shop (str "shop") (str "orders") []))
    /\ content = tableUnit Example.machine (str "shop") (str "orders")
                   (str "Orders") b
    /\ fieldsSQL b = str "`id`, `total`, `note`"
    /\ fullFieldsSQL b
       = str "`orders`.`id`, `orders`.`total`, `orders`.`note`".
Proof.
  pose (run := generateTable excerpt Example.machine (Example.commandLine "")
                 Example.shop (str "shop") (str "orders") []).
  pose (content := match fst run with
                   | [_; FileWritten _ c] => c
                   | _ => []
                   end).
  assert (Hin : In (FileWritten (str "out/orders.go") content) (fst run))
    by (right; left; vm_compute; reflexivity).
  destruct (X11_fields_sql_joined excerpt Example.machine
              (Example.commandLine "") Example.shop (str "shop") (str "orders")
              [] (fst run) (snd run) (str "out/orders.go") content
              (surjective_pairing run) Hin)
    as (fds & b & Hfds & Hc & Hfull & Hsql).
  exists content, b.
  split; [exact Hin|].
  split; [exact Hc|].
  injection Hfds as <-.
  split.
  - rewrite Hsql; [vm_compute; reflexivity|].
    intros fd Hfd. cbn [QuoteIdentifier Example.shop]. discriminate.
  - rewrite Hfull. vm_compute. reflexivity.
Defined.

(** ** [WriteToFile] *)

(** X12. [WriteToFile] writes at most one file, the one it is given, with
    the whole buffer.  It opens the file when [force] is set, when os.Stat
    does not report the file as existing, or when the answer read from the
    standard input is "Y" or "y"; it then returns the error of the open, or
    nil after writing.  Otherwise it returns nil without writing: declining
    is not an error.  The question is asked only without [force] and for an
    existing file. *)
Theorem X12_WriteToFile_cases (P : platform) (buffer outputFile : gostring)
    (force : bool) :
  let '(tr, o) := WriteToFile P buffer outputFile force in
  (mayWrite P outputFile force = true ->
   match os_OpenFile P outputFile with
   | Some err => writtenFiles tr = [] /\ o = Fail err
   | None => writtenFiles tr = [(outputFile, buffer)] /\ o = Ret tt
   end)
  /\ (mayWrite P outputFile force = false ->
      writtenFiles tr = [] /\ o = Ret tt
      /\ In (StdoutWritten (str "skip" ++ outputFile ++ nl)) tr)
  /\ ((exists text, In (StdoutWritten text) tr) ->
      force = false /\ os_Stat P outputFile = StatOk).
Proof.
  unfold WriteToFile, mayWrite, PathExists, emit, pure.
  destruct (os_Stat P outputFile) eqn:Hstat, force; cbn [fst negb orb andb].
  2: { destruct (gostring_eqb (fmt_Scanln P) (str "Y")),
         (gostring_eqb (fmt_Scanln P) (str "y")); cbn [negb andb orb bind app];
       try (destruct (os_OpenFile P outputFile); cbn [bind app]);
       (split; [|split]);
       try (intros H; discriminate H);
       try (intros _; cbn; auto; fail);
       try (intros _; split; reflexivity).
       all: try (intros _; cbn; repeat split; auto). }
  all: destruct (os_OpenFile P outputFile); cbn;
    (split; [|split]);
    try (intros H; discriminate H);
    try (intros _; split; reflexivity);
    try (intros [text [H | []]]; discriminate H);
    try (intros [text []]).
Qed.

(** ** The type mapper and the case of the raw type *)

Lemma ToLower_ascii_string (U : UnicodeTables) (HU : GoUnicode U) (s : gostring) :
  Forall isASCII s -> strings_ToLower U s = map ascii_toLower s.
Proof.
  intros Hs. unfold strings_ToLower. apply map_ext_in.
  intros r Hr. rewrite Forall_forall in Hs. apply ToLower_ascii, Hs, Hr.
Qed.

(** X13. The raw type is read through its lower-case form only: two column
    descriptors whose ASCII raw types differ at most in the case of letters,
    and which agree on size and on the two flags, get the same scalar type
    and the same field category, and fail together. *)
Theorem X13_getType_ignores_case (U : UnicodeTables) (HU : GoUnicode U)
    (fd fd' : fieldDescriptor)
    (Hascii : Forall isASCII (Type_ fd)) (Hascii' : Forall isASCII (Type_ fd'))
    (Hcase : map ascii_toLower (Type_ fd) = map ascii_toLower (Type_ fd'))
    (Hsize : Size fd = Size fd') (Hunsigned : Unsigned fd = Unsigned fd')
    (Hnull : AllowNull fd = AllowNull fd') :
  fst (getType U fd) = fst (getType U fd')
  /\ (snd (getType U fd) = None <-> snd (getType U fd') = None).
Proof.
  assert (Hfam : typeFamily U fd = typeFamily U fd').
  { unfold typeFamily.
    rewrite (ToLower_ascii_string U HU _ Hascii),
      (ToLower_ascii_string U HU _ Hascii'), Hcase, Hsize.
    reflexivity. }
  unfold getType, applyAllowNull, applyUnsigned.
  rewrite Hfam, Hunsigned, Hnull.
  destruct (typeFamily U fd') as [[base cls]|]; cbn [fst snd].
  - split; [reflexivity | tauto].
  - split; [reflexivity|]. split; discriminate.
Qed.

Lemma X13_getType_ignores_case_witness :
  GoUnicode excerpt
  /\ fst (getType excerpt (Example.column "n" "VarChar" true))
     = fst (getType excerpt (Example.column "note" "varchar" true))
  /\ fst (getType excerpt (Example.column "note" "varchar" true))
     = (str "*string", str "StringField").
Proof.
  split; [exact excerpt_GoUnicode|].
  split; [|reflexivity].
  refine (proj1 (X13_getType_ignores_case excerpt excerpt_GoUnicode
                   (Example.column "n" "VarChar" true)
                   (Example.column "note" "varchar" true)
                   _ _ eq_refl eq_refl eq_refl eq_refl));
    repeat constructor; unfold isASCII; cbn; lia.
Defined.

(** ** The dispatch functions of the base unit *)

Lemma tableUnit_declares (P : platform) (dbName tableName className : gostring)
    (b : tableBuffers) :
  exists pre post,
    tableUnit P dbName tableName className b
    = pre
      ++ (str "var " ++ className ++ str " = " ++ (str "t" ++ className)
          ++ str "{" ++ nl)
      ++ post.
Proof.
  unfold tableUnit.
  set (pieces := tableUnitPieces P dbName tableName className b).
  exists (List.concat (firstn 7 pieces)), (List.concat (skipn 8 pieces)).
  rewrite (concat_split pieces 7). reflexivity.
Qed.

(** X14. [generateGetTable] never fails.  It writes GetTable with one case
    per table name, in the order of [options.tableNames], and GetTables with
    one item per table name in the same order; the identifier a table's case
    returns and its item names is the normalized table name, the very
    variable that the table's own unit declares. *)
Theorem X14_dispatch_per_table (U : UnicodeTables) (P : platform)
    (opts : options) :
  generateGetTable U P opts
  = Ret (str "func GetTable(name string) sqlingo.Table {" ++ nl
         ++ tab ++ str "switch name {" ++ nl
         ++ List.concat (map (getTableCase U P (forceCases opts)) (tableNames opts))
         ++ tab ++ str "default: return nil" ++ nl
         ++ tab ++ str "}" ++ nl
         ++ str "}" ++ nl ++ nl
         ++ str "func GetTables() []sqlingo.Table {" ++ nl
         ++ tab ++ str "return []sqlingo.Table{" ++ nl
         ++ List.concat (map (getTablesItem U (forceCases opts)) (tableNames opts))
         ++ tab ++ str "}" ++ str "}" ++ nl ++ nl)
  /\ (forall tableName,
        getTableCase U P (forceCases opts) tableName
        = tab ++ str "case " ++ strconv_Quote P tableName ++ str ": return "
          ++ normalize U tableName (forceCases opts) ++ nl
        /\ getTablesItem U (forceCases opts) tableName
           = tab ++ normalize U tableName (forceCases opts) ++ str "," ++ nl)
  /\ (forall F sf dbName tableName tr o path content,
        generateTable U P F sf dbName tableName (forceCases opts) = (tr, o) ->
        In (FileWritten path content) tr ->
        exists pre post,
          content
          = pre
            ++ (str "var " ++ normalize U tableName (forceCases opts)
                ++ str " = "
                ++ (str "t" ++ normalize U tableName (forceCases opts))
                ++ str "{" ++ nl)
            ++ post).
Proof.
  repeat split.
  - unfold generateGetTable.
    rewrite getTableCases_Ret, getTablesItems_Ret. cbn [bindO List.concat].
    rewrite app_nil_r, <- !app_assoc. reflexivity.
  - intros F sf dbName tableName tr o path content Hrun Hunit.
    destruct (generateTable_written U P F sf dbName tableName (forceCases opts)
                tr o path content Hrun Hunit) as (fds & b & _ & _ & ->).
    apply tableUnit_declares.
Qed.

(** ** The comma-separated flags *)

Lemma splitComma_Join (s : gostring) :
  strings_Join (splitComma s) (str ",") = s
  /\ Forall (fun piece => ~ In (ch ",") piece) (splitComma s).
Proof.
  induction s as [|r s [IHjoin IHfree]].
  - split; [reflexivity | repeat constructor; intros []].
  - cbn [splitComma]. unfold rune_eqb.
    destruct (Z.eqb_spec r (ch ",")) as [-> | Hr].
    + split.
      * pose proof (splitComma_nonempty s) as Hne.
        destruct (splitComma s) as [|w ws]; [congruence|].
        change (strings_Join ([] :: w :: ws) (str ","))
          with (str "," ++ strings_Join (w :: ws) (str ",")).
        rewrite IHjoin. reflexivity.
      * constructor; [intros [] | exact IHfree].
    + pose proof (splitComma_nonempty s) as Hne.
      destruct (splitComma s) as [|w ws]; [congruence|].
      split.
      * rewrite strings_Join_cons in *. cbn [app]. rewrite IHjoin. reflexivity.
      * inversion IHfree as [|? ? Hw Hws]; subst.
        constructor; [|exact Hws].
        intros [Heq | Hin]; [congruence | exact (Hw Hin)].
Qed.

(** X15. The -t and -forcecases flags are cut at their commas: the list is
    empty exactly when the flag is empty, no entry holds a comma, and the
    entries joined by commas give the flag back, so an empty entry (between
    two commas, or after a trailing comma) is kept as a table name. *)
Theorem X15_flags_split (F : flags) :
  (explicitTablesOf F = [] <-> tables F = [])
  /\ (forceCasesOf F = [] <-> forcecases F = [])
  /\ strings_Join (explicitTablesOf F) (str ",") = tables F
  /\ strings_Join (forceCasesOf F) (str ",") = forcecases F
  /\ Forall (fun name => ~ In (ch ",") name) (explicitTablesOf F)
  /\ Forall (fun name => ~ In (ch ",") name) (forceCasesOf F).
Proof.
  unfold explicitTablesOf, forceCasesOf.
  assert (Hflag : forall s,
    let l := if negb (isEmpty s) then splitComma s else [] in
    (l = [] <-> s = []) /\ strings_Join l (str ",") = s
    /\ Forall (fun name => ~ In (ch ",") name) l).
  { intros s. cbn zeta. destruct s as [|r s].
    - cbn. repeat split; auto.
    - cbn [isEmpty gostring_eqb negb].
      destruct (splitComma_Join (r :: s)) as [Hj Hf].
      repeat split; auto; try discriminate.
      intros Hnil. exfalso. exact (splitComma_nonempty _ Hnil). }
  destruct (Hflag (tables F)) as (H1 & H2 & H3).
  destruct (Hflag (forcecases F)) as (H4 & H5 & H6).
  repeat split; try assumption; try (apply H1); try (apply H4).
Qed.

(** ** Names that differ in their separators *)

(** X16. The identifier depends on the name only through its runs of
    letters and digits: two names that split into the same runs, whatever
    stands between, before and after them, get the same identifier. *)
Theorem X16_separators_irrelevant (U : UnicodeTables) (s s' : gostring)
    (runs forceCases : list gostring)
    (Hs : splitsInto U s runs) (Hs' : splitsInto U s' runs) :
  convertToExportedIdentifier U s forceCases
  = convertToExportedIdentifier U s' forceCases.
Proof.
  rewrite !convertToExportedIdentifier_normalize.
  unfold normalize, capitalizedWords.
  rewrite <- (splitsInto_unique U s runs Hs), <- (splitsInto_unique U s' runs Hs').
  reflexivity.
Qed.

Lemma X16_separators_irrelevant_witness :
  splitsInto excerpt (str "user_info") [str "user"; str "info"]
  /\ splitsInto excerpt (str "--user  info ") [str "user"; str "info"]
  /\ convertToExportedIdentifier excerpt (str "user_info") []
     = convertToExportedIdentifier excerpt (str "--user  info ") [].
Proof.
  assert (H1 : splitsInto excerpt (str "user_info") [str "user"; str "info"]).
  { exact (alnumRuns_splitsInto excerpt (str "user_info")). }
  assert (H2 : splitsInto excerpt (str "--user  info ") [str "user"; str "info"]).
  { exact (alnumRuns_splitsInto excerpt (str "--user  info ")). }
  split; [exact H1|]. split; [exact H2|].
  exact (X16_separators_irrelevant excerpt _ _ _ [] H1 H2).
Defined.

(** ** The first failing table *)

Lemma generateTables_first_failure (U : UnicodeTables) (P : platform)
    (F : flags) (sf : schemaFetcher) (dbName : gostring)
    (forceCases names : list gostring) (tr : list event) (o : outcome unit) :
  generateTables U P F sf dbName names forceCases = (tr, o) ->
  o <> Ret tt ->
  exists done t rest trDone trFailed,
    names = done ++ t :: rest
    /\ generateTables U P F sf dbName done forceCases = (trDone, Ret tt)
    /\ generateTable U P F sf dbName t forceCases = (trFailed, o)
    /\ tr = trDone ++ StderrWritten (str "Generating " ++ t ++ nl) :: trFailed.
Proof.
  revert tr o. induction names as [|t names IH]; intros tr o H Hfail.
  - injection H as _ Ho. congruence.
  - cbn [generateTables] in H. unfold emit in H. cbn [bind] in H.
    destruct (generateTable U P F sf dbName t forceCases) as [tr1 o1] eqn:Ht.
    destruct o1 as [[]| | |].
    + cbn [bind] in H.
      destruct (generateTables U P F sf dbName names forceCases)
        as [tr2 o2] eqn:Hrest.
      injection H as Htr Ho. subst tr o.
      destruct (IH tr2 o2 eq_refl Hfail)
        as (done & t' & rest & trDone & trFailed & -> & Hdone & Hfailed & ->).
      exists (t :: done), t', rest,
        ([StderrWritten (str "Generating " ++ t ++ nl)] ++ tr1 ++ trDone), trFailed.
      repeat split; auto.
      * cbn [app generateTables]. unfold emit. cbn [bind]. rewrite Ht.
        cbn [bind]. rewrite Hdone. reflexivity.
      * rewrite <- !app_assoc. reflexivity.
    + cbn in H. injection H as Htr Ho. subst tr o.
      exists [], t, names, [], tr1. repeat split; auto.
    + cbn in H. injection H as Htr Ho. subst tr o.
      exists [], t, names, [], tr1. repeat split; auto.
    + cbn in H. injection H as Htr Ho. subst tr o.
      exists [], t, names, [], tr1. repeat split; auto.
Qed.

(** X17. A run of [Generate] that has written the base unit and then fails
    stops at the first table whose [generateTable] fails and returns that
    table's error: the units of the tables before it have all been written
    and stay (nothing is rolled back), the failing table has been fetched
    but not written, and no later table is fetched. *)
Theorem X17_first_failure_stops {DB : Type} (U : UnicodeTables) (P : platform)
    (D : drivers DB) (F : flags) (driverName exampleDataSourceName : gostring)
    (tr : list event) (o : outcome unit)
    (Hrun : Generate U P D F driverName exampleDataSourceName = (tr, o))
    (Hbase : writtenFiles tr <> [])
    (Hfail : o <> Ret tt) :
  exists db sf dbName done t rest,
    sql_Open D driverName (databaseConnection F) = inl db
    /\ fetcherOf D driverName db = Some sf
    /\ GetDatabaseName sf = inl dbName
    /\ match explicitTablesOf F with
       | [] => GetTableNames sf = inl (done ++ t :: rest)
       | _ :: _ => explicitTablesOf F = done ++ t :: rest
       end
    /\ snd (generateTable U P F sf dbName t (forceCasesOf F)) = o
    /\ fetchedTables tr = done ++ [t]
    /\ writtenPaths tr
       = baseUnitPath (outputPath F) :: map (tableUnitPath (outputPath F)) done.
Proof.
  apply Generate_cases in Hrun
    as [[(Hw & _) _] | (db & sf & dbName & tr' & Hdb & Hsf & Hname & -> & Hgen)];
    [congruence|].
  apply generateUnits_cases in Hgen.
  destruct Hgen as [[-> _] | (names & getTable & tr2 & Hnames & -> & Htabs)];
    [exfalso; apply Hbase; destruct (explicitTablesOf F); reflexivity|].
  pose proof (generateTables_trace U P F sf dbName (forceCasesOf F) names tr2 o
                Htabs) as [_ Hcases].
  destruct (generateTables_first_failure U P F sf dbName (forceCasesOf F) names
              tr2 o Htabs Hfail)
    as (done & t & rest & trDone & trFailed & Hsplit & Hdone & Hfailed & Htr).
  destruct Hcases as [(Hok & _) | (_ & done' & t' & rest' & Hsplit' & Hf & Hw)];
    [contradiction|].
  assert (Hsame : done' = done /\ t' = t).
  { pose proof (generateTables_trace U P F sf dbName (forceCasesOf F) done trDone
                  (Ret tt) Hdone) as [_ [(_ & Hfd & _) | (Hne & _)]];
      [|congruence].
    pose proof Hf as Hf'.
    rewrite Htr in Hf'. unfold fetchedTables in Hf', Hfd.
    rewrite flat_map_app in Hf'. rewrite Hfd in Hf'. cbn [flat_map app] in Hf'.
    destruct (generateTable_cases U P F sf dbName (forceCasesOf F) t)
      as [(o1 & Ht & _) | (fds & b & _ & _ & Ht)];
      rewrite Ht in Hfailed; injection Hfailed as <- _;
      cbn [flat_map app] in Hf'.
    - apply app_inj_tail in Hf' as [-> ->]. auto.
    - apply app_inj_tail in Hf' as [-> ->]. auto. }
  destruct Hsame as [-> ->].
  exists db, sf, dbName, done, t, rest.
  repeat split; auto.
  - destruct (explicitTablesOf F); congruence.
  - rewrite Hfailed. reflexivity.
  - unfold fetchedTables in *. destruct (explicitTablesOf F); exact Hf.
  - unfold writtenPaths, writtenFiles in *.
    destruct (explicitTablesOf F); cbn [flat_map app map fst]; rewrite Hw;
      reflexivity.
Qed.

Lemma X17_first_failure_stops_witness :
  writtenFiles (fst (Example.run "orders,nope,users")) <> []
  /\ snd (Example.run "orders,nope,users") = Fail (str "no such table")
  /\ exists done t,
       fetchedTables (fst (Example.run "orders,nope,users")) = done ++ [t]
       /\ writtenPaths (fst (Example.run "orders,nope,users"))
          = baseUnitPath (str "out") :: map (tableUnitPath (str "out")) done.
Proof.
  pose (run := Example.run "orders,nope,users").
  assert (Hbase : writtenFiles (fst run) <> []) by (vm_compute; discriminate).
  assert (Ho : snd run = Fail (str "no such table")) by (vm_compute; reflexivity).
  assert (Hfail : snd run <> Ret tt) by (rewrite Ho; discriminate).
  destruct (X17_first_failure_stops excerpt Example.machine Example.registered
              (Example.commandLine "orders,nope,users") (str "mysql")
              (str "username:password@tcp(hostname:3306)/database")
              (fst run) (snd run) (surjective_pairing run) Hbase Hfail)
    as (db & sf & dbName & done & t & rest & _ & _ & _ & _ & _ & Hf & Hw).
  split; [exact Hbase|]. split; [exact Ho|].
  exists done, t. split; [exact Hf | exact Hw].
Defined.

(** ** When a run succeeds *)

Lemma generateTable_Ret_iff (U : UnicodeTables) (P : platform) (F : flags)
    (sf : schemaFetcher) (dbName tableName : gostring)
    (forceCases : list gostring) :
  snd (generateTable U P F sf dbName tableName forceCases) = Ret tt
  <-> tableOk U P F sf tableName.
Proof.
  split.
  - intros Hret.
    destruct (GetFieldDescriptors sf tableName) as [fds|err] eqn:Hfds.
    + destruct (first_unrecognized U fds)
        as [Hall | (good & bad & rest & Hsplit & Hgood & Hnot)].
      * destruct (os_OpenFile P (tableUnitPath (outputPath F) tableName))
          as [err|] eqn:Ho.
        -- destruct (generateTable_outcomes U P F sf dbName forceCases tableName)
             as (_ & _ & Hopen & _).
           rewrite (Hopen fds err Hfds Hall Ho) in Hret. discriminate.
        -- exists fds. repeat split; assumption.
      * subst fds.
        destruct (generateTable_outcomes U P F sf dbName forceCases tableName)
          as (_ & Hbad & _).
        rewrite (Hbad good bad rest Hfds Hgood Hnot) in Hret. discriminate.
    + destruct (generateTable_outcomes U P F sf dbName forceCases tableName)
        as (Herr & _).
      rewrite (Herr err Hfds) in Hret. discriminate.
  - intros (fds & Hfds & Hall & Ho).
    destruct (generateTable_outcomes U P F sf dbName forceCases tableName)
      as (_ & _ & _ & Hok).
    destruct (Hok fds Hfds Hall Ho) as [content ->]. reflexivity.
Qed.

Lemma generateTables_Ret_iff (U : UnicodeTables) (P : platform) (F : flags)
    (sf : schemaFetcher) (dbName : gostring) (forceCases names : list gostring) :
  snd (generateTables U P F sf dbName names forceCases) = Ret tt
  <-> Forall (tableOk U P F sf) names.
Proof.
  induction names as [|t names IH].
  - split; [constructor | reflexivity].
  - pose proof (generateTable_Ret_iff U P F sf dbName t forceCases) as Ht.
    pose proof (generateTable_returns U P F sf dbName forceCases t) as Hret.
    cbn [generateTables]. unfold emit. cbn [bind].
    destruct (generateTable U P F sf dbName t forceCases) as [tr1 o1].
    cbn [snd] in Ht, Hret.
    destruct Hret as [-> | [err ->]]; cbn [bind].
    + destruct (generateTables U P F sf dbName names forceCases) as [tr2 o2].
      cbn [snd] in *. split.
      * intros H. constructor; [apply Ht; reflexivity | apply IH; exact H].
      * intros H. inversion H; subst. apply IH. assumption.
    + cbn [snd]. split; [discriminate|].
      intros H. inversion H as [|? ? Hok _]; subst.
      apply Ht in Hok. discriminate.
Qed.

Lemma generateUnits_Ret_iff (U : UnicodeTables) (P : platform) (F : flags)
    (sf : schemaFetcher) (dbName : gostring)
    (explicitTables forceCases : list gostring) :
  snd (generateUnits U P F sf dbName explicitTables forceCases) = Ret tt
  <-> exists names,
        match explicitTables with
        | [] => GetTableNames sf
        | _ :: _ => inl explicitTables
        end = inl names
        /\ os_OpenFile P (baseUnitPath (outputPath F)) = None
        /\ Forall (tableOk U P F sf) names.
Proof.
  assert (Hrest : forall names pre,
    snd (bind (pre, Ret names) (fun tableNames =>
         getTable <- pure (generateGetTable U P
                       {| dataSourceName := databaseConnection F;
                          tableNames := tableNames;
                          forceCases := forceCases |});;
         WriteToFile P (baseDeclarations dbName ++ getTable)
           (baseUnitPath (outputPath F)) true;;
         generateTables U P F sf dbName tableNames forceCases)) = Ret tt
    <-> os_OpenFile P (baseUnitPath (outputPath F)) = None
        /\ Forall (tableOk U P F sf) names).
  { intros names pre. cbn [bind]. unfold pure.
    destruct (generateGetTable_Ret U P
                {| dataSourceName := databaseConnection F;
                   tableNames := names; forceCases := forceCases |}) as [text ->].
    cbn [bind]. rewrite WriteToFile_force.
    destruct (os_OpenFile P _) as [err|]; cbn [bind].
    - cbn [snd]. split; [discriminate | intros [H _]; discriminate].
    - pose proof (generateTables_Ret_iff U P F sf dbName forceCases names) as H.
      destruct (generateTables U P F sf dbName names forceCases) as [tr o].
      cbn [snd] in *. rewrite H. tauto. }
  unfold generateUnits.
  destruct explicitTables as [|t ts].
  - unfold emit, ret, pure.
    destruct (GetTableNames sf) as [names|err].
    + rewrite (Hrest names [GetTableNamesCalled]). split.
      * intros H. exists names. tauto.
      * intros (names' & Heq & H). injection Heq as <-. exact H.
    + cbn [bind snd]. split; [discriminate|].
      intros (names' & Heq & _). discriminate.
  - rewrite (Hrest (t :: ts) []). split.
    + intros H. exists (t :: ts). tauto.
    + intros (names' & Heq & H). injection Heq as <-. exact H.
Qed.

(** X18. A run of [Generate] returns nil exactly when: both flags are given,
    the driver opens and is one of the three supported ones, the fetcher
    names a non-empty database, the table list (the explicit one, or else
    the fetcher's) is obtained, the base unit's file can be opened, and for
    every table of the list the columns can be fetched, each column has a
    recognized type and the table unit's file can be opened. *)
Theorem X18_success_conditions {DB : Type} (U : UnicodeTables) (P : platform)
    (D : drivers DB) (F : flags) (driverName exampleDataSourceName : gostring) :
  snd (Generate U P D F driverName exampleDataSourceName) = Ret tt
  <-> outputPath F <> [] /\ databaseConnection F <> []
      /\ exists db sf dbName names,
           sql_Open D driverName (databaseConnection F) = inl db
           /\ fetcherOf D driverName db = Some sf
           /\ GetDatabaseName sf = inl dbName /\ dbName <> []
           /\ discoveredTables F sf = inl names
           /\ os_OpenFile P (baseUnitPath (outputPath F)) = None
           /\ Forall (tableOk U P F sf) names.
Proof.
  split.
  - intros Hret.
    destruct (outputPath F) as [|o1 os] eqn:Hout.
    { unfold Generate in Hret. rewrite Hout in Hret. discriminate. }
    destruct (databaseConnection F) as [|d1 ds] eqn:Hdbc.
    { unfold Generate in Hret. rewrite Hout, Hdbc in Hret. discriminate. }
    split; [discriminate|]. split; [discriminate|].
    destruct (sql_Open D driverName (d1 :: ds)) as [db|err] eqn:Hopen.
    2: { unfold Generate in Hret. rewrite Hout, Hdbc, Hopen in Hret.
         discriminate. }
    destruct (fetcherOf D driverName db) as [sf|] eqn:Hsf.
    2: { unfold Generate, getSchemaFetcherFactory, fetcherOf in *.
         rewrite Hout, Hdbc, Hopen in Hret.
         destruct (gostring_eqb driverName (str "mysql")); [discriminate|].
         destruct (gostring_eqb driverName (str "sqlite3")); [discriminate|].
         destruct (gostring_eqb driverName (str "postgres")); [discriminate|].
         discriminate. }
    rewrite (Generate_after_open U P D F driverName exampleDataSourceName db sf)
      in Hret;
      [| rewrite Hout; discriminate | rewrite Hdbc; discriminate
       | rewrite Hdbc; exact Hopen | exact Hsf].
    unfold emit, pure in Hret. cbn [bind] in Hret.
    destruct (GetDatabaseName sf) as [dbName|err] eqn:Hname; [|discriminate].
    destruct dbName as [|n1 ns]; [discriminate|]. cbn [isEmpty] in Hret.
    pose proof (generateUnits_Ret_iff U P F sf (n1 :: ns) (explicitTablesOf F)
                  (forceCasesOf F)) as Hiff.
    destruct (generateUnits U P F sf (n1 :: ns) (explicitTablesOf F)
                (forceCasesOf F)) as [tr o].
    cbn [snd app] in Hret, Hiff. apply Hiff in Hret.
    destruct Hret as (names & Hnames & Hbase & Hall).
    exists db, sf, (n1 :: ns), names.
    rewrite Hout in Hbase.
    unfold discoveredTables.
    repeat split; try assumption; try discriminate.
    destruct (explicitTablesOf F); exact Hnames.
  - intros (Hout & Hdbc & db & sf & dbName & names
            & Hopen & Hsf & Hname & Hne & Hnames & Hbase & Hall).
    rewrite (Generate_after_open U P D F driverName exampleDataSourceName db sf)
      by assumption.
    unfold emit, pure. cbn [bind]. rewrite Hname, (isEmpty_false _ Hne).
    pose proof (generateUnits_Ret_iff U P F sf dbName (explicitTablesOf F)
                  (forceCasesOf F)) as Hiff.
    destruct (generateUnits U P F sf dbName (explicitTablesOf F)
                (forceCasesOf F)) as [tr o].
    cbn [snd app] in *. apply Hiff. exists names.
    unfold discoveredTables in Hnames.
    repeat split; try assumption.
    destruct (explicitTablesOf F); exact Hnames.
Qed.

(** ** The table list of a run *)

Lemma writtenFiles_app (tr1 tr2 : list event) :
  writtenFiles (tr1 ++ tr2) = writtenFiles tr1 ++ writtenFiles tr2.
Proof.
  apply flat_map_app.
Qed.

Lemma fetchedTables_app (tr1 tr2 : list event) :
  fetchedTables (tr1 ++ tr2) = fetchedTables tr1 ++ fetchedTables tr2.
Proof.
  apply flat_map_app.
Qed.

Lemma tableNamesQueries_app (tr1 tr2 : list event) :
  tableNamesQueries (tr1 ++ tr2)
  = tableNamesQueries tr1 ++ tableNamesQueries tr2.
Proof.
  apply flat_map_app.
Qed.

(** The loop over the tables: one unit per name, in order, up to the first
    table whose unit cannot be generated. *)
Lemma generateTables_units (U : UnicodeTables) (P : platform) (F : flags)
    (sf : schemaFetcher) (dbName : gostring) (forceCases names : list gostring)
    (tr : list event) (o : outcome unit) :
  generateTables U P F sf dbName names forceCases = (tr, o) ->
  tableNamesQueries tr = []
  /\ exists done rest,
       names = done ++ rest
       /\ writtenFiles tr
          = flat_map (tableUnitFiles U P F sf dbName forceCases) done
       /\ Forall (fun t =>
                    tableOk U P F sf t
                    /\ exists content,
                         tableUnitFiles U P F sf dbName forceCases t
                         = [(tableUnitPath (outputPath F) t, content)]) done
       /\ match rest with
          | [] => o = Ret tt /\ fetchedTables tr = names
          | t :: _ =>
              ~ tableOk U P F sf t
              /\ o = snd (generateTable U P F sf dbName t forceCases)
              /\ o <> Ret tt
              /\ fetchedTables tr = done ++ [t]
          end.
Proof.
  revert tr o. induction names as [|t names IH]; intros tr o H.
  - injection H as <- <-. split; [reflexivity|].
    exists [], []. repeat split. constructor.
  - cbn [generateTables] in H. unfold emit in H. cbn [bind] in H.
    pose proof (generateTable_Ret_iff U P F sf dbName t forceCases) as Hiff.
    destruct (generateTable_ends U P F sf dbName t forceCases)
      as [(err & _ & Ht) | [(good & bad & rest & _ & _ & _ & Ht)
          | [(fds & err & _ & _ & _ & Ht) | (fds & content & _ & _ & _ & Ht)]]];
      cbn zeta in Ht.
    4: { assert (Hok : tableOk U P F sf t)
           by (apply Hiff; rewrite Ht; reflexivity).
         assert (Hfiles : tableUnitFiles U P F sf dbName forceCases t
                          = [(tableUnitPath (outputPath F) t, content)])
           by (unfold tableUnitFiles; rewrite Ht; reflexivity).
         rewrite Ht in H. cbn [bind] in H.
         destruct (generateTables U P F sf dbName names forceCases)
           as [tr' o'] eqn:Hrest.
         injection H as <- <-.
         destruct (IH tr' o' eq_refl)
           as (Hq & done & rest & Hnames & Hw & Hall & Hend).
         split; [exact Hq|].
         exists (t :: done), rest.
         split; [rewrite Hnames; reflexivity|].
         split; [cbn [flat_map]; rewrite Hfiles, <- Hw; reflexivity|].
         split; [constructor; [split; [exact Hok | exists content; exact Hfiles]
                              | exact Hall]|].
         destruct rest as [|t' rest'].
         - destruct Hend as [-> Hf]. split; [reflexivity|].
           change (fetchedTables tr' = names) in Hf.
           change (t :: fetchedTables tr' = t :: names). rewrite Hf. reflexivity.
         - destruct Hend as (Hbad & Ho & Hne & Hf).
           repeat split; try assumption.
           change (t :: fetchedTables tr' = t :: (done ++ [t'])).
           rewrite Hf. reflexivity. }
    all: rewrite Ht in H; cbn [bind app] in H; injection H as <- <-;
      (split; [reflexivity|]);
      exists [], (t :: names);
      (split; [reflexivity|]); (split; [reflexivity|]);
      (split; [constructor|]);
      (split; [intros Hok; apply Hiff in Hok; rewrite Ht in Hok; discriminate|]);
      (split; [rewrite Ht; reflexivity|]);
      (split; [discriminate | reflexivity]).
Qed.

(** [generateUnits]: it ends before the base unit when the table names
    cannot be had or the base unit's file cannot be opened, and otherwise
    writes the base unit and runs the loop over the tables. *)
Lemma generateUnits_run (U : UnicodeTables) (P : platform) (F : flags)
    (sf : schemaFetcher) (dbName : gostring)
    (explicitTables forceCases : list gostring) (tr : list event)
    (o : outcome unit) :
  generateUnits U P F sf dbName explicitTables forceCases = (tr, o) ->
  let queries :=
    match explicitTables with [] => [GetTableNamesCalled] | _ :: _ => [] end in
  let named names :=
    match explicitTables with
    | [] => GetTableNames sf = inl names
    | _ :: _ => names = explicitTables
    end in
  (tr = queries /\ o <> Ret tt
   /\ ((forall names, ~ named names)
       \/ os_OpenFile P (baseUnitPath (outputPath F)) <> None))
  \/ (exists names getTable tr',
        named names
        /\ os_OpenFile P (baseUnitPath (outputPath F)) = None
        /\ generateGetTable U P {| dataSourceName := databaseConnection F;
                                   tableNames := names;
                                   forceCases := forceCases |} = Ret getTable
        /\ tr = queries
                ++ FileWritten (baseUnitPath (outputPath F))
                     (baseDeclarations dbName ++ getTable) :: tr'
        /\ generateTables U P F sf dbName names forceCases = (tr', o)).
Proof.
  assert (Hrest : forall names pre,
    bind (pre, Ret names) (fun tableNames =>
         getTable <- pure (generateGetTable U P
                       {| dataSourceName := databaseConnection F;
                          tableNames := tableNames;
                          forceCases := forceCases |});;
         WriteToFile P (baseDeclarations dbName ++ getTable)
           (baseUnitPath (outputPath F)) true;;
         generateTables U P F sf dbName tableNames forceCases) = (tr, o) ->
    (tr = pre /\ o <> Ret tt
     /\ os_OpenFile P (baseUnitPath (outputPath F)) <> None)
    \/ (exists getTable tr',
          os_OpenFile P (baseUnitPath (outputPath F)) = None
          /\ generateGetTable U P {| dataSourceName := databaseConnection F;
                                     tableNames := names;
                                     forceCases := forceCases |} = Ret getTable
          /\ tr = pre ++ FileWritten (baseUnitPath (outputPath F))
                           (baseDeclarations dbName ++ getTable) :: tr'
          /\ generateTables U P F sf dbName names forceCases = (tr', o))).
  { intros names pre. cbn [bind]. unfold pure.
    destruct (generateGetTable_Ret U P
                {| dataSourceName := databaseConnection F;
                   tableNames := names; forceCases := forceCases |})
      as [text Htext].
    rewrite Htext. cbn [bind]. rewrite WriteToFile_force.
    destruct (os_OpenFile P (baseUnitPath (outputPath F))) as [err|];
      cbn [bind].
    - intros [= <- <-]. left. rewrite app_nil_r.
      repeat split; discriminate.
    - destruct (generateTables U P F sf dbName names forceCases) as [tr' o'].
      intros [= <- <-]. right. exists text, tr'.
      repeat split. }
  unfold generateUnits. intros H. cbn zeta.
  destruct explicitTables as [|t ts].
  - unfold emit, ret, pure in H.
    destruct (GetTableNames sf) as [names|err] eqn:Hnames.
    + destruct (Hrest names [GetTableNamesCalled] H)
        as [(-> & Ho & Hopen) | (getTable & tr' & Hopen & Hget & -> & Htabs)].
      * left. auto.
      * right. exists names, getTable, tr'. auto.
    + cbn [bind] in H. injection H as <- <-. left.
      split; [reflexivity|]. split; [discriminate|].
      left. intros names. discriminate.
  - destruct (Hrest (t :: ts) [] H)
      as [(-> & Ho & Hopen) | (getTable & tr' & Hopen & Hget & -> & Htabs)].
    + left. auto.
    + right. exists (t :: ts), getTable, tr'. auto.
Qed.

Lemma emitsUnitsOf_intro (U : UnicodeTables) (P : platform) (F : flags)
    (sf : schemaFetcher) (dbName : gostring) (names : list gostring)
    (getTable : gostring) (pre tr' : list event) (o : outcome unit) :
  generateGetTable U P {| dataSourceName := databaseConnection F;
                          tableNames := names;
                          forceCases := forceCasesOf F |} = Ret getTable ->
  generateTables U P F sf dbName names (forceCasesOf F) = (tr', o) ->
  writtenFiles pre = [] -> fetchedTables pre = [] ->
  emitsUnitsOf U P F sf dbName names
    (pre ++ FileWritten (baseUnitPath (outputPath F))
              (baseDeclarations dbName ++ getTable) :: tr') o.
Proof.
  intros Hget Htabs Hw Hf.
  apply generateTables_units in Htabs
    as (_ & done & rest & Hnames & Hfiles & Hall & Hend).
  exists done, rest, getTable.
  split; [exact Hnames|]. split; [exact Hget|].
  rewrite writtenFiles_app, fetchedTables_app, Hw, Hf. cbn [app].
  change (writtenFiles (FileWritten ?p ?c :: tr'))
    with ((p, c) :: writtenFiles tr').
  change (fetchedTables (FileWritten ?p ?c :: tr')) with (fetchedTables tr').
  rewrite Hfiles.
  split; [reflexivity|]. split; [exact Hall | exact Hend].
Qed.

(** C5. In every run, with a table list given by the -t flag, [Generate]
    never calls GetTableNames.  A run either ends before it writes anything
    (and then returns no nil), or it writes the base unit and then the units
    of the tables in the order of the list, one unit per name, up to the
    first table whose unit cannot be generated: it returns nil exactly when
    it has written one unit for every name of the list, and otherwise
    returns that table's error, having fetched but not written it.  No unit
    is written for a table outside the list.  Without a list the names that
    GetTableNames returns, in their order, take the place of the list, and
    GetTableNames is called once, whether it succeeds or not.  Whenever both
    flags are given, the driver opens, the database is named, the names are
    had and the base unit's file opens, the run is of the second kind. *)
Theorem C5_explicit_table_list {DB : Type} (U : UnicodeTables) (P : platform)
    (D : drivers DB) (F : flags) (driverName exampleDataSourceName : gostring)
    (tr : list event) (o : outcome unit)
    (Hrun : Generate U P D F driverName exampleDataSourceName = (tr, o)) :
  let named sf names :=
    if isEmpty (tables F) then GetTableNames sf = inl names
    else names = splitComma (tables F) in
  let listed sf dbName names :=
    emitsUnitsOf U P F sf dbName names tr o
    /\ tableNamesQueries tr = (if isEmpty (tables F) then [tt] else []) in
  (tables F <> [] -> tableNamesQueries tr = [])
  /\ ((writtenFiles tr = [] /\ fetchedTables tr = [] /\ o <> Ret tt)
      \/ exists db sf dbName names,
           sql_Open D driverName (databaseConnection F) = inl db
           /\ fetcherOf D driverName db = Some sf
           /\ GetDatabaseName sf = inl dbName
           /\ named sf names
           /\ listed sf dbName names)
  /\ (forall db sf dbName,
        outputPath F <> [] -> databaseConnection F <> [] ->
        sql_Open D driverName (databaseConnection F) = inl db ->
        fetcherOf D driverName db = Some sf ->
        GetDatabaseName sf = inl dbName -> dbName <> [] ->
        tableNamesQueries tr = (if isEmpty (tables F) then [tt] else [])
        /\ forall names,
             named sf names ->
             os_OpenFile P (baseUnitPath (outputPath F)) = None ->
             emitsUnitsOf U P F sf dbName names tr o).
Proof.
  cbn zeta.
  assert (Hunits : forall sf dbName tr',
    generateUnits U P F sf dbName (explicitTablesOf F) (forceCasesOf F)
    = (tr', o) ->
    tr = GetDatabaseNameCalled :: tr' ->
    (tr' = (if isEmpty (tables F) then [GetTableNamesCalled] else [])
     /\ o <> Ret tt
     /\ ((forall names,
            ~ (if isEmpty (tables F) then GetTableNames sf = inl names
               else names = splitComma (tables F)))
         \/ os_OpenFile P (baseUnitPath (outputPath F)) <> None))
    \/ (exists names,
          (if isEmpty (tables F) then GetTableNames sf = inl names
           else names = splitComma (tables F))
          /\ os_OpenFile P (baseUnitPath (outputPath F)) = None
          /\ emitsUnitsOf U P F sf dbName names tr o
          /\ tableNamesQueries tr = (if isEmpty (tables F) then [tt] else []))).
  { intros sf dbName tr' Hgen ->.
    apply generateUnits_run in Hgen. cbn zeta in Hgen.
    unfold explicitTablesOf in Hgen.
    destruct (isEmpty (tables F)) eqn:Hempty; cbn [negb] in Hgen.
    - destruct Hgen
        as [(-> & Ho & Hwhy)
           | (names & getTable & tr2 & Hnames & Hopen & Hget & -> & Htabs)].
      + left. auto.
      + right. exists names. split; [exact Hnames|]. split; [exact Hopen|].
        split.
        * apply (emitsUnitsOf_intro U P F sf dbName names getTable
                   [GetDatabaseNameCalled; GetTableNamesCalled] tr2 o Hget Htabs);
            reflexivity.
        * apply generateTables_units in Htabs as [Hq _].
          change (tt :: tableNamesQueries tr2 = [tt]). rewrite Hq. reflexivity.
    - destruct (splitComma (tables F)) as [|t ts] eqn:Hsplit;
        [exfalso; exact (splitComma_nonempty _ Hsplit)|].
      destruct Hgen
        as [(-> & Ho & Hwhy)
           | (names & getTable & tr2 & Hnames & Hopen & Hget & -> & Htabs)].
      + left. auto.
      + right. exists names. split; [exact Hnames|]. split; [exact Hopen|].
        split.
        * apply (emitsUnitsOf_intro U P F sf dbName names getTable
                   [GetDatabaseNameCalled] tr2 o Hget Htabs); reflexivity.
        * apply generateTables_units in Htabs as [Hq _]. exact Hq. }
  split; [|split].
  - intros Hne.
    apply Generate_cases in Hrun
      as [[(_ & _ & Hq) _] | (db & sf & dbName & tr' & _ & _ & _ & Htr & Hgen)];
      [exact Hq|].
    rewrite (isEmpty_false _ Hne) in Hunits.
    destruct (Hunits sf dbName tr' Hgen Htr)
      as [(-> & _) | (names & _ & _ & _ & Hq)].
    + rewrite Htr. reflexivity.
    + exact Hq.
  - apply Generate_cases in Hrun
      as [[(Hw & Hf & _) Ho]
         | (db & sf & dbName & tr' & Hopen & Hsf & Hname & Htr & Hgen)].
    + left. auto.
    + destruct (Hunits sf dbName tr' Hgen Htr)
        as [(-> & Ho & _) | (names & Hnames & _ & Hemits & Hq)].
      * left. rewrite Htr.
        destruct (isEmpty (tables F)); repeat split; assumption.
      * right. exists db, sf, dbName, names. auto 8.
  - intros db sf dbName Hout Hdbc Hopen Hsf Hname Hne.
    rewrite (Generate_after_open U P D F driverName exampleDataSourceName db sf
               Hout Hdbc Hopen Hsf) in Hrun.
    unfold emit in Hrun. cbn [bind] in Hrun.
    rewrite Hname, (isEmpty_false _ Hne) in Hrun.
    destruct (generateUnits U P F sf dbName (explicitTablesOf F)
                (forceCasesOf F)) as [tr' o'] eqn:Hgen.
    injection Hrun as <- <-.
    destruct (Hunits sf dbName tr' Hgen eq_refl)
      as [(-> & _ & Hwhy) | (names' & Hnames' & _ & Hemits & Hq)].
    + split; [destruct (isEmpty (tables F)); reflexivity|].
      intros names Hnames Hbase.
      destruct Hwhy as [Hnone | Hclosed];
        [exfalso; exact (Hnone names Hnames) | contradiction].
    + split; [exact Hq|].
      intros names Hnames Hbase.
      assert (names' = names) as ->.
      { destruct (isEmpty (tables F)); congruence. }
      exact Hemits.
Qed.

(** The end-to-end scenario, the list ["orders"] on a schema that holds
    "orders" and "users", and the same schema without a list. *)
Lemma C5_explicit_table_list_witness :
  (emitsUnitsOf excerpt Example.machine (Example.commandLine "orders")
     Example.shop (str "shop") [str "orders"]
     (fst (Example.run "orders")) (snd (Example.run "orders"))
   /\ tableNamesQueries (fst (Example.run "orders")) = []
   /\ fetchedTables (fst (Example.run "orders")) = [str "orders"]
   /\ writtenPaths (fst (Example.run "orders"))
      = [str "out/base.dsl.go"; str "out/orders.go"])
  /\ (emitsUnitsOf excerpt Example.machine (Example.commandLine "")
        Example.shop (str "shop") [str "orders"; str "users"]
        (fst (Example.run "")) (snd (Example.run ""))
      /\ tableNamesQueries (fst (Example.run "")) = [tt]
      /\ writtenPaths (fst (Example.run ""))
         = [str "out/base.dsl.go"; str "out/orders.go"; str "out/users.go"]).
Proof.
  split.
  - destruct (C5_explicit_table_list excerpt Example.machine Example.registered
                (Example.commandLine "orders") (str "mysql")
                (str "username:password@tcp(hostname:3306)/database")
                (fst (Example.run "orders")) (snd (Example.run "orders"))
                (surjective_pairing (Example.run "orders")))
      as (_ & _ & Hlisted).
    destruct (Hlisted tt Example.shop (str "shop")) as [Hq Hemits];
      try reflexivity; try discriminate.
    split; [apply (Hemits [str "orders"]); reflexivity|].
    split; [exact Hq|].
    split; vm_compute; reflexivity.
  - destruct (C5_explicit_table_list excerpt Example.machine Example.registered
                (Example.commandLine "") (str "mysql")
                (str "username:password@tcp(hostname:3306)/database")
                (fst (Example.run "")) (snd (Example.run ""))
                (surjective_pairing (Example.run "")))
      as (_ & _ & Hlisted).
    destruct (Hlisted tt Example.shop (str "shop")) as [Hq Hemits];
      try reflexivity; try discriminate.
    split; [apply (Hemits [str "orders"; str "users"]); reflexivity|].
    split; [exact Hq|].
    vm_compute. reflexivity.
Defined.

(** A run with a list of three names that writes one table unit: the second
    table cannot be fetched, and the run returns its error. *)
Lemma C5_counterexample :
  tables (Example.commandLine "orders,nope,users") <> []
  /\ splitComma (tables (Example.commandLine "orders,nope,users"))
     = [str "orders"; str "nope"; str "users"]
  /\ snd (Example.run "orders,nope,users") = Fail (str "no such table")
  /\ writtenPaths (fst (Example.run "orders,nope,users"))
     = [str "out/base.dsl.go"; str "out/orders.go"].
Proof.
  split; [discriminate|]. repeat split; vm_compute; reflexivity.
Qed.

(** ** The command for SQLite3 *)

Lemma panicOnError_never_fails (m : M unit) :
  forall err, snd (panicOnError m) <> Fail err.
Proof.
  intros err. unfold panicOnError. destruct m as [tr [[]|e|code|]]; discriminate.
Qed.

(** X19. The command [sqlingo-gen-sqlite3] imports the SQLite3 driver and
    hands [Generate] the driver name "mysql".  In a program where no driver
    of that name is registered, so that opening it is an error, the command
    never generates anything: it ends inside [flag.Parse], or with the usage
    text and status 1 when the output path or the connection is missing, or
    else panics with the error of [sql.Open].  It asks no fetcher, writes no
    file and never returns normally, whatever the flags. *)
Theorem X19_sqlite3_command_never_generates {DB : Type} (U : UnicodeTables)
    (P : platform) (D : drivers DB) (commandLine : parsed)
    (Hunregistered : forall dsn, exists err,
                       sql_Open D (str "mysql") dsn = inr err) :
  main_sqlite3 U P D commandLine
  = match commandLine with
    | ParseExit message code => ([StderrWritten message], Exit code)
    | Parsed F =>
        if isEmpty (outputPath F) || isEmpty (databaseConnection F)
        then panicOnError (printUsageAndExit P (str "./testdb.sqlite3"))
        else ([], Panic)
    end
  /\ snd (main_sqlite3 U P D commandLine) <> Ret tt
  /\ (forall err, snd (main_sqlite3 U P D commandLine) <> Fail err)
  /\ quietTrace (fst (main_sqlite3 U P D commandLine)).
Proof.
  assert (Hrun : main_sqlite3 U P D commandLine
    = match commandLine with
      | ParseExit message code => ([StderrWritten message], Exit code)
      | Parsed F =>
          if isEmpty (outputPath F) || isEmpty (databaseConnection F)
          then panicOnError (printUsageAndExit P (str "./testdb.sqlite3"))
          else ([], Panic)
      end).
  { unfold main_sqlite3, GenerateCommand, flag_Parse.
    destruct commandLine as [F | message code]; [|reflexivity].
    unfold ret. cbn [bind]. unfold Generate, printUsageAndExit.
    destruct (Hunregistered (databaseConnection F)) as [err ->].
    unfold emit, pure, ret.
    destruct (isEmpty (outputPath F)); [reflexivity|].
    destruct (isEmpty (databaseConnection F)); reflexivity. }
  split; [exact Hrun|].
  split; [|split; [apply panicOnError_never_fails|]].
  - rewrite Hrun. destruct commandLine as [F | message code]; [|discriminate].
    unfold printUsageAndExit, emit, pure.
    destruct (isEmpty (outputPath F) || isEmpty (databaseConnection F));
      discriminate.
  - rewrite Hrun. destruct commandLine as [F | message code];
      [|repeat split].
    unfold printUsageAndExit, emit, pure.
    destruct (isEmpty (outputPath F) || isEmpty (databaseConnection F));
      repeat split.
Qed.

Lemma X19_sqlite3_command_never_generates_witness :
  (forall dsn, exists err, sql_Open sqlite3Only (str "mysql") dsn = inr err)
  /\ main_sqlite3 excerpt Example.machine sqlite3Only
       (Parsed (Example.commandLine "")) = ([], Panic).
Proof.
  assert (Hunregistered : forall dsn : gostring, exists err,
            sql_Open sqlite3Only (str "mysql") dsn = inr err).
  { intros dsn. eexists. reflexivity. }
  split; [exact Hunregistered|].
  exact (proj1 (X19_sqlite3_command_never_generates excerpt Example.machine
                  sqlite3Only (Parsed (Example.commandLine "")) Hunregistered)).
Defined.

(** ** The mock cursor *)

Section MockCursor.
Import Mock.

Lemma assign_beyond (i position : Z) (dest : list driverValue) :
  7 <= i -> assign i position dest = Some dest.
Proof.
  intros Hi. unfold assign.
  repeat match goal with
         | |- context [?a =? ?b] =>
             destruct (Z.eqb_spec a b) as [Heq|_]; [exfalso; lia|]
         end.
  reflexivity.
Qed.

Lemma fill_beyond (n : nat) (i position : Z) (dest : list driverValue) :
  7 <= i -> fill n i position dest = (dest, true).
Proof.
  revert i. induction n as [|n IH]; intros i Hi; [reflexivity|].
  cbn [fill]. rewrite assign_beyond by exact Hi. apply IH. lia.
Qed.

Lemma fill_app (a b : nat) (i position : Z) (dest : list driverValue) :
  fill (a + b) i position dest
  = let '(dest', ok) := fill a i position dest in
    if ok then fill b (i + Z.of_nat a) position dest' else (dest', false).
Proof.
  revert i dest. induction a as [|a IH]; intros i dest.
  - cbn [fill Nat.add]. f_equal. lia.
  - cbn [fill Nat.add]. destruct (assign i position dest) as [dest'|].
    + rewrite IH. replace (i + 1 + Z.of_nat a) with (i + Z.of_nat (S a)) by lia.
      reflexivity.
    + reflexivity.
Qed.

Lemma fill_width (n : nat) (position : Z) (dest : list driverValue) :
  fill n 0 position dest = fill (Nat.min n 7) 0 position dest.
Proof.
  destruct (Nat.le_gt_cases n 7) as [Hle|Hgt].
  - rewrite Nat.min_l by exact Hle. reflexivity.
  - rewrite Nat.min_r by lia.
    replace n with (7 + (n - 7))%nat at 1 by lia.
    rewrite fill_app.
    destruct (fill 7 0 position dest) as [dest' [|]]; [|reflexivity].
    apply fill_beyond. cbn. lia.
Qed.

Lemma update_app (dest rest : list driverValue) (i : nat) (v : driverValue) :
  (i < List.length dest)%nat ->
  update (dest ++ rest) i v = update dest i v ++ rest.
Proof.
  revert i. induction dest as [|d dest IH]; intros i Hi; cbn [List.length] in Hi.
  - lia.
  - destruct i as [|i]; cbn [update app]; [reflexivity|].
    rewrite IH by lia. reflexivity.
Qed.

(** Cells behind the ones a call reaches are left alone. *)
Lemma store_frame (dest dest' rest : list driverValue) (i : Z) (v : driverValue) :
  store dest i v = Some dest' ->
  store (dest ++ rest) i v = Some (dest' ++ rest).
Proof.
  unfold store. rewrite length_app.
  destruct (Z.leb_spec 0 i) as [H0|]; [|discriminate].
  destruct (Z.ltb_spec i (Z.of_nat (List.length dest))) as [Hlt|]; [|discriminate].
  cbn [andb]. intros [= <-].
  destruct (Z.ltb_spec i (Z.of_nat (List.length dest + List.length rest)))
    as [_|Hge]; [|lia].
  rewrite update_app by lia. reflexivity.
Qed.

Lemma assign_frame (i position : Z) (dest dest' rest : list driverValue) :
  assign i position dest = Some dest' ->
  assign i position (dest ++ rest) = Some (dest' ++ rest).
Proof.
  unfold assign.
  repeat match goal with
         | |- context [?a =? ?b] =>
             destruct (Z.eqb a b); [try apply store_frame|]
         end.
  - destruct dest as [|first dest]; [discriminate|]. apply store_frame.
  - intros [= <-]. reflexivity.
Qed.

Lemma fill_frame (n : nat) (i position : Z) (dest dest' rest : list driverValue) :
  fill n i position dest = (dest', true) ->
  fill n i position (dest ++ rest) = (dest' ++ rest, true).
Proof.
  revert i dest. induction n as [|n IH]; intros i dest; cbn [fill].
  - intros [= <-]. reflexivity.
  - destruct (assign i position dest) as [dest1|] eqn:Ha; [|discriminate].
    rewrite (assign_frame _ _ _ _ rest Ha). apply IH.
Qed.

(** The loop writes the first cells of the row, in order, and stops with a
    panic at the end of a [dest] that is too short. *)
Lemma fill_row (w : nat) (position : Z) (dest : list driverValue) :
  (w <= 7)%nat ->
  fill w 0 position dest
  = if (w <=? List.length dest)%nat
    then (firstn w (row position) ++ skipn w dest, true)
    else (firstn (List.length dest) (row position), false).
Proof.
  intros Hw.
  destruct (Nat.le_gt_cases 7 (List.length dest)) as [Hlong|Hshort].
  - assert (Hsplit : exists front rest,
              dest = front ++ rest /\ List.length front = 7%nat).
    { exists (firstn 7 dest), (skipn 7 dest).
      rewrite firstn_skipn, length_firstn. split; [reflexivity | lia]. }
    destruct Hsplit as (front & rest & -> & Hlen). clear Hlong.
    do 8 (destruct front as [|? front]; try discriminate).
    replace (w <=? _)%nat with true
      by (symmetry; apply Nat.leb_le; rewrite length_app; cbn; lia).
    do 8 (try destruct w as [|w]); try lia.
    all: match goal with
         | |- fill ?n 0 _ (?f ++ ?r) = _ =>
             rewrite (fill_frame n 0 position f
                        (firstn n (row position) ++ skipn n f) r)
               by (cbv -[strconv_Itoa string_of_int Z.rem]; reflexivity)
         end.
    all: cbv -[strconv_Itoa string_of_int Z.rem]; reflexivity.
  - do 8 (try destruct w as [|w]); try lia.
    all: do 7 (destruct dest as [|? dest];
               [cbv -[strconv_Itoa string_of_int Z.rem]; reflexivity|]).
    all: cbn [List.length] in Hshort; lia.
Qed.

Lemma width_to_nat (m : mockRows) :
  Nat.min (Z.to_nat (columnCount m)) 7 = width m.
Proof.
  unfold width. lia.
Qed.

(** [Next] before the end of the rows. *)
Lemma Next_advances (m : mockRows) (dest : list driverValue) :
  cursorPosition m < 10 ->
  Next m dest
  = ({| columnCount := columnCount m; cursorPosition := cursorPosition m + 1 |},
     if (width m <=? List.length dest)%nat
     then firstn (width m) (row (cursorPosition m + 1)) ++ skipn (width m) dest
     else firstn (List.length dest) (row (cursorPosition m + 1)),
     if (width m <=? List.length dest)%nat then Ret tt else Panic).
Proof.
  intros Hpos. unfold Next.
  destruct (Z.leb_spec 10 (cursorPosition m)) as [|_]; [lia|].
  cbn [columnCount cursorPosition].
  rewrite fill_width, width_to_nat, fill_row by (unfold width; lia).
  destruct (width m <=? List.length dest)%nat; reflexivity.
Qed.

(** X20. A call of [Next] before the tenth row has been passed advances the
    cursor by one and overwrites the first cells of [dest] (as many as
    there are columns, at most seven) with the row of the new position:
    the position in decimal, as a float32 and as an int, its parity as a
    one-character string and in decimal, the first cell again, and nil.
    The cells behind are left alone.  When [dest] is shorter than that the
    call panics, the cursor already advanced and all of [dest]
    overwritten. *)
Theorem X20_Next_row (m : mockRows) (dest : list driverValue)
    (Hpos : cursorPosition m < 10) :
  let m' := {| columnCount := columnCount m;
               cursorPosition := cursorPosition m + 1 |} in
  ((width m <= List.length dest)%nat ->
     Next m dest
     = (m', firstn (width m) (row (cursorPosition m')) ++ skipn (width m) dest,
        Ret tt))
  /\ ((List.length dest < width m)%nat ->
       Next m dest
       = (m', firstn (List.length dest) (row (cursorPosition m')), Panic))
  /\ (forall out r, Next m dest = (m', out, r) ->
        List.length out = List.length dest).
Proof.
  cbn zeta. cbn [cursorPosition].
  rewrite (Next_advances m dest Hpos).
  assert (Hw : (width m <= 7)%nat) by (unfold width; lia).
  assert (Hrow : List.length (row (cursorPosition m + 1)) = 7%nat) by reflexivity.
  split; [|split].
  - intros Hfit. apply Nat.leb_le in Hfit. rewrite Hfit. reflexivity.
  - intros Hshort. apply Nat.leb_gt in Hshort. rewrite Hshort. reflexivity.
  - intros out r [= <- _].
    destruct (Nat.leb_spec (width m) (List.length dest)).
    + rewrite length_app, length_firstn, length_skipn, Hrow. lia.
    + rewrite length_firstn, Hrow. lia.
Qed.

Lemma X20_Next_row_witness :
  Next {| columnCount := 9; cursorPosition := 2 |}
    [VNil; VNil; VNil; VNil; VNil; VNil; VInt 0; VInt 8; VInt 9]
  = ({| columnCount := 9; cursorPosition := 3 |},
     [VString (str "3"); VFloat32 3; VInt 3; VString [1]; VString (str "1");
      VString (str "3"); VNil; VInt 8; VInt 9],
     Ret tt).
Proof.
  assert (Hpos : cursorPosition {| columnCount := 9; cursorPosition := 2 |} < 10)
    by (cbn; lia).
  destruct (X20_Next_row {| columnCount := 9; cursorPosition := 2 |}
              [VNil; VNil; VNil; VNil; VNil; VNil; VInt 0; VInt 8; VInt 9] Hpos)
    as (Hfit & _ & _).
  rewrite Hfit by (vm_compute; lia). vm_compute. reflexivity.
Defined.

(** The overlay of a row hides the overlay before it. *)
Lemma overlay_twice (w : nat) (r1 r2 dest : list driverValue) :
  (w <= List.length r1)%nat ->
  firstn w r2 ++ skipn w (firstn w r1 ++ skipn w dest)
  = firstn w r2 ++ skipn w dest.
Proof.
  intros Hw. f_equal.
  rewrite skipn_app, length_firstn.
  replace (Nat.min w (List.length r1)) with w by lia.
  rewrite Nat.sub_diag. cbn [skipn].
  rewrite skipn_firstn_comm, Nat.sub_diag. reflexivity.
Qed.

(** [n] calls from a position at most ten. *)
Lemma calls_from (n : nat) (m : mockRows) (dest : list driverValue) :
  cursorPosition m <= 10 -> (width m <= List.length dest)%nat ->
  let k := Nat.min n (Z.to_nat (10 - cursorPosition m)) in
  calls n m dest
  = ({| columnCount := columnCount m;
        cursorPosition := cursorPosition m + Z.of_nat k |},
     match k with
     | O => dest
     | S _ => firstn (width m) (row (cursorPosition m + Z.of_nat k))
              ++ skipn (width m) dest
     end,
     repeat (Ret tt) k ++ repeat (Fail io_EOF) (n - k)).
Proof.
  revert m dest. induction n as [|n IH]; intros m dest Hpos Hfit; cbn zeta.
  - cbn [calls Nat.min repeat app Nat.sub]. destruct m as [cc p].
    cbn [columnCount cursorPosition]. rewrite Z.add_0_r. reflexivity.
  - cbn [calls].
    destruct (Z.eq_dec (cursorPosition m) 10) as [Hend|Hmore].
    + unfold Next. rewrite Hend. cbn [Z.leb Z.compare Pos.compare Pos.compare_cont].
      assert (Hpos' : cursorPosition m <= 10) by lia.
      specialize (IH m dest Hpos' Hfit). cbn zeta in IH. rewrite IH.
      rewrite Hend. cbn [Z.sub Z.add Z.opp Z.pos_sub Pos.pred_double Z.to_nat
                         Z.succ_double Z.pred_double Z.double].
      replace (Z.to_nat (10 - 10)) with 0%nat by reflexivity.
      rewrite !Nat.min_0_r. cbn [repeat app Z.of_nat]. rewrite !Nat.sub_0_r.
      destruct m as [cc p]. cbn [columnCount cursorPosition] in *. subst p.
      reflexivity.
    + rewrite (Next_advances m dest) by lia.
      apply Nat.leb_le in Hfit. rewrite Hfit. apply Nat.leb_le in Hfit.
      set (m1 := {| columnCount := columnCount m;
                    cursorPosition := cursorPosition m + 1 |}).
      assert (Hw1 : width m1 = width m) by reflexivity.
      assert (Hw7 : (width m <= 7)%nat) by (unfold width; lia).
      assert (Hrow : forall p, List.length (row p) = 7%nat) by reflexivity.
      assert (Hfit1 : (width m1 <= List.length
                         (firstn (width m) (row (cursorPosition m + 1))
                          ++ skipn (width m) dest))%nat).
      { rewrite Hw1, length_app, length_firstn, length_skipn, Hrow. lia. }
      assert (Hpos1 : cursorPosition m1 <= 10) by (cbn; lia).
      specialize (IH m1 _ Hpos1 Hfit1). cbn zeta in IH. rewrite IH.
      cbn [columnCount cursorPosition m1].
      replace (Z.to_nat (10 - cursorPosition m))
        with (S (Z.to_nat (10 - (cursorPosition m + 1)))) by lia.
      cbn [Nat.min Nat.sub repeat app].
      rewrite Hw1.
      set (k := Nat.min n (Z.to_nat (10 - (cursorPosition m + 1)))).
      replace (cursorPosition m + Z.of_nat (S k))
        with (cursorPosition m + 1 + Z.of_nat k) by lia.
      destruct k as [|k'].
      * rewrite Z.add_0_r. reflexivity.
      * rewrite overlay_twice by (rewrite Hrow; exact Hw7). reflexivity.
Qed.

(** X21. A cursor that [Query] returns yields exactly ten rows: with a
    [dest] that has room for the columns, each of the first ten calls of
    [Next] returns nil and every later call returns [io.EOF]; after the
    calls the cursor stands at the number of rows yielded, and [dest] holds
    the last row yielded in front of its untouched cells. *)
Theorem X21_ten_rows (s : mockStmt) (dest : list driverValue) (n : nat)
    (Hfit : (width (Query s) <= List.length dest)%nat) :
  let rows := Nat.min n 10 in
  calls n (Query s) dest
  = ({| columnCount := stmtColumnCount s; cursorPosition := Z.of_nat rows |},
     match rows with
     | O => dest
     | S _ => firstn (width (Query s)) (row (Z.of_nat rows))
              ++ skipn (width (Query s)) dest
     end,
     repeat (Ret tt) rows ++ repeat (Fail io_EOF) (n - rows)).
Proof.
  cbn zeta.
  assert (Hpos : cursorPosition (Query s) <= 10) by (cbn; lia).
  rewrite (calls_from n (Query s) dest Hpos Hfit).
  reflexivity.
Qed.

Lemma X21_ten_rows_witness :
  snd (calls 12 (Query {| stmtColumnCount := 2 |}) [VNil; VNil; VNil])
  = repeat (Ret tt) 10 ++ repeat (Fail io_EOF) 2
  /\ snd (fst (calls 12 (Query {| stmtColumnCount := 2 |}) [VNil; VNil; VNil]))
     = [VString (str "10"); VFloat32 10; VNil].
Proof.
  assert (Hfit : (width (Query {| stmtColumnCount := 2 |})
                  <= List.length [VNil; VNil; VNil])%nat) by (vm_compute; lia).
  rewrite (X21_ten_rows {| stmtColumnCount := 2 |} [VNil; VNil; VNil] 12 Hfit).
  split; vm_compute; reflexivity.
Defined.

(** X22. [Columns] returns the first [columnCount] of the names a to g, and
    panics when the count is negative or above seven.  When it returns, the
    names are distinct and there is one name for each cell that [Next]
    writes; above seven columns [Next] still writes seven cells. *)
Theorem X22_Columns_match_row (m : mockRows) :
  (Columns m = None <-> columnCount m < 0 \/ 7 < columnCount m)
  /\ (forall names, Columns m = Some names ->
        Z.of_nat (List.length names) = columnCount m
        /\ List.length names = width m
        /\ NoDup names
        /\ exists rest, columnNames = names ++ rest)
  /\ (7 < columnCount m -> width m = 7%nat).
Proof.
  split; [|split].
  - unfold Columns.
    destruct (Z.leb_spec 0 (columnCount m)) as [H0|H0];
      destruct (Z.leb_spec (columnCount m) 7) as [H7|H7]; cbn [andb];
      split; intros Hc; try discriminate; try reflexivity; try lia;
      destruct Hc; lia.
  - unfold Columns.
    destruct (Z.leb_spec 0 (columnCount m)) as [H0|];
      destruct (Z.leb_spec (columnCount m) 7) as [H7|]; cbn [andb];
      try discriminate.
    intros names [= <-].
    assert (Hlen : List.length (firstn (Z.to_nat (columnCount m)) columnNames)
                   = Z.to_nat (columnCount m)).
    { rewrite length_firstn. change (List.length columnNames) with 7%nat. lia. }
    split; [lia|]. split; [unfold width; lia|]. split.
    + assert (Hall : NoDup columnNames).
      { unfold columnNames.
        repeat (constructor; [cbn [In]; intros Hin;
                              repeat (destruct Hin as [Hin|Hin];
                                      [discriminate Hin|]); exact Hin|]).
        constructor. }
      rewrite <- (firstn_skipn (Z.to_nat (columnCount m)) columnNames) in Hall.
      apply NoDup_app_remove_r in Hall. exact Hall.
    + exists (skipn (Z.to_nat (columnCount m)) columnNames).
      symmetry. apply firstn_skipn.
  - unfold width. lia.
Qed.

End MockCursor.
